(** * LockBox: the credential operations and the encrypt-at-rest field model

    A shallow embedding of the server actions of the LockBox vault
    (getBanksForUser, addBank, updateBank, deleteBank, decryptBank,
    verifyMasterPassword, createUser, changeMasterPassword) together with
    the persistence gateway of [db.ts], and of what the list view
    (BankList.tsx: the search filter, the CSV export) and the header
    (Header.tsx: the initials) compute.

    Conventions.
    - A JavaScript string is a [string]; a character stands for a UTF-16
      code unit below 256.
    - An [async] function is a computation of type [Async A]: it reads and
      writes the [World] (the process environment, the Mongo collection, the
      operating system's random source) and either returns or throws.
    - The libraries the sources import but do not define are interfaces:
      [RegExpEngine] (the regular expressions built by [new RegExp] and
      evaluated by the [$regex] filter) and [NodeCrypto] (node's [crypto]
      module under the configured key).
    - Once [getUsersCollection] has answered, the operations of the
      collection ([findOne], [updateOne], [insertOne]) succeed; the
      failures of the persistence layer are those of the gateway.
    - Two files of the repository are not among the sources, types.ts
      and encryption.ts: the records of the first and the two functions
      of the second are modelled from the specification, and say so. *)

From Stdlib Require Import String Ascii List Bool Arith Lia.
From stdpp Require Import base option list strings.

Local Open Scope string_scope.

(** ** Strings *)

Definition is_digit (c : ascii) : bool :=
  ((48 <=? nat_of_ascii c) && (nat_of_ascii c <=? 57))%nat.

(** WhiteSpace and LineTerminator code units below 256, as [trim] strips
    them: TAB, LF, VT, FF, CR, SP and NBSP. *)
Definition is_js_space (c : ascii) : bool :=
  let n := nat_of_ascii c in
  (((9 <=? n) && (n <=? 13)) || (n =? 32) || (n =? 160))%nat.

Fixpoint drop_spaces (s : string) : string :=
  match s with
  | String c s' => if is_js_space c then drop_spaces s' else s
  | EmptyString => EmptyString
  end.

Fixpoint string_rev_onto (s acc : string) : string :=
  match s with
  | String c s' => string_rev_onto s' (String c acc)
  | EmptyString => acc
  end.

Definition string_rev (s : string) : string := string_rev_onto s "".

(** [String.prototype.trim]. *)
Definition trim (s : string) : string :=
  string_rev (drop_spaces (string_rev (drop_spaces s))).

(** JavaScript truthiness of a string value. *)
Definition truthy (s : string) : bool := negb (String.eqb s "").

(** Truthiness of an optional string property ([undefined] and [null] are
    falsy, and so is the empty string). *)
Definition otruthy (o : option string) : bool :=
  match o with Some s => truthy s | None => false end.

(** [split_at n s] cuts [s] after its first [n] characters; [None] when
    [s] is shorter. *)
Fixpoint split_at (n : nat) (s : string) : option (string * string) :=
  match n with
  | 0 => Some ("", s)
  | S n' =>
      match s with
      | EmptyString => None
      | String c s' =>
          match split_at n' s' with
          | Some (a, b) => Some (String c a, b)
          | None => None
          end
      end
  end.

(** ** The stored documents and the form values (types.ts)

    Modelled from the spec: types.ts is not among the sources.  The
    records follow the data model of the specification (section 3) and
    the properties the operations read and write; an optional property
    is an [option], [None] standing for [undefined] and [null]. *)

Module CustomField.
Record t := mk { label : string; value : string }.
End CustomField.

Module Bank.
Record t := mk {
  id : string;
  bankName : string;
  phoneForOtp : string;
  accountNumber : string;
  netBankingUsername : string;
  netBankingPassword : option string;
  mobileBankingUsername : string;
  mobileBankingPassword : option string;
  atmPin : option string;
  customFields : option (list CustomField.t)
}.

Definition set_netBankingPassword (v : option string) (b : t) : t :=
  mk (id b) (bankName b) (phoneForOtp b) (accountNumber b)
     (netBankingUsername b) v (mobileBankingUsername b)
     (mobileBankingPassword b) (atmPin b) (customFields b).

Definition set_mobileBankingPassword (v : option string) (b : t) : t :=
  mk (id b) (bankName b) (phoneForOtp b) (accountNumber b)
     (netBankingUsername b) (netBankingPassword b) (mobileBankingUsername b)
     v (atmPin b) (customFields b).

Definition set_atmPin (v : option string) (b : t) : t :=
  mk (id b) (bankName b) (phoneForOtp b) (accountNumber b)
     (netBankingUsername b) (netBankingPassword b) (mobileBankingUsername b)
     (mobileBankingPassword b) v (customFields b).

Definition set_customFields (v : option (list CustomField.t)) (b : t) : t :=
  mk (id b) (bankName b) (phoneForOtp b) (accountNumber b)
     (netBankingUsername b) (netBankingPassword b) (mobileBankingUsername b)
     (mobileBankingPassword b) (atmPin b) v.
End Bank.

Module User.
Record t := mk {
  id : string;
  username : string;
  masterPassword : string;
  banks : list Bank.t
}.

Definition set_banks (bs : list Bank.t) (u : t) : t :=
  mk (id u) (username u) (masterPassword u) bs.

Definition set_masterPassword (p : string) (u : t) : t :=
  mk (id u) (username u) p (banks u).
End User.

(** What the list view shows of a bank. *)
Module BankListItem.
Record t := mk { id : string; bankName : string; accountNumber : string }.
End BankListItem.

(** A user document without its [masterPassword] (and without [_id]). *)
Module UserPublic.
Record t := mk { id : string; username : string; banks : list Bank.t }.
End UserPublic.

Module BankFormValues.
Record t := mk {
  bankName : string;
  phoneForOtp : string;
  accountNumber : string;
  netBankingUsername : string;
  netBankingPassword : option string;
  mobileBankingUsername : string;
  mobileBankingPassword : option string;
  atmPin : option string;
  customFields : option (list CustomField.t)
}.
End BankFormValues.

Module ChangePasswordFormValues.
Record t := mk {
  currentPassword : string;
  newPassword : string;
  confirmPassword : string
}.
End ChangePasswordFormValues.

(** The argument of [createUser] is [unknown]: a property that is missing
    or is no string is [None]. *)
Module CreateUserValues.
Record t := mk { username : option string; password : option string }.
End CreateUserValues.

(** ** The world an operation runs in *)

Record World := mkWorld {
  MONGODB_URI : option string;  (* process.env.MONGODB_URI *)
  mongo_up : bool;              (* whether client.connect() succeeds *)
  client_db : bool;             (* db.ts: the cached handle, db && client *)
  users : list User.t;          (* the users collection, in natural order *)
  entropy : nat -> ascii;       (* the random source, byte by byte *)
  entropy_pos : nat             (* how many of its bytes were drawn *)
}.

Definition set_client_db (b : bool) (w : World) : World :=
  mkWorld (MONGODB_URI w) (mongo_up w) b (users w) (entropy w) (entropy_pos w).

Definition set_users (us : list User.t) (w : World) : World :=
  mkWorld (MONGODB_URI w) (mongo_up w) (client_db w) us (entropy w)
          (entropy_pos w).

Definition set_entropy_pos (n : nat) (w : World) : World :=
  mkWorld (MONGODB_URI w) (mongo_up w) (client_db w) (users w) (entropy w) n.

Inductive Exception : Type :=
| ConfigError      (* db.ts: MONGODB_URI is not defined *)
| MongoError       (* db.ts: the connection attempt failed *)
| DecryptionError  (* decrypt: malformed blob or wrong key *)
| SyntaxError.     (* new RegExp: invalid regular expression *)

Inductive Completion (A : Type) : Type :=
| Returned (a : A)
| Thrown (e : Exception).
Arguments Returned {A} a.
Arguments Thrown {A} e.

Definition Async (A : Type) : Type := World -> Completion A * World.

Definition ret {A} (a : A) : Async A := fun w => (Returned a, w).

Definition throw {A} (e : Exception) : Async A := fun w => (Thrown e, w).

Definition bind {A B} (m : Async A) (k : A -> Async B) : Async B :=
  fun w =>
    match m w with
    | (Returned a, w') => k a w'
    | (Thrown e, w') => (Thrown e, w')
    end.

(** [try { m } catch (error) { h }]: the effects of [m] up to the throw
    stay. *)
Definition try_catch {A} (m : Async A) (h : Exception -> Async A) : Async A :=
  fun w =>
    match m w with
    | (Returned a, w') => (Returned a, w')
    | (Thrown e, w') => h e w'
    end.

Notation "'let!' x ':=' m 'in' k" := (bind m (fun x => k))
  (at level 10, x name, m at level 100, k at level 200).

Fixpoint mapM {A B} (f : A -> Async B) (l : list A) : Async (list B) :=
  match l with
  | [] => ret []
  | x :: l' =>
      let! y := f x in
      let! ys := mapM f l' in
      ret (y :: ys)
  end.

(** The value and the final world of a run. *)
Definition outcome {A} (m : Async A) (w : World) : Completion A := fst (m w).
Definition world_after {A} (m : Async A) (w : World) : World := snd (m w).

(** The uniform result object: [{ error }] or [{ success, ...data }]. *)
Inductive Result (A : Type) : Type :=
| Error (error : string)
| Success (success : string) (data : A).
Arguments Error {A} error.
Arguments Success {A} success data.

Definition is_success {A} (c : Completion (Result A)) : bool :=
  match c with Returned (Success _ _) => true | _ => false end.

(** ** node's crypto module *)

(** The initialisation vector of AES-256-CBC (README.md) is one block. *)
Definition IV_LENGTH : nat := 16.

(** [cipher iv text] is [createCipheriv (algorithm, key, iv)] run over
    [text], [decipher iv data] its [createDecipheriv] counterpart, which
    throws ([None]) on data it cannot decipher; the key is the one the
    configuration supplies at start.  [uuid_of_bytes] is the rendering of
    sixteen random bytes by [randomUUID]. *)
Class NodeCrypto : Type := {
  cipher : string -> string -> string;
  decipher : string -> string -> option string;
  uuid_of_bytes : string -> string
}.

(** [crypto.randomBytes n]. *)
Definition randomBytes (n : nat) : Async string :=
  fun w =>
    (Returned
       (string_of_list_ascii (map (entropy w) (seq (entropy_pos w) n))),
     set_entropy_pos (entropy_pos w + n) w).

Section Cipher.
Context `{NodeCrypto}.

Definition randomUUID : Async string :=
  let! bytes := randomBytes 16 in ret (uuid_of_bytes bytes).

(** Modelled from the spec: encryption.ts is not among the sources.  Each
    call draws a fresh random initialisation vector and concatenates it
    with the ciphertext in the blob. *)
Definition encrypt (text : string) : Async string :=
  let! iv := randomBytes IV_LENGTH in
  ret (iv +:+ cipher iv text).

(** Modelled from the spec: encryption.ts is not among the sources.  The
    inverse of [encrypt] on the blobs it produced; [None] stands for the
    DecryptionError of a malformed blob or a key that does not match. *)
Definition open_blob (blob : string) : option string :=
  match split_at IV_LENGTH blob with
  | Some (iv, data) => decipher iv data
  | None => None
  end.

(** Modelled from the spec: encryption.ts is not among the sources.
    [decrypt] returns what [open_blob] finds and throws the
    DecryptionError otherwise. *)
Definition decrypt (blob : string) : Async string :=
  match open_blob blob with
  | Some text => ret text
  | None => throw DecryptionError
  end.

End Cipher.

(** ** The persistence gateway (db.ts) *)

(** [connectToDatabase]: the handle it returns carries nothing here, the
    collection is [users] of the world. *)
Definition connectToDatabase : Async unit :=
  fun w =>
    match MONGODB_URI w with
    | None => (Thrown ConfigError, w)
    | Some uri =>
        if negb (truthy uri) then (Thrown ConfigError, w)
        else if client_db w then (Returned tt, w)
        else if mongo_up w then (Returned tt, set_client_db true w)
        else (Thrown MongoError, w)
    end.

(** [getUsersCollection]: [database.collection ('users')] of the handle. *)
Definition getUsersCollection : Async unit :=
  let! database := connectToDatabase in ret tt.

(** [closeDatabaseConnection]: [client] and [db] are reset together.  A
    client that was made and never connected has no handle ([db] is
    null), and with no client there is no handle either: in every case
    nothing is cached afterwards. *)
Definition closeDatabaseConnection : Async unit :=
  fun w => (Returned tt, set_client_db false w).

(** [findOne filter]: the first document the filter accepts. *)
Definition findOne (filter : User.t -> bool) : Async (option User.t) :=
  fun w => (Returned (find filter (users w)), w).

Fixpoint update_first (filter : User.t -> bool) (f : User.t -> User.t)
    (us : list User.t) : list User.t :=
  match us with
  | [] => []
  | u :: us' => if filter u then f u :: us' else u :: update_first filter f us'
  end.

(** [updateOne filter update]: the update applied to the first document
    the filter accepts, none when there is no such document. *)
Definition updateOne (filter : User.t -> bool) (f : User.t -> User.t)
    : Async unit :=
  fun w => (Returned tt, set_users (update_first filter f (users w)) w).

(** [insertOne document]: the document goes to the end of the collection. *)
Definition insertOne (u : User.t) : Async unit :=
  fun w => (Returned tt, set_users (users w ++ [u]) w).

(** The filter [{ id: userId }]. *)
Definition by_id (userId : string) (u : User.t) : bool :=
  String.eqb (User.id u) userId.

(** The updates [$push: { banks: b }], [$set: { banks: bs }] and
    [$set: { masterPassword: p }]. *)
Definition push_bank (b : Bank.t) (u : User.t) : User.t :=
  User.set_banks (User.banks u ++ [b]) u.

Definition set_banks (bs : list Bank.t) (u : User.t) : User.t :=
  User.set_banks bs u.

Definition set_masterPassword (p : string) (u : User.t) : User.t :=
  User.set_masterPassword p u.

(** [revalidatePath] drops a cache of the framework: nothing of the world
    modelled here. *)
Definition revalidatePath (path : string) : Async unit := ret tt.

(** ** Regular expressions *)

(** [new_RegExp pattern flags] is [None] when the constructor throws its
    SyntaxError; [regex_test re s] says whether [re] matches somewhere in
    [s]. *)
Class RegExpEngine : Type := {
  RegExp : Type;
  new_RegExp : string -> string -> option RegExp;
  regex_test : RegExp -> string -> bool
}.

(** ** Validation (the zod schemas) *)

(** [/^\+?[1-9]\d{1,14}$/] *)
Definition phone_digits (s : string) : bool :=
  match s with
  | String c ds =>
      negb (Ascii.eqb c "0") && is_digit c
      && forallb is_digit (list_ascii_of_string ds)
      && (1 <=? String.length ds)%nat && (String.length ds <=? 14)%nat
  | EmptyString => false
  end.

Definition phone_ok (s : string) : bool :=
  match s with
  | String "+" s' => phone_digits s'
  | _ => phone_digits s
  end.

(** [/^\d{4}$/] *)
Definition pin_ok (s : string) : bool :=
  (String.length s =? 4)%nat && forallb is_digit (list_ascii_of_string s).

Definition customField_ok (f : CustomField.t) : bool :=
  (1 <=? String.length (CustomField.label f))%nat
  && (1 <=? String.length (CustomField.value f))%nat.

Definition bankForm_ok (v : BankFormValues.t) : bool :=
  (2 <=? String.length (BankFormValues.bankName v))%nat
  && phone_ok (BankFormValues.phoneForOtp v)
  && (5 <=? String.length (BankFormValues.accountNumber v))%nat
  && (String.length (BankFormValues.accountNumber v) <=? 20)%nat
  && (1 <=? String.length (BankFormValues.netBankingUsername v))%nat
  && (1 <=? String.length (BankFormValues.mobileBankingUsername v))%nat
  && match BankFormValues.atmPin v with
     | Some pin => pin_ok pin || String.eqb pin ""
     | None => true
     end
  && match BankFormValues.customFields v with
     | Some fs => forallb customField_ok fs
     | None => true
     end.

(** [bankFormSchema.safeParse]: the parsed data are the values given. *)
Definition bankFormSchema (v : BankFormValues.t) : option BankFormValues.t :=
  if bankForm_ok v then Some v else None.

Definition createUserSchema (v : CreateUserValues.t)
    : option (string * string) :=
  match CreateUserValues.username v, CreateUserValues.password v with
  | Some username, Some password =>
      if (3 <=? String.length username)%nat
         && (8 <=? String.length password)%nat
      then Some (username, password) else None
  | _, _ => None
  end.

(** [changePasswordSchema.safeParse]: the data, or the first issue as
    [(path, message)]; the refinement runs after the fields' checks. *)
Definition changePasswordSchema (v : ChangePasswordFormValues.t)
    : ChangePasswordFormValues.t + string * string :=
  if negb (1 <=? String.length (ChangePasswordFormValues.currentPassword v))%nat
  then inr ("currentPassword", "Current password is required")
  else if negb (8 <=? String.length (ChangePasswordFormValues.newPassword v))%nat
  then inr ("newPassword", "New password must be at least 8 characters")
  else if negb (String.eqb (ChangePasswordFormValues.newPassword v)
                           (ChangePasswordFormValues.confirmPassword v))
  then inr ("confirmPassword", "New passwords don't match")
  else inl v.

(** ** The credential operations *)

(** [l.findIndex (p)], with the element found there (the caller reads
    [l[index]] next); [None] is the source's [-1]. *)
Fixpoint findIndex {A} (p : A -> bool) (l : list A) : option (nat * A) :=
  match l with
  | [] => None
  | x :: l' =>
      if p x then Some (0, x)
      else match findIndex p l' with
           | Some (i, y) => Some (S i, y)
           | None => None
           end
  end.

(** The test [b.id === bankId]. *)
Definition has_id (bankId : string) (b : Bank.t) : bool :=
  String.eqb (Bank.id b) bankId.

(** The guard [v && v.trim() !== ''] of updateBank. *)
Definition provided (v : option string) : bool :=
  match v with
  | Some s => truthy s && negb (String.eqb (trim s) "")
  | None => false
  end.

Section Operations.
Context `{RegExpEngine} `{NodeCrypto}.

(** The filter [{ username: { $regex: re } }]. *)
Definition by_username (re : RegExp) (u : User.t) : bool :=
  regex_test re (User.username u).

(** [new RegExp (`^${username}$`, 'i')]. *)
Definition username_RegExp (username : string) : Async RegExp :=
  match new_RegExp ("^" +:+ username +:+ "$") "i" with
  | Some re => ret re
  | None => throw SyntaxError
  end.

(** [v ? encrypt (v) : undefined] *)
Definition encrypt_if_truthy (v : option string) : Async (option string) :=
  match v with
  | Some s =>
      if truthy s then let! c := encrypt s in ret (Some c) else ret None
  | None => ret None
  end.

(** [v ? decrypt (v) : 'N/A'] *)
Definition decrypt_or_NA (v : option string) : Async (option string) :=
  match v with
  | Some s =>
      if truthy s then let! p := decrypt s in ret (Some p)
      else ret (Some "N/A")
  | None => ret (Some "N/A")
  end.

Definition encrypt_field (field : CustomField.t) : Async CustomField.t :=
  let! label := encrypt (CustomField.label field) in
  let! value := encrypt (CustomField.value field) in
  ret (CustomField.mk label value).

Definition decrypt_field (field : CustomField.t) : Async CustomField.t :=
  let! label := decrypt (CustomField.label field) in
  let! value :=
    (if truthy (CustomField.value field)
     then decrypt (CustomField.value field) else ret "N/A") in
  ret (CustomField.mk label value).

(** [fields?.map (f)] *)
Definition map_optional (f : CustomField.t -> Async CustomField.t)
    (fields : option (list CustomField.t))
    : Async (option (list CustomField.t)) :=
  match fields with
  | Some fs => let! fs' := mapM f fs in ret (Some fs')
  | None => ret None
  end.

Definition list_item (b : Bank.t) : Async BankListItem.t :=
  let! bankName := decrypt (Bank.bankName b) in
  let! accountNumber := decrypt (Bank.accountNumber b) in
  ret (BankListItem.mk (Bank.id b) bankName accountNumber).

Definition getBanksForUser (userId : string) : Async (list BankListItem.t) :=
  let! usersCollection := getUsersCollection in
  let! user := findOne (by_id userId) in
  match user with
  | None => ret []
  | Some user => mapM list_item (User.banks user)
  end.

Definition addBank (userId : string) (values : BankFormValues.t)
    : Async (Result unit) :=
  match bankFormSchema values with
  | None => ret (Error "Invalid data provided.")
  | Some data =>
      let! usersCollection := getUsersCollection in
      let! user := findOne (by_id userId) in
      match user with
      | None => ret (Error "User not found.")
      | Some user =>
          let! id := randomUUID in
          let! bankName := encrypt (BankFormValues.bankName data) in
          let! phoneForOtp := encrypt (BankFormValues.phoneForOtp data) in
          let! accountNumber := encrypt (BankFormValues.accountNumber data) in
          let! netBankingUsername :=
            encrypt (BankFormValues.netBankingUsername data) in
          let! netBankingPassword :=
            encrypt_if_truthy (BankFormValues.netBankingPassword data) in
          let! mobileBankingUsername :=
            encrypt (BankFormValues.mobileBankingUsername data) in
          let! mobileBankingPassword :=
            encrypt_if_truthy (BankFormValues.mobileBankingPassword data) in
          let! atmPin := encrypt_if_truthy (BankFormValues.atmPin data) in
          let! customFields :=
            map_optional encrypt_field (BankFormValues.customFields data) in
          let newBank :=
            Bank.mk id bankName phoneForOtp accountNumber netBankingUsername
              netBankingPassword mobileBankingUsername mobileBankingPassword
              atmPin customFields in
          let! updated := updateOne (by_id userId) (push_bank newBank) in
          let! revalidated := revalidatePath "/" in
          ret (Success "Bank added successfully." tt)
      end
  end.

(** One of the three guarded assignments of updateBank:
    [if (v && v.trim() !== '') { updatedBank.f = encrypt (v) }]. *)
Definition assign_if_provided (v : option string)
    (set : option string -> Bank.t -> Bank.t) (updatedBank : Bank.t)
    : Async Bank.t :=
  match v with
  | Some s =>
      if provided v then let! c := encrypt s in ret (set (Some c) updatedBank)
      else ret updatedBank
  | None => ret updatedBank
  end.

Definition updateBank (userId bankId : string) (values : BankFormValues.t)
    : Async (Result unit) :=
  match bankFormSchema values with
  | None => ret (Error "Invalid data provided.")
  | Some data =>
      let! usersCollection := getUsersCollection in
      let! user := findOne (by_id userId) in
      match user with
      | None => ret (Error "User not found.")
      | Some user =>
          match findIndex (has_id bankId) (User.banks user) with
          | None => ret (Error "Bank not found.")
          | Some (bankIndex, existingBank) =>
              let! bankName := encrypt (BankFormValues.bankName data) in
              let! phoneForOtp := encrypt (BankFormValues.phoneForOtp data) in
              let! accountNumber :=
                encrypt (BankFormValues.accountNumber data) in
              let! netBankingUsername :=
                encrypt (BankFormValues.netBankingUsername data) in
              let! mobileBankingUsername :=
                encrypt (BankFormValues.mobileBankingUsername data) in
              let updatedBank :=
                Bank.mk (Bank.id existingBank) bankName phoneForOtp
                  accountNumber netBankingUsername
                  (Bank.netBankingPassword existingBank)
                  mobileBankingUsername
                  (Bank.mobileBankingPassword existingBank)
                  (Bank.atmPin existingBank)
                  (Bank.customFields existingBank) in
              let! updatedBank :=
                assign_if_provided (BankFormValues.netBankingPassword data)
                  Bank.set_netBankingPassword updatedBank in
              let! updatedBank :=
                assign_if_provided (BankFormValues.mobileBankingPassword data)
                  Bank.set_mobileBankingPassword updatedBank in
              let! updatedBank :=
                assign_if_provided (BankFormValues.atmPin data)
                  Bank.set_atmPin updatedBank in
              let! updatedBank :=
                match BankFormValues.customFields data with
                | Some fields =>
                    let! fields' := mapM encrypt_field fields in
                    ret (Bank.set_customFields (Some fields') updatedBank)
                | None => ret updatedBank
                end in
              let banks := <[bankIndex := updatedBank]> (User.banks user) in
              let! updated := updateOne (by_id userId) (set_banks banks) in
              let! revalidated := revalidatePath "/" in
              ret (Success "Bank updated successfully." tt)
          end
      end
  end.

Definition deleteBank (userId bankId : string) : Async (Result unit) :=
  let! usersCollection := getUsersCollection in
  let! user := findOne (by_id userId) in
  match user with
  | None => ret (Error "User not found.")
  | Some user =>
      let initialBankCount := length (User.banks user) in
      let updatedBanks :=
        List.filter (fun b => negb (has_id bankId b)) (User.banks user) in
      if (length updatedBanks =? initialBankCount)%nat
      then ret (Error "Bank not found.")
      else
        let! updated := updateOne (by_id userId) (set_banks updatedBanks) in
        let! revalidated := revalidatePath "/" in
        ret (Success "Bank deleted successfully." tt)
  end.

(** [toPlainObject (user)] without its [masterPassword]. *)
Definition userToReturn (user : User.t) : UserPublic.t :=
  UserPublic.mk (User.id user) (User.username user) (User.banks user).

(** The [try]/[catch] of verifyMasterPassword: [Some] is the [return]
    inside it, [None] means control went on past it. *)
Definition verify_attempt (user : User.t) (password : string)
    : Async (option (Result UserPublic.t)) :=
  try_catch
    (let! decryptedPassword := decrypt (User.masterPassword user) in
     if String.eqb decryptedPassword password
     then ret (Some (Success "Login successful." (userToReturn user)))
     else ret None)
    (fun error =>
       if String.eqb (User.masterPassword user) password
       then ret (Some (Success "Login successful." (userToReturn user)))
       else ret None).

Definition verifyMasterPassword (username password : string)
    : Async (Result UserPublic.t) :=
  if negb (truthy username) || negb (truthy password)
  then ret (Error "Username and password are required.")
  else
    let! usersCollection := getUsersCollection in
    let! re := username_RegExp username in
    let! user := findOne (by_username re) in
    let! returned :=
      match user with
      | Some user =>
          if truthy (User.masterPassword user)
          then verify_attempt user password
          else ret None
      | None => ret None
      end in
    match returned with
    | Some result => ret result
    | None => ret (Error "Invalid username or password.")
    end.

Definition decryptBank (userId bankId : string) : Async (Result Bank.t) :=
  let! usersCollection := getUsersCollection in
  let! user := findOne (by_id userId) in
  match user with
  | None => ret (Error "User not found.")
  | Some user =>
      match find (has_id bankId) (User.banks user) with
      | None => ret (Error "Bank not found.")
      | Some bank =>
          let! bankName := decrypt (Bank.bankName bank) in
          let! phoneForOtp := decrypt (Bank.phoneForOtp bank) in
          let! accountNumber := decrypt (Bank.accountNumber bank) in
          let! netBankingUsername := decrypt (Bank.netBankingUsername bank) in
          let! netBankingPassword :=
            decrypt_or_NA (Bank.netBankingPassword bank) in
          let! mobileBankingUsername :=
            decrypt (Bank.mobileBankingUsername bank) in
          let! mobileBankingPassword :=
            decrypt_or_NA (Bank.mobileBankingPassword bank) in
          let! atmPin := decrypt_or_NA (Bank.atmPin bank) in
          let! customFields :=
            map_optional decrypt_field (Bank.customFields bank) in
          let decryptedBank :=
            Bank.mk (Bank.id bank) bankName phoneForOtp accountNumber
              netBankingUsername netBankingPassword mobileBankingUsername
              mobileBankingPassword atmPin customFields in
          ret (Success "Bank decrypted." decryptedBank)
      end
  end.

Definition createUser (values : CreateUserValues.t)
    : Async (Result UserPublic.t) :=
  match createUserSchema values with
  | None =>
      ret (Error ("Invalid data provided. Username must be at least 3 "
                  +:+ "characters and password at least 8."))
  | Some (username, password) =>
      let! usersCollection := getUsersCollection in
      let! re := username_RegExp username in
      let! existingUser := findOne (by_username re) in
      match existingUser with
      | Some existing => ret (Error "Username already taken.")
      | None =>
          let! id := randomUUID in
          let! masterPassword := encrypt password in
          let newUser := User.mk id username masterPassword [] in
          let! inserted := insertOne newUser in
          ret (Success
                 ("User '" +:+ username
                  +:+ "' created successfully! You can now log in.")
                 (userToReturn newUser))
      end
  end.

(** The [try]/[catch] of changeMasterPassword, giving [isPasswordValid]. *)
Definition current_password_valid (user : User.t) (currentPassword : string)
    : Async bool :=
  try_catch
    (if truthy (User.masterPassword user)
     then
       let! decryptedPassword := decrypt (User.masterPassword user) in
       ret (String.eqb decryptedPassword currentPassword)
     else ret false)
    (fun error => ret (String.eqb (User.masterPassword user) currentPassword)).

Definition changeMasterPassword (userId : string)
    (values : ChangePasswordFormValues.t) : Async (Result unit) :=
  match changePasswordSchema values with
  | inr (path, message) => ret (Error (path +:+ ": " +:+ message))
  | inl data =>
      let currentPassword := ChangePasswordFormValues.currentPassword data in
      let newPassword := ChangePasswordFormValues.newPassword data in
      let! usersCollection := getUsersCollection in
      let! user := findOne (by_id userId) in
      match user with
      | None => ret (Error "User not found.")
      | Some user =>
          let! isPasswordValid := current_password_valid user currentPassword in
          if negb isPasswordValid
          then ret (Error "Incorrect current password.")
          else
            let! masterPassword := encrypt newPassword in
            let! updated :=
              updateOne (by_id userId) (set_masterPassword masterPassword) in
            ret (Success "Master password updated successfully." tt)
      end
  end.

End Operations.

(** ** The list view (BankList.tsx) and the header (Header.tsx)

    What the two components compute from their properties; the markup
    they render, the toasts and the download link are outside.  The order
    of the list ([sort] with [localeCompare]) depends on the collation of
    the browser and is not part of the model: the functions below take
    the list as it stands. *)



Fixpoint starts_with (sub s : string) : bool :=
  match sub, s with
  | EmptyString, _ => true
  | String a sub', String b s' => Ascii.eqb a b && starts_with sub' s'
  | String _ _, EmptyString => false
  end.

(** [s.includes (sub)] *)
Fixpoint includes (s sub : string) : bool :=
  starts_with sub s
  || match s with
     | String _ s' => includes s' sub
     | EmptyString => false
     end.



Definition double_quote : ascii := ascii_of_nat 34.
Definition line_feed : ascii := ascii_of_nat 10.

(** [value.replace] with the global pattern of one double quote and the
    replacement of two. *)
Fixpoint double_the_quotes (value : string) : string :=
  match value with
  | String c s =>
      if Ascii.eqb c double_quote
      then String double_quote (String double_quote (double_the_quotes s))
      else String c (double_the_quotes s)
  | EmptyString => EmptyString
  end.

Definition escapeCSV (value : string) : string :=
  if includes value ","
     || includes value (String double_quote "")
     || includes value (String line_feed "")
  then String double_quote (double_the_quotes value +:+ String double_quote "")
  else value.

Definition headers : list string := ["Bank Name"; "Account Number"].

Definition rows (filteredAndSortedBanks : list BankListItem.t)
    : list (list string) :=
  map (fun bank => [BankListItem.bankName bank; BankListItem.accountNumber bank])
      filteredAndSortedBanks.

Definition csvContent (filteredAndSortedBanks : list BankListItem.t)
    : string :=
  String.concat (String line_feed "")
    (String.concat "," (map escapeCSV headers)
     :: map (fun row => String.concat "," (map escapeCSV row))
          (rows filteredAndSortedBanks)).

(** [exportToCSV]: the content of the file it offers for download, and
    [None] when the list is empty and it only tells so. *)
Definition exportToCSV (filteredAndSortedBanks : list BankListItem.t)
    : option string :=
  match filteredAndSortedBanks with
  | [] => None
  | _ :: _ => Some (csvContent filteredAndSortedBanks)
  end.

(** [name.split (' ')] *)
Fixpoint split_spaces (name : string) : list string :=
  match name with
  | EmptyString => [""]
  | String c s =>
      if Ascii.eqb c " "%char then "" :: split_spaces s
      else match split_spaces s with
           | n :: ns => String c n :: ns
           | [] => [String c ""]
           end
  end.

(** [n[0]] as [join] renders it: nothing for the [undefined] of an empty
    part. *)
Definition first_unit (n : string) : string :=
  match n with
  | String c _ => String c ""
  | EmptyString => ""
  end.

(** [getInitials] of the header's avatar. *)
Definition getInitials (name : string) : string :=
  String.concat "" (firstn 2 (map first_unit (split_spaces name))).

(** ** A regular-expression engine for the basic fragment

    An instance of [RegExpEngine] to run the operations on concrete
    inputs.  It reads the patterns made of literal characters, [.], the
    postfix quantifiers [*], [+], [?] (and their lazy forms), groups,
    [|], the anchors [^] and [$], and a backslash before a character that
    is no letter or digit; it knows the flags [""] and ["i"].  On these it
    follows ECMAScript (without the multiline flag): a search for a match
    anywhere in the subject.  Classes, braces, the other escapes and flags
    are outside the fragment, and [basic_RegExp] gives [None] for them
    too. *)

Inductive regex : Type :=
| Never
| Empty
| Char (c : ascii)
| AnyChar
| Bol
| Eol
| Seq (r1 r2 : regex)
| Alt (r1 r2 : regex)
| Star (r : regex).

Definition seq_re (r1 r2 : regex) : regex :=
  match r1, r2 with
  | Never, _ => Never
  | _, Never => Never
  | Empty, _ => r2
  | _, Empty => r1
  | _, _ => Seq r1 r2
  end.

Definition alt_re (r1 r2 : regex) : regex :=
  match r1, r2 with
  | Never, _ => r2
  | _, Never => r1
  | _, _ => Alt r1 r2
  end.

(** Canonicalize of the ignoreCase flag: the upper-case form of a code
    unit, where that is again a single code unit below 256. *)
Definition canonicalize (c : ascii) : ascii :=
  let n := nat_of_ascii c in
  if (((97 <=? n) && (n <=? 122))
      || ((224 <=? n) && (n <=? 254) && negb (n =? 247)))%nat
  then ascii_of_nat (n - 32) else c.

Definition char_matches (ignoreCase : bool) (pat c : ascii) : bool :=
  if ignoreCase then Ascii.eqb (canonicalize pat) (canonicalize c)
  else Ascii.eqb pat c.

Definition is_line_terminator (c : ascii) : bool :=
  ((nat_of_ascii c =? 10) || (nat_of_ascii c =? 13))%nat.

(** Whether [r] matches the empty string at a position that is the start
    ([bol]) or the end ([eol]) of the subject. *)
Fixpoint nullable (bol eol : bool) (r : regex) : bool :=
  match r with
  | Never | Char _ | AnyChar => false
  | Empty | Star _ => true
  | Bol => bol
  | Eol => eol
  | Seq r1 r2 => nullable bol eol r1 && nullable bol eol r2
  | Alt r1 r2 => nullable bol eol r1 || nullable bol eol r2
  end.

(** What is left of [r] after it read [c] at a position that is the start
    of the subject or not ([bol]). *)
Fixpoint derivative (ignoreCase bol : bool) (c : ascii) (r : regex) : regex :=
  match r with
  | Never | Empty | Bol | Eol => Never
  | Char pat => if char_matches ignoreCase pat c then Empty else Never
  | AnyChar => if is_line_terminator c then Never else Empty
  | Seq r1 r2 =>
      alt_re (seq_re (derivative ignoreCase bol c r1) r2)
             (if nullable bol false r1 then derivative ignoreCase bol c r2
              else Never)
  | Alt r1 r2 =>
      alt_re (derivative ignoreCase bol c r1) (derivative ignoreCase bol c r2)
  | Star r1 => seq_re (derivative ignoreCase bol c r1) (Star r1)
  end.

(** Whether [r] matches a prefix of [s]. *)
Fixpoint matches_prefix (ignoreCase bol : bool) (r : regex) (s : string)
    : bool :=
  match s with
  | EmptyString => nullable bol true r
  | String c s' =>
      nullable bol false r
      || matches_prefix ignoreCase false (derivative ignoreCase bol c r) s'
  end.

(** Whether [r] matches at some position of [s]. *)
Fixpoint search (ignoreCase bol : bool) (r : regex) (s : string) : bool :=
  matches_prefix ignoreCase bol r s
  || match s with
     | EmptyString => false
     | String c s' => search ignoreCase false r s'
     end.

(** The parser's view of the alternative it is reading: the alternatives
    closed so far, the terms of the current one, and its last term, which
    a quantifier may still follow. *)
Inductive last_term : Type :=
| NoTerm
| Term (r : regex)
| Quantified (r : regex)
| QuantifiedLazy (r : regex).

Record frame := mkFrame {
  alternatives : regex;
  terms : regex;
  last : last_term
}.

Definition empty_frame : frame := mkFrame Never Empty NoTerm.

Definition flushed (f : frame) : regex :=
  match last f with
  | NoTerm => terms f
  | Term r | Quantified r | QuantifiedLazy r => seq_re (terms f) r
  end.

Definition close_frame (f : frame) : regex :=
  alt_re (alternatives f) (flushed f).

Definition push_term (r : regex) (f : frame) : frame :=
  mkFrame (alternatives f) (flushed f) (Term r).

Definition push_assertion (r : regex) (f : frame) : frame :=
  mkFrame (alternatives f) (seq_re (flushed f) r) NoTerm.

Definition next_alternative (f : frame) : frame :=
  mkFrame (close_frame f) Empty NoTerm.

Definition quantify (q : ascii) (f : frame) : option frame :=
  match last f with
  | Term r =>
      let r' :=
        if Ascii.eqb q "*" then Star r
        else if Ascii.eqb q "+" then seq_re r (Star r)
        else alt_re r Empty in
      Some (mkFrame (alternatives f) (terms f) (Quantified r'))
  | Quantified r =>
      if Ascii.eqb q "?"
      then Some (mkFrame (alternatives f) (terms f) (QuantifiedLazy r))
      else None
  | NoTerm | QuantifiedLazy _ => None
  end.

Definition is_alnum (c : ascii) : bool :=
  let n := nat_of_ascii c in
  (((48 <=? n) && (n <=? 57)) || ((65 <=? n) && (n <=? 90))
   || ((97 <=? n) && (n <=? 122)))%nat.

(** [None]: a SyntaxError (nothing to repeat, an unmatched parenthesis, a
    backslash at the end), or a pattern outside the fragment. *)
Fixpoint parse_pattern (pattern : string) (cur : frame) (open : list frame)
    : option regex :=
  match pattern with
  | EmptyString =>
      match open with
      | [] => Some (close_frame cur)
      | _ :: _ => None
      end
  | String c rest =>
      if Ascii.eqb c "\" then
        match rest with
        | EmptyString => None
        | String d rest' =>
            if is_alnum d then None
            else parse_pattern rest' (push_term (Char d) cur) open
        end
      else if Ascii.eqb c "(" then parse_pattern rest empty_frame (cur :: open)
      else if Ascii.eqb c ")" then
        match open with
        | [] => None
        | parent :: open' =>
            parse_pattern rest (push_term (close_frame cur) parent) open'
        end
      else if Ascii.eqb c "|" then parse_pattern rest (next_alternative cur) open
      else if Ascii.eqb c "*" || Ascii.eqb c "+" || Ascii.eqb c "?" then
        match quantify c cur with
        | Some cur' => parse_pattern rest cur' open
        | None => None
        end
      else if Ascii.eqb c "^" then parse_pattern rest (push_assertion Bol cur) open
      else if Ascii.eqb c "$" then parse_pattern rest (push_assertion Eol cur) open
      else if Ascii.eqb c "." then parse_pattern rest (push_term AnyChar cur) open
      else if Ascii.eqb c "[" || Ascii.eqb c "{" then None
      else parse_pattern rest (push_term (Char c) cur) open
  end.

Record BasicRegExp := mkBasicRegExp { source : regex; ignoreCase : bool }.

Definition basic_RegExp (pattern flags : string) : option BasicRegExp :=
  match parse_pattern pattern empty_frame [] with
  | Some r =>
      if String.eqb flags "" then Some (mkBasicRegExp r false)
      else if String.eqb flags "i" then Some (mkBasicRegExp r true)
      else None
  | None => None
  end.

Definition basic_test (re : BasicRegExp) (s : string) : bool :=
  search (ignoreCase re) true (source re) s.

#[local] Instance basic_engine : RegExpEngine := {
  RegExp := BasicRegExp;
  new_RegExp := basic_RegExp;
  regex_test := basic_test
}.

(** The engine on the patterns the operations build: [Some b] is the
    answer of [test], [None] the SyntaxError of the constructor. *)
Definition basic_match (pattern subject : string) : option bool :=
  match basic_RegExp pattern "i" with
  | Some re => Some (basic_test re subject)
  | None => None
  end.

(** ** A cipher to run the operations with

    An instance of [NodeCrypto] for concrete runs: cipher-block chaining
    over one-character blocks, the block transformation being the
    exclusive or with a key character, and one padding character closing
    the text (deciphering checks it, as PKCS#7 unpadding does). *)

Definition xor_ascii (a b : ascii) : ascii :=
  match a, b with
  | Ascii a0 a1 a2 a3 a4 a5 a6 a7, Ascii b0 b1 b2 b3 b4 b5 b6 b7 =>
      Ascii (xorb a0 b0) (xorb a1 b1) (xorb a2 b2) (xorb a3 b3)
            (xorb a4 b4) (xorb a5 b5) (xorb a6 b6) (xorb a7 b7)
  end.

Definition chain_key : ascii := "K"%char.
Definition chain_pad : ascii := "001"%char.

(** The chaining starts from the initialisation vector folded to one
    block. *)
Fixpoint fold_iv (iv : string) : ascii :=
  match iv with
  | EmptyString => zero
  | String c iv' => xor_ascii c (fold_iv iv')
  end.

Fixpoint chain_cipher (prev : ascii) (text : string) : string :=
  match text with
  | EmptyString =>
      String (xor_ascii (xor_ascii chain_pad prev) chain_key) EmptyString
  | String c text' =>
      let e := xor_ascii (xor_ascii c prev) chain_key in
      String e (chain_cipher e text')
  end.

Fixpoint chain_decipher (prev : ascii) (data : string) : option string :=
  match data with
  | EmptyString => None
  | String e data' =>
      let c := xor_ascii (xor_ascii e chain_key) prev in
      match data' with
      | EmptyString => if Ascii.eqb c chain_pad then Some "" else None
      | String _ _ =>
          match chain_decipher e data' with
          | Some text => Some (String c text)
          | None => None
          end
      end
  end.

Definition hex_digit (n : nat) : ascii :=
  if (n <? 10)%nat then ascii_of_nat (48 + n) else ascii_of_nat (87 + n).

Fixpoint hex_of_bytes (bytes : string) : string :=
  match bytes with
  | EmptyString => ""
  | String c bytes' =>
      String (hex_digit (nat_of_ascii c / 16))
        (String (hex_digit (nat_of_ascii c mod 16)) (hex_of_bytes bytes'))
  end.

(** Thirty-two hexadecimal digits in the groups 8-4-4-4-12. *)
Definition chain_uuid (bytes : string) : string :=
  let h := hex_of_bytes bytes in
  substring 0 8 h +:+ "-" +:+ substring 8 4 h +:+ "-" +:+ substring 12 4 h
  +:+ "-" +:+ substring 16 4 h +:+ "-" +:+ substring 20 12 h.

#[local] Instance xor_chain : NodeCrypto := {
  cipher iv text := chain_cipher (fold_iv iv) text;
  decipher iv data := chain_decipher (fold_iv iv) data;
  uuid_of_bytes := chain_uuid
}.

(** * The vocabulary of the properties *)

(** [returns m w Q]: run in [w], the computation [m] returns, with a
    value and a final world that satisfy [Q]. *)
Definition returns {A} (m : Async A) (w : World) (Q : A -> World -> Prop)
    : Prop :=
  exists a w', m w = (Returned a, w') /\ Q a w'.


(** The initialisation vector the next call of [encrypt] draws. *)
Definition drawn_iv (w : World) : string :=
  string_of_list_ascii (map (entropy w) (seq (entropy_pos w) IV_LENGTH)).

(** [getUsersCollection] succeeds: the URI is configured, and the handle
    is cached or the server answers. *)
Definition connects (w : World) : bool :=
  match MONGODB_URI w with
  | Some uri => truthy uri && (client_db w || mongo_up w)
  | None => false
  end.

(** [w'] holds the documents of [w], and the gateway answers in the one
    as in the other. *)
Definition same_store (w w' : World) : Prop :=
  users w' = users w /\ connects w' = connects w.




(** The server stops, or starts, answering. *)
Definition set_mongo_up (b : bool) (w : World) : World :=
  mkWorld (MONGODB_URI w) b (client_db w) (users w) (entropy w)
          (entropy_pos w).

(** The environment of the process is given another [MONGODB_URI]. *)
Definition set_MONGODB_URI (uri : option string) (w : World) : World :=
  mkWorld uri (mongo_up w) (client_db w) (users w) (entropy w)
          (entropy_pos w).


(** Reading an exported text back.  [read_field s] is the field at the
    head of [s], together with the delimiter that ends it and the text
    after the delimiter, [None] when the field ends the text.
    [read_quoted] reads a field past its opening quote, [read_plain] one
    that has none. *)
Fixpoint read_quoted (s : string) : string * option (ascii * string) :=
  match s with
  | EmptyString => ("", None)
  | String c s' =>
      if Ascii.eqb c double_quote
      then
        match s' with
        | EmptyString => ("", None)
        | String d s'' =>
            if Ascii.eqb d double_quote
            then let (v, rest) := read_quoted s'' in
                 (String double_quote v, rest)
            else ("", Some (d, s''))
        end
      else let (v, rest) := read_quoted s' in (String c v, rest)
  end.

Fixpoint read_plain (s : string) : string * option (ascii * string) :=
  match s with
  | EmptyString => ("", None)
  | String c s' =>
      if Ascii.eqb c ","%char || Ascii.eqb c line_feed
      then ("", Some (c, s'))
      else let (v, rest) := read_plain s' in (String c v, rest)
  end.

Definition read_field (s : string) : string * option (ascii * string) :=
  match s with
  | String c s' => if Ascii.eqb c double_quote then read_quoted s' else read_plain s
  | EmptyString => ("", None)
  end.

(** The text that follows a field: nothing, or a delimiter and more. *)
Definition after_field (t : option (ascii * string)) : string :=
  match t with
  | Some (d, rest) => String d rest
  | None => ""
  end.

Definition delimited (t : option (ascii * string)) : Prop :=
  match t with
  | Some (d, _) => d = ","%char \/ d = line_feed
  | None => True
  end.

(** [m] leaves the documents of the collection as they are, however it
    ends. *)
Definition keeps_users {A} (m : Async A) : Prop :=
  forall w, users (world_after m w) = users w.

(** What an operation on the banks of [userId] may make of a document:
    it keeps the id, the username and the master password, and is the
    same document when its id is another. *)
Definition banks_written (userId : string) (u u' : User.t) : Prop :=
  User.id u' = User.id u
  /\ User.username u' = User.username u
  /\ User.masterPassword u' = User.masterPassword u
  /\ (User.id u <> userId -> u' = u).

(** What a change of the master password of [userId] may make of a
    document: it keeps the id, the username and the banks, and is the same
    document when its id is another. *)
Definition password_written (userId : string) (u u' : User.t) : Prop :=
  User.id u' = User.id u
  /\ User.username u' = User.username u
  /\ User.banks u' = User.banks u
  /\ (User.id u <> userId -> u' = u).

Section Vocabulary.
Context `{NodeCrypto}.

(** What is asked of node's cipher: deciphering under the vector and key
    of the enciphering gives the text back. *)
Definition cipher_inverts : Prop :=
  forall iv text,
    String.length iv = IV_LENGTH -> decipher iv (cipher iv text) = Some text.

(** [blob] is what [encrypt] makes of [text] under some initialisation
    vector. *)
Definition is_encryption_of (blob text : string) : Prop :=
  exists iv, String.length iv = IV_LENGTH /\ blob = iv +:+ cipher iv text.

(** [item] is what the list view shows of the stored bank [b]: its id,
    and its name and account number decrypted. *)
Definition listed (b : Bank.t) (item : BankListItem.t) : Prop :=
  BankListItem.id item = Bank.id b
  /\ open_blob (Bank.bankName b) = Some (BankListItem.bankName item)
  /\ open_blob (Bank.accountNumber b) = Some (BankListItem.accountNumber item).

(** The comparison as the specification words it (section 4.5): attempt
    decryption first and compare the decrypted value; if decryption
    throws, compare the stored value itself with the supplied plaintext. *)
Definition password_matches (stored supplied : string) : bool :=
  match open_blob stored with
  | Some decrypted => String.eqb decrypted supplied
  | None => String.eqb stored supplied
  end.

(** The incoming optional value is [Some s] with [trim s] non-empty. *)
Definition nonempty_after_trim (incoming : option string) : Prop :=
  exists s, incoming = Some s /\ trim s <> "".

(** The update policy of an optional secret: a non-empty incoming value
    replaces the stored ciphertext by an encryption of itself, anything
    else leaves the stored ciphertext as it was. *)
Definition optional_policy (incoming old new : option string) : Prop :=
  (forall s, incoming = Some s -> trim s <> "" ->
             exists c, new = Some c /\ is_encryption_of c s)
  /\ (~ nonempty_after_trim incoming -> new = old).

(** The stored custom field is the plain one with both parts
    encrypted. *)
Definition field_encrypts (plain stored : CustomField.t) : Prop :=
  is_encryption_of (CustomField.label stored) (CustomField.label plain)
  /\ is_encryption_of (CustomField.value stored) (CustomField.value plain).

(** How the record written by updateBank relates to the form values and
    to the record it replaces. *)
Record updated_from (values : BankFormValues.t) (existing updated : Bank.t)
    : Prop := {
  upd_id : Bank.id updated = Bank.id existing;
  upd_bankName :
    is_encryption_of (Bank.bankName updated) (BankFormValues.bankName values);
  upd_phoneForOtp :
    is_encryption_of (Bank.phoneForOtp updated)
      (BankFormValues.phoneForOtp values);
  upd_accountNumber :
    is_encryption_of (Bank.accountNumber updated)
      (BankFormValues.accountNumber values);
  upd_netBankingUsername :
    is_encryption_of (Bank.netBankingUsername updated)
      (BankFormValues.netBankingUsername values);
  upd_mobileBankingUsername :
    is_encryption_of (Bank.mobileBankingUsername updated)
      (BankFormValues.mobileBankingUsername values);
  upd_netBankingPassword :
    optional_policy (BankFormValues.netBankingPassword values)
      (Bank.netBankingPassword existing) (Bank.netBankingPassword updated);
  upd_mobileBankingPassword :
    optional_policy (BankFormValues.mobileBankingPassword values)
      (Bank.mobileBankingPassword existing)
      (Bank.mobileBankingPassword updated);
  upd_atmPin :
    optional_policy (BankFormValues.atmPin values)
      (Bank.atmPin existing) (Bank.atmPin updated);
  upd_customFields :
    match BankFormValues.customFields values with
    | Some fields =>
        exists fields',
          Bank.customFields updated = Some fields'
          /\ Forall2 field_encrypts fields fields'
    | None => Bank.customFields updated = Bank.customFields existing
    end
}.

(** The stored ciphertexts that the reading operations decrypt. *)
Definition opens (blob : string) : bool :=
  match open_blob blob with Some _ => true | None => false end.

(** An optional ciphertext is read only when it is truthy. *)
Definition optional_opens (v : option string) : bool :=
  match v with
  | Some s => if truthy s then opens s else true
  | None => true
  end.

Definition field_opens (f : CustomField.t) : bool :=
  opens (CustomField.label f)
  && (if truthy (CustomField.value f) then opens (CustomField.value f)
      else true).

Definition bank_opens (b : Bank.t) : bool :=
  opens (Bank.bankName b) && opens (Bank.phoneForOtp b)
  && opens (Bank.accountNumber b) && opens (Bank.netBankingUsername b)
  && optional_opens (Bank.netBankingPassword b)
  && opens (Bank.mobileBankingUsername b)
  && optional_opens (Bank.mobileBankingPassword b)
  && optional_opens (Bank.atmPin b)
  && match Bank.customFields b with
     | Some fields => forallb field_opens fields
     | None => true
     end.

(** The invariant of the data model: every ciphertext field of every
    stored bank decrypts under the configured key. *)
Definition store_opens (w : World) : bool :=
  forallb (fun u => forallb bank_opens (User.banks u)) (users w).

(** What addBank stores of an optional value: its encryption when it is
    non-empty, nothing otherwise. *)
Definition optional_added (incoming new : option string) : Prop :=
  match incoming with
  | Some s =>
      if truthy s then exists c, new = Some c /\ is_encryption_of c s
      else new = None
  | None => new = None
  end.

(** How the record appended by addBank relates to the form values. *)
Record added_from (values : BankFormValues.t) (added : Bank.t) : Prop := {
  add_bankName :
    is_encryption_of (Bank.bankName added) (BankFormValues.bankName values);
  add_phoneForOtp :
    is_encryption_of (Bank.phoneForOtp added)
      (BankFormValues.phoneForOtp values);
  add_accountNumber :
    is_encryption_of (Bank.accountNumber added)
      (BankFormValues.accountNumber values);
  add_netBankingUsername :
    is_encryption_of (Bank.netBankingUsername added)
      (BankFormValues.netBankingUsername values);
  add_mobileBankingUsername :
    is_encryption_of (Bank.mobileBankingUsername added)
      (BankFormValues.mobileBankingUsername values);
  add_netBankingPassword :
    optional_added (BankFormValues.netBankingPassword values)
      (Bank.netBankingPassword added);
  add_mobileBankingPassword :
    optional_added (BankFormValues.mobileBankingPassword values)
      (Bank.mobileBankingPassword added);
  add_atmPin :
    optional_added (BankFormValues.atmPin values) (Bank.atmPin added);
  add_customFields :
    match BankFormValues.customFields values with
    | Some fields =>
        exists fields',
          Bank.customFields added = Some fields'
          /\ Forall2 field_encrypts fields fields'
    | None => Bank.customFields added = None
    end
}.

(** What decryptBank shows of an optional field: the stored value
    decrypted, or 'N/A' when nothing truthy is stored; [None] when the
    stored value does not decrypt. *)
Definition reveal_optional (stored : option string)
    : option (option string) :=
  match stored with
  | Some c =>
      if truthy c then option_map Some (open_blob c) else Some (Some "N/A")
  | None => Some (Some "N/A")
  end.

Definition reveal_field (f : CustomField.t) : option CustomField.t :=
  match open_blob (CustomField.label f),
        (if truthy (CustomField.value f)
         then open_blob (CustomField.value f) else Some "N/A") with
  | Some label, Some value => Some (CustomField.mk label value)
  | _, _ => None
  end.

Fixpoint reveal_fields (fields : list CustomField.t)
    : option (list CustomField.t) :=
  match fields with
  | [] => Some []
  | f :: fields' =>
      match reveal_field f, reveal_fields fields' with
      | Some f', Some fields'' => Some (f' :: fields'')
      | _, _ => None
      end
  end.

(** What decryptBank shows of a stored bank, as a function of the record
    alone; [None] when one of the fields it reads does not decrypt. *)
Definition revealed (b : Bank.t) : option Bank.t :=
  match open_blob (Bank.bankName b), open_blob (Bank.phoneForOtp b),
        open_blob (Bank.accountNumber b),
        open_blob (Bank.netBankingUsername b),
        reveal_optional (Bank.netBankingPassword b),
        open_blob (Bank.mobileBankingUsername b),
        reveal_optional (Bank.mobileBankingPassword b),
        reveal_optional (Bank.atmPin b),
        match Bank.customFields b with
        | Some fields => option_map Some (reveal_fields fields)
        | None => Some None
        end with
  | Some bankName, Some phoneForOtp, Some accountNumber,
    Some netBankingUsername, Some netBankingPassword,
    Some mobileBankingUsername, Some mobileBankingPassword, Some atmPin,
    Some customFields =>
      Some (Bank.mk (Bank.id b) bankName phoneForOtp accountNumber
              netBankingUsername netBankingPassword mobileBankingUsername
              mobileBankingPassword atmPin customFields)
  | _, _, _, _, _, _, _, _, _ => None
  end.

(** What decryptBank shows of an optional value as addBank stored it:
    the value submitted, or 'N/A' when none or an empty one was. *)
Definition submitted_or_NA (incoming : option string) : string :=
  match incoming with
  | Some s => if truthy s then s else "N/A"
  | None => "N/A"
  end.

(** What decryptBank shows of an optional secret after an update: the
    incoming value when that was non-empty after trimming, and otherwise
    what it showed of the value stored before. *)
Definition shown_after_update (incoming old shown : option string) : Prop :=
  (forall s, incoming = Some s -> trim s <> "" -> shown = Some s)
  /\ (~ nonempty_after_trim incoming -> reveal_optional old = Some shown).

End Vocabulary.

(** * A vault to run the operations on

    The operations run with the engine [basic_engine] and the cipher
    [xor_chain]. *)

(** A world to run examples in: the store is reachable and empty, the
    random source counts. *)
Definition demo_world : World :=
  mkWorld (Some "mongodb://localhost:27017") true false []
          (fun n => ascii_of_nat n) 0.

Definition iv0 : string := "0123456789abcdef".

(** A blob as [encrypt] makes it under the initialisation vector [iv0]. *)
Definition sealed (text : string) : string := iv0 +:+ cipher iv0 text.

Definition hdfc : Bank.t :=
  Bank.mk "b1" (sealed "HDFC Bank") (sealed "+919876543210")
    (sealed "1234567890") (sealed "alice.net") (Some (sealed "n3t-secret"))
    (sealed "alice.mob") None (Some (sealed "1234"))
    (Some [CustomField.mk (sealed "IFSC") (sealed "HDFC0001234")]).

Definition sbi : Bank.t :=
  Bank.mk "b2" (sealed "State Bank") (sealed "+919812345678")
    (sealed "0987654321") (sealed "alice.sbi") None
    (sealed "alice.yono") (Some (sealed "m0b-secret")) None None.

Definition alice : User.t :=
  User.mk "u1" "alice" (sealed "password123") [hdfc; sbi].

(** An account from before encryption: the master password is stored as
    it was typed. *)
Definition bob : User.t := User.mk "u2" "bob" "hunter2-hunter2" [].

Definition vault_world : World :=
  mkWorld (Some "mongodb://localhost:27017") true false [alice; bob]
          (fun n => ascii_of_nat n) 0.



(** A form that changes the names and leaves the three secrets blank. *)
Definition rename_form : BankFormValues.t :=
  BankFormValues.mk "HDFC" "+919876543210" "1234567890" "alice.net"
    (Some "   ") "alice.mob" None (Some "") None.

(** The same form with a new PIN. *)
Definition new_pin_form : BankFormValues.t :=
  BankFormValues.mk "HDFC" "+919876543210" "1234567890" "alice.net"
    (Some "   ") "alice.mob" None (Some "9876") None.

Definition signup (username : string) : CreateUserValues.t :=
  CreateUserValues.mk (Some username) (Some "password123").


Definition joint_account : string :=
  "Smith, Jones and "
  +:+ String double_quote ("Co" +:+ String double_quote "").

(** * Properties *)

(** ** Strings and the monad *)

Lemma split_at_app (a b : string) :
  split_at (String.length a) (a +:+ b) = Some (a, b).
Proof.
  induction a as [|c a IH]; simpl; [reflexivity|].
  now rewrite IH.
Qed.

Lemma length_string_of_list_ascii (l : list ascii) :
  String.length (string_of_list_ascii l) = length l.
Proof. induction l; cbn; congruence. Qed.

Lemma xor_ascii_cancel (a b : ascii) : xor_ascii (xor_ascii a b) b = a.
Proof.
  destruct a, b; cbn.
  repeat match goal with
         | |- context [xorb (xorb ?x ?y) ?y] =>
             replace (xorb (xorb x y) y) with x by (destruct x, y; reflexivity)
         end.
  reflexivity.
Qed.

Lemma chain_decipher_cipher (prev : ascii) (text : string) :
  chain_decipher prev (chain_cipher prev text) = Some text.
Proof.
  revert prev; induction text as [|c text IH]; intros prev.
  - cbn -[xor_ascii]. rewrite !xor_ascii_cancel. reflexivity.
  - cbn -[xor_ascii]. rewrite IH, !xor_ascii_cancel.
    destruct text; reflexivity.
Qed.

Lemma xor_chain_inverts : cipher_inverts.
Proof. intros iv text _. apply chain_decipher_cipher. Qed.

Example basic_engine_runs :
  basic_match "^alice$" "Alice" = Some true
  /\ basic_match "^alice$" "alice2" = Some false
  /\ basic_match "^alice$" "malice" = Some false
  /\ basic_match "^a+bc$" "a+bc" = Some false
  /\ basic_match "^a+bc$" "AABC" = Some true
  /\ basic_match "^a\+bc$" "A+BC" = Some true
  /\ basic_match "^a.ice$" "alice" = Some true
  /\ basic_match "^a|b$" "xxb" = Some true
  /\ basic_match "^.*$" "anyone" = Some true
  /\ basic_match "^(alice$" "alice" = None
  /\ basic_match "^*$" "" = None
  /\ basic_match "^alice)$" "alice" = None.
Proof. repeat split; vm_compute; reflexivity. Qed.

Lemma returns_ret {A} (a : A) (w : World) (Q : A -> World -> Prop) :
  Q a w -> returns (ret a) w Q.
Proof. intros HQ; exists a, w; auto. Qed.

Lemma returns_bind {A B} (m : Async A) (k : A -> Async B) (w : World)
    (Q : B -> World -> Prop) :
  returns m w (fun a w' => returns (k a) w' Q) -> returns (bind m k) w Q.
Proof.
  intros (a & w' & Hm & b & w'' & Hk & HQ).
  exists b, w''. unfold bind. rewrite Hm. auto.
Qed.

Lemma returns_mono {A} (m : Async A) (w : World)
    (Q Q' : A -> World -> Prop) :
  returns m w Q -> (forall a w', Q a w' -> Q' a w') -> returns m w Q'.
Proof. intros (a & w' & Hm & HQ) HQQ'; exists a, w'; auto. Qed.

Lemma returns_outcome {A} (m : Async A) (w : World)
    (Q : A -> World -> Prop) :
  returns m w Q ->
  exists a, outcome m w = Returned a /\ Q a (world_after m w).
Proof.
  intros (a & w' & Hm & HQ). exists a.
  unfold outcome, world_after. rewrite Hm. auto.
Qed.

Lemma bind_returned {A B} (m : Async A) (k : A -> Async B) (w w' : World)
    (a : A) :
  m w = (Returned a, w') -> bind m k w = k a w'.
Proof. intros Hm; unfold bind; now rewrite Hm. Qed.

Lemma bind_thrown {A B} (m : Async A) (k : A -> Async B) (w w' : World)
    (e : Exception) :
  m w = (Thrown e, w') -> bind m k w = (Thrown e, w').
Proof. intros Hm; unfold bind; now rewrite Hm. Qed.

(** ** The cipher module *)

Lemma drawn_iv_length (w : World) : String.length (drawn_iv w) = IV_LENGTH.
Proof.
  unfold drawn_iv.
  now rewrite length_string_of_list_ascii, length_map, length_seq.
Qed.

Section CipherFacts.
Context `{NodeCrypto}.
Hypothesis cipher_law : cipher_inverts.

Lemma encrypt_run (text : string) (w : World) :
  encrypt text w
  = (Returned (drawn_iv w +:+ cipher (drawn_iv w) text),
     set_entropy_pos (entropy_pos w + IV_LENGTH) w).
Proof. reflexivity. Qed.

Lemma open_blob_encryption (blob text : string) :
  is_encryption_of blob text -> open_blob blob = Some text.
Proof.
  intros (iv & Hlen & ->). unfold open_blob.
  rewrite <- Hlen at 1. rewrite split_at_app.
  now apply cipher_law.
Qed.

Lemma encrypt_returns (text : string) (w : World) :
  returns (encrypt text) w
    (fun blob w' =>
       is_encryption_of blob text
       /\ w' = set_entropy_pos (entropy_pos w + IV_LENGTH) w).
Proof.
  eexists _, _; split; [apply encrypt_run|]. split; [|reflexivity].
  exists (drawn_iv w); split; [apply drawn_iv_length | reflexivity].
Qed.

Lemma decrypt_run (blob : string) (w : World) :
  decrypt blob w
  = (match open_blob blob with
     | Some text => Returned text
     | None => Thrown DecryptionError
     end, w).
Proof. unfold decrypt; destruct (open_blob blob); reflexivity. Qed.

(** C4.  For every plaintext P, decrypting the blob that [encrypt P]
    produced gives P back, whatever the random source delivered to
    [encrypt] and in whatever world [decrypt] runs; node's decipher is
    taken to invert its cipher. *)
Theorem decrypt_encrypt_roundtrip (P : string) (w w' : World) :
  exists blob,
    outcome (encrypt P) w = Returned blob
    /\ outcome (decrypt blob) w' = Returned P.
Proof.
  exists (drawn_iv w +:+ cipher (drawn_iv w) P). split.
  - unfold outcome. now rewrite encrypt_run.
  - unfold outcome. rewrite decrypt_run.
    rewrite (open_blob_encryption _ P); [reflexivity|].
    exists (drawn_iv w); split; [apply drawn_iv_length | reflexivity].
Qed.

(** C5.  Two calls of [encrypt] on the same plaintext P whose
    initialisation vectors are fresh, that is, differ from one another,
    produce different blobs; each blob starts with the vector its call
    drew. *)
Theorem encrypt_fresh_iv_distinct_blobs (P : string) (w1 w2 : World) :
  drawn_iv w1 <> drawn_iv w2 ->
  exists blob1 blob2 data1 data2,
    outcome (encrypt P) w1 = Returned blob1
    /\ outcome (encrypt P) w2 = Returned blob2
    /\ split_at IV_LENGTH blob1 = Some (drawn_iv w1, data1)
    /\ split_at IV_LENGTH blob2 = Some (drawn_iv w2, data2)
    /\ blob1 <> blob2.
Proof.
  intros Hfresh.
  assert (Hsplit : forall w,
             split_at IV_LENGTH (drawn_iv w +:+ cipher (drawn_iv w) P)
             = Some (drawn_iv w, cipher (drawn_iv w) P)).
  { intros w. rewrite <- (drawn_iv_length w) at 1. apply split_at_app. }
  exists (drawn_iv w1 +:+ cipher (drawn_iv w1) P),
         (drawn_iv w2 +:+ cipher (drawn_iv w2) P),
         (cipher (drawn_iv w1) P), (cipher (drawn_iv w2) P).
  repeat split; try apply Hsplit.
  intros Heq. pose proof (Hsplit w1) as H1. rewrite Heq, Hsplit in H1.
  congruence.
Qed.

End CipherFacts.

(** ** The persistence gateway *)

Lemma getUsersCollection_run (w : World) :
  connects w = true ->
  getUsersCollection w = (Returned tt, set_client_db true w).
Proof.
  unfold connects, getUsersCollection, bind, connectToDatabase.
  destruct w as [uri up cached us e n]; cbn.
  destruct uri as [uri|]; [|discriminate].
  destruct (truthy uri); [|discriminate].
  destruct cached, up; cbn; try discriminate; reflexivity.
Qed.

Lemma getUsersCollection_fails (w : World) :
  connects w = false ->
  exists e, (e = ConfigError \/ e = MongoError)
            /\ getUsersCollection w = (Thrown e, w).
Proof.
  unfold connects, getUsersCollection, bind, connectToDatabase.
  destruct w as [uri up cached us e n]; cbn.
  destruct uri as [uri|]; [|eauto].
  destruct (truthy uri); cbn; [|eauto].
  destruct cached, up; cbn; try discriminate; eauto.
Qed.


Lemma same_store_refl (w : World) : same_store w w.
Proof. split; reflexivity. Qed.

Lemma same_store_trans (w1 w2 w3 : World) :
  same_store w1 w2 -> same_store w2 w3 -> same_store w1 w3.
Proof. intros [U1 C1] [U2 C2]. split; congruence. Qed.

Ltac same_store :=
  solve [ apply same_store_refl
        | assumption
        | eapply same_store_trans; [eassumption | same_store] ].

Lemma connects_cached (w : World) :
  connects w = true -> connects (set_client_db true w) = true.
Proof.
  unfold connects. cbn. destruct (MONGODB_URI w) as [uri|]; [|discriminate].
  now destruct (truthy uri).
Qed.



Lemma findOne_run (filter : User.t -> bool) (w : World) :
  findOne filter w = (Returned (find filter (users w)), w).
Proof. reflexivity. Qed.

Lemma find_update_first (filter : User.t -> bool) (f : User.t -> User.t)
    (us : list User.t) :
  (forall u, filter (f u) = filter u) ->
  find filter (update_first filter f us) = option_map f (find filter us).
Proof.
  intros Hf; induction us as [|u us IH]; cbn; [reflexivity|].
  destruct (filter u) eqn:E; cbn.
  - now rewrite Hf, E.
  - now rewrite E.
Qed.

Lemma has_id_true (bankId : string) (b : Bank.t) :
  has_id bankId b = true <-> Bank.id b = bankId.
Proof. apply String.eqb_eq. Qed.

Lemma has_id_false (bankId : string) (b : Bank.t) :
  has_id bankId b = false <-> Bank.id b <> bankId.
Proof. apply String.eqb_neq. Qed.

Lemma filter_sublist {A} (p : A -> bool) (l : list A) :
  sublist (List.filter p l) l.
Proof.
  induction l as [|x l IH]; cbn; [constructor|].
  destruct (p x); now constructor.
Qed.

(** ** deleteBank *)

Section DeleteBank.
Context `{RegExpEngine} `{NodeCrypto}.

Lemma deleteBank_run (userId bankId : string) (w : World) (user : User.t) :
  connects w = true ->
  find (by_id userId) (users w) = Some user ->
  deleteBank userId bankId w
  = let kept := List.filter (fun b => negb (has_id bankId b)) (User.banks user) in
    if (length kept =? length (User.banks user))%nat
    then (Returned (Error "Bank not found."), set_client_db true w)
    else (Returned (Success "Bank deleted successfully." tt),
          set_users (update_first (by_id userId) (set_banks kept) (users w))
                    (set_client_db true w)).
Proof.
  intros Hc Hu. unfold deleteBank.
  rewrite (bind_returned _ _ _ _ _ (getUsersCollection_run w Hc)).
  rewrite (bind_returned _ _ _ _ _ (findOne_run _ _)).
  cbn [users set_client_db]. rewrite Hu. cbv zeta.
  destruct (_ =? _)%nat; reflexivity.
Qed.

(** C6.  For an existing user: when [bankId] is the id of none of the
    user's banks (the filtered list is then as long as the original),
    deleteBank returns the error 'Bank not found.' and writes nothing;
    when it is the id of some bank, deleteBank succeeds and the user's
    list becomes the banks with another id, in their order, all other
    documents untouched. *)
Theorem deleteBank_removes_by_id (userId bankId : string) (w : World)
    (user : User.t) :
  connects w = true ->
  find (by_id userId) (users w) = Some user ->
  (Forall (fun b => Bank.id b <> bankId) (User.banks user) ->
     length (List.filter (fun b => negb (has_id bankId b)) (User.banks user))
     = length (User.banks user)
     /\ outcome (deleteBank userId bankId) w
        = Returned (Error "Bank not found.")
     /\ users (world_after (deleteBank userId bankId) w) = users w)
  /\ (Exists (fun b => Bank.id b = bankId) (User.banks user) ->
      exists kept,
        outcome (deleteBank userId bankId) w
        = Returned (Success "Bank deleted successfully." tt)
        /\ users (world_after (deleteBank userId bankId) w)
           = update_first (by_id userId) (set_banks kept) (users w)
        /\ find (by_id userId) (users (world_after (deleteBank userId bankId) w))
           = Some (User.set_banks kept user)
        /\ kept
           = List.filter (fun b => negb (has_id bankId b)) (User.banks user)
        /\ (forall b,
               In b kept <-> In b (User.banks user) /\ Bank.id b <> bankId)
        /\ sublist kept (User.banks user)
        /\ (length kept < length (User.banks user))%nat).
Proof.
  intros Hc Hu.
  pose proof (deleteBank_run userId bankId w user Hc Hu) as Hrun.
  cbv zeta in Hrun.
  set (kept := List.filter (fun b => negb (has_id bankId b)) (User.banks user))
    in *.
  split.
  - intros Hnone.
    assert (Hkept : kept = User.banks user).
    { apply forallb_filter_id, forallb_forall. intros b Hb.
      rewrite Forall_forall in Hnone.
      apply negb_true_iff, has_id_false, Hnone. now apply list_elem_of_In. }
    unfold outcome, world_after. rewrite Hrun, Hkept, Nat.eqb_refl.
    repeat split; reflexivity.
  - intros Hsome. exists kept.
    assert (Hlt : (length kept < length (User.banks user))%nat).
    { pose proof (filter_length_le (fun b => negb (has_id bankId b))
                    (User.banks user)) as Hle.
      destruct (Nat.eq_dec (length kept) (length (User.banks user))) as [E|E];
        [|fold kept in Hle; lia].
      apply filter_length_forallb in E. rewrite forallb_forall in E.
      apply Exists_exists in Hsome as (b & Hb & Hid).
      apply list_elem_of_In in Hb.
      specialize (E b Hb). apply negb_true_iff, has_id_false in E.
      contradiction. }
    assert (Hne : (length kept =? length (User.banks user))%nat = false)
      by (apply Nat.eqb_neq; lia).
    unfold outcome, world_after. rewrite Hrun, Hne. cbn [fst snd users set_users].
    split; [reflexivity|]. split; [reflexivity|].
    split; [rewrite find_update_first by reflexivity; now rewrite Hu|].
    split; [reflexivity|].
    split; [|split; [apply filter_sublist | assumption]].
    intros b. unfold kept. rewrite filter_In, negb_true_iff, has_id_false.
    reflexivity.
Qed.

End DeleteBank.

(** ** getBanksForUser *)

Section GetBanks.
Context `{RegExpEngine} `{NodeCrypto}.

Lemma list_item_run (b : Bank.t) (w : World) :
  list_item b w
  = (match open_blob (Bank.bankName b), open_blob (Bank.accountNumber b) with
     | Some bankName, Some accountNumber =>
         Returned (BankListItem.mk (Bank.id b) bankName accountNumber)
     | _, _ => Thrown DecryptionError
     end, w).
Proof.
  unfold list_item, bind. rewrite decrypt_run.
  destruct (open_blob (Bank.bankName b)); [|reflexivity].
  rewrite decrypt_run.
  destruct (open_blob (Bank.accountNumber b)); reflexivity.
Qed.

Lemma mapM_list_item (bs : list Bank.t) (w : World) :
  exists c,
    mapM list_item bs w = (c, w)
    /\ forall items, c = Returned items <-> Forall2 listed bs items.
Proof.
  induction bs as [|b bs (c & Hrun & Hc)].
  - exists (Returned []). split; [reflexivity|]. intros items. split.
    + intros [= <-]. constructor.
    + intros HF. inversion HF. reflexivity.
  - cbn [mapM]. unfold bind at 1. rewrite list_item_run.
    destruct (open_blob (Bank.bankName b)) as [n|] eqn:En.
    2:{ exists (Thrown DecryptionError). split; [reflexivity|].
        intros items; split; [discriminate|].
        intros HF. inversion HF as [|? it ? ? (_ & Hn & _)]; subst.
        congruence. }
    destruct (open_blob (Bank.accountNumber b)) as [a|] eqn:Ea.
    2:{ exists (Thrown DecryptionError). split; [reflexivity|].
        intros items; split; [discriminate|].
        intros HF. inversion HF as [|? it ? ? (_ & _ & Ha)]; subst.
        congruence. }
    unfold bind. rewrite Hrun. destruct c as [items'|e].
    + exists (Returned (BankListItem.mk (Bank.id b) n a :: items')).
      split; [reflexivity|]. intros items; split.
      * intros [= <-]. constructor; [repeat split; assumption|].
        now apply Hc.
      * intros HF. inversion HF as [|? it ? its (Hid & Hn & Ha) HF']; subst.
        apply Hc in HF'. injection HF' as <-.
        destruct it as [i n' a']; cbn in *. congruence.
    + exists (Thrown e). split; [reflexivity|].
      intros items; split; [discriminate|].
      intros HF. inversion HF as [|? it ? its _ HF']; subst.
      apply Hc in HF'. discriminate.
Qed.

Lemma getBanksForUser_run (userId : string) (w : World) :
  connects w = true ->
  getBanksForUser userId w
  = match find (by_id userId) (users w) with
    | None => ret []
    | Some user => mapM list_item (User.banks user)
    end (set_client_db true w).
Proof.
  intros Hc. unfold getBanksForUser.
  rewrite (bind_returned _ _ _ _ _ (getUsersCollection_run w Hc)).
  now rewrite (bind_returned _ _ _ _ _ (findOne_run _ _)).
Qed.

Lemma getBanksForUser_listed (userId : string) (w : World) (user : User.t)
    (items : list BankListItem.t) :
  connects w = true ->
  find (by_id userId) (users w) = Some user ->
  outcome (getBanksForUser userId) w = Returned items
  <-> Forall2 listed (User.banks user) items.
Proof.
  intros Hc Hu. unfold outcome. rewrite (getBanksForUser_run _ _ Hc), Hu.
  destruct (mapM_list_item (User.banks user) (set_client_db true w))
    as (c & -> & Hc').
  apply Hc'.
Qed.

(** C9.  With no user of that id, getBanksForUser returns the empty list
    (no error); for an existing user it returns a list exactly when that
    list holds, bank by bank and in order, the id with the decrypted
    bankName and accountNumber. *)
Theorem getBanksForUser_lists_or_empty (userId : string) (w : World) :
  connects w = true ->
  (find (by_id userId) (users w) = None ->
   outcome (getBanksForUser userId) w = Returned [])
  /\ (forall user items,
        find (by_id userId) (users w) = Some user ->
        outcome (getBanksForUser userId) w = Returned items
        <-> Forall2 listed (User.banks user) items).
Proof.
  intros Hc. split.
  - intros Hnone. unfold outcome.
    now rewrite (getBanksForUser_run _ _ Hc), Hnone.
  - intros user items Hu. now apply getBanksForUser_listed.
Qed.

End GetBanks.

(** ** The comparison against the stored master password *)

Section MasterPassword.
Context `{RegExpEngine} `{NodeCrypto}.

Lemma open_blob_empty : open_blob "" = None.
Proof. reflexivity. Qed.

Lemma password_matches_truthy (stored supplied : string) :
  truthy supplied = true ->
  truthy stored && password_matches stored supplied
  = password_matches stored supplied.
Proof.
  intros Hs. destruct stored as [|c stored]; [|reflexivity].
  unfold password_matches. rewrite open_blob_empty.
  unfold truthy in Hs. rewrite String.eqb_sym.
  now apply negb_true_iff in Hs as ->.
Qed.

Lemma verify_attempt_run (user : User.t) (password : string) (w : World) :
  verify_attempt user password w
  = (Returned
       (if password_matches (User.masterPassword user) password
        then Some (Success "Login successful." (userToReturn user))
        else None), w).
Proof.
  unfold verify_attempt, try_catch, bind, password_matches.
  rewrite decrypt_run.
  destruct (open_blob (User.masterPassword user)) as [d|].
  - destruct (String.eqb d password); reflexivity.
  - destruct (String.eqb (User.masterPassword user) password); reflexivity.
Qed.

Lemma current_password_valid_run (user : User.t) (currentPassword : string)
    (w : World) :
  current_password_valid user currentPassword w
  = (Returned (truthy (User.masterPassword user)
               && password_matches (User.masterPassword user) currentPassword),
     w).
Proof.
  unfold current_password_valid, try_catch, password_matches.
  destruct (truthy (User.masterPassword user)); [|reflexivity].
  unfold bind. rewrite decrypt_run.
  destruct (open_blob (User.masterPassword user)); reflexivity.
Qed.

(** What verifyMasterPassword does once its arguments are non-empty. *)
Lemma verifyMasterPassword_run (username password : string) (w : World) :
  truthy username = true ->
  truthy password = true ->
  connects w = true ->
  verifyMasterPassword username password w
  = match new_RegExp ("^" +:+ username +:+ "$") "i" with
    | None => (Thrown SyntaxError, set_client_db true w)
    | Some re =>
        (Returned
           match find (by_username re) (users w) with
           | Some user =>
               if password_matches (User.masterPassword user) password
               then Success "Login successful." (userToReturn user)
               else Error "Invalid username or password."
           | None => Error "Invalid username or password."
           end, set_client_db true w)
    end.
Proof.
  intros Hu Hp Hc. unfold verifyMasterPassword.
  rewrite Hu, Hp. cbn [negb orb].
  rewrite (bind_returned _ _ _ _ _ (getUsersCollection_run w Hc)).
  unfold username_RegExp.
  destruct (new_RegExp _ _) as [re|]; [|reflexivity].
  unfold bind at 1. unfold ret at 1.
  rewrite (bind_returned _ _ _ _ _ (findOne_run _ _)).
  cbn [users set_client_db].
  destruct (find (by_username re) (users w)) as [user|]; [|reflexivity].
  unfold bind.
  destruct (truthy (User.masterPassword user)) eqn:Et.
  - rewrite verify_attempt_run.
    destruct (password_matches _ _); reflexivity.
  - rewrite <- (password_matches_truthy _ _ Hp), Et. reflexivity.
Qed.

Lemma changeMasterPassword_run (userId : string)
    (values data : ChangePasswordFormValues.t) (w : World) (user : User.t) :
  changePasswordSchema values = inl data ->
  connects w = true ->
  find (by_id userId) (users w) = Some user ->
  changeMasterPassword userId values w
  = if password_matches (User.masterPassword user)
         (ChangePasswordFormValues.currentPassword data)
    then
      let w1 := set_client_db true w in
      (Returned (Success "Master password updated successfully." tt),
       set_users
         (update_first (by_id userId)
            (set_masterPassword
               (drawn_iv w1
                +:+ cipher (drawn_iv w1)
                      (ChangePasswordFormValues.newPassword data)))
            (users w))
         (set_entropy_pos (entropy_pos w1 + IV_LENGTH) w1))
    else (Returned (Error "Incorrect current password."), set_client_db true w).
Proof.
  intros Hv Hc Hu. unfold changeMasterPassword. rewrite Hv. cbv zeta.
  rewrite (bind_returned _ _ _ _ _ (getUsersCollection_run w Hc)).
  rewrite (bind_returned _ _ _ _ _ (findOne_run _ _)).
  cbn [users set_client_db]. rewrite Hu.
  rewrite (bind_returned _ _ _ _ _ (current_password_valid_run _ _ _)).
  assert (Hcur : truthy (ChangePasswordFormValues.currentPassword data) = true).
  { unfold changePasswordSchema in Hv.
    destruct (negb (1 <=? _)%nat) eqn:E1; [discriminate|].
    destruct (negb (8 <=? _)%nat); [discriminate|].
    destruct (negb (String.eqb _ _)); [discriminate|].
    injection Hv as <-. apply negb_false_iff, Nat.leb_le in E1.
    unfold truthy.
    destruct (ChangePasswordFormValues.currentPassword values);
      [cbn in E1; lia | reflexivity]. }
  rewrite (password_matches_truthy _ _ Hcur).
  destruct (password_matches _ _); [|reflexivity].
  cbn [negb].
  rewrite (bind_returned _ _ _ _ _ (encrypt_run _ _)).
  reflexivity.
Qed.


End MasterPassword.

(** ** What a failed login tells *)

Section LoginFailure.
Context `{RegExpEngine} `{NodeCrypto}.

Lemma verifyMasterPassword_outcome (username password : string) (w : World) :
  outcome (verifyMasterPassword username password) w
  = if negb (truthy username) || negb (truthy password)
    then Returned (Error "Username and password are required.")
    else
      match fst (getUsersCollection w) with
      | Thrown e => Thrown e
      | Returned _ =>
          match new_RegExp ("^" +:+ username +:+ "$") "i" with
          | None => Thrown SyntaxError
          | Some re =>
              Returned
                match find (by_username re) (users w) with
                | Some user =>
                    if password_matches (User.masterPassword user) password
                    then Success "Login successful." (userToReturn user)
                    else Error "Invalid username or password."
                | None => Error "Invalid username or password."
                end
          end
      end.
Proof.
  destruct (truthy username) eqn:Hu; cbn [negb orb].
  2:{ unfold outcome, verifyMasterPassword. now rewrite Hu. }
  destruct (truthy password) eqn:Hp; cbn [negb orb].
  2:{ unfold outcome, verifyMasterPassword. now rewrite Hu, Hp. }
  destruct (connects w) eqn:Hc.
  - unfold outcome.
    rewrite (verifyMasterPassword_run _ _ _ Hu Hp Hc).
    rewrite (getUsersCollection_run w Hc). cbn [fst].
    destruct (new_RegExp _ _); reflexivity.
  - destruct (getUsersCollection_fails w Hc) as (e & _ & He).
    unfold outcome, verifyMasterPassword. rewrite Hu, Hp. cbn [negb orb].
    rewrite (bind_thrown _ _ _ _ _ He), He. reflexivity.
Qed.


End LoginFailure.

(** ** updateBank *)

Lemma findIndex_Some {A} (p : A -> bool) (l : list A) (i : nat) (x : A) :
  findIndex p l = Some (i, x) ->
  l !! i = Some x /\ p x = true
  /\ forall j y, (j < i)%nat -> l !! j = Some y -> p y = false.
Proof.
  revert i; induction l as [|a l IH]; intros i; cbn; [discriminate|].
  destruct (p a) eqn:Ea.
  - intros [= <- <-]. repeat split; [assumption|]. intros j y Hj; lia.
  - destruct (findIndex p l) as [[i' y']|]; [|discriminate].
    intros [= <- <-]. destruct (IH i' eq_refl) as (Hl & Hp & Hfirst).
    repeat split; try assumption.
    intros [|j] y Hj; cbn; [now intros [= <-]|].
    apply Hfirst; lia.
Qed.

(** The guard of updateBank says: non-empty after trimming. *)
Lemma provided_Some (s : string) :
  provided (Some s) = negb (String.eqb (trim s) "").
Proof.
  unfold provided, truthy. destruct s as [|c s]; reflexivity.
Qed.

Lemma findIndex_find {A} (p : A -> bool) (l : list A) (i : nat) (x : A) :
  findIndex p l = Some (i, x) -> find p l = Some x.
Proof.
  revert i; induction l as [|a l IH]; intros i; cbn; [discriminate|].
  destruct (p a); [now intros [= _ <-]|].
  destruct (findIndex p l) as [[i' y]|]; [|discriminate].
  intros [= _ <-]. now apply (IH i').
Qed.

(** Writing at the index found a record the test accepts leaves the
    index the one the test finds. *)
Lemma findIndex_insert {A} (p : A -> bool) (l : list A) (i : nat) (x y : A) :
  findIndex p l = Some (i, x) -> p y = true ->
  findIndex p (<[i := y]> l) = Some (i, y).
Proof.
  intros Hi Hy. destruct (findIndex_Some _ _ _ _ Hi) as (Hl & _ & Hfirst).
  clear Hi. revert i Hl Hfirst.
  induction l as [|b bs IH]; intros i Hl Hfirst; [discriminate|].
  destruct i as [|i].
  - cbn. now rewrite Hy.
  - change (<[S i := y]> (b :: bs)) with (b :: <[i := y]> bs).
    cbn [findIndex].
    rewrite (Hfirst 0%nat b (Nat.lt_0_succ i) eq_refl).
    rewrite (IH i); [reflexivity | assumption |].
    intros j z Hj Hz. apply (Hfirst (S j) z); [lia | assumption].
Qed.

Section UpdateBank.
Context `{RegExpEngine} `{NodeCrypto}.

Lemma encrypt_keeps_users (text : string) (w : World) :
  returns (encrypt text) w
    (fun blob w' => is_encryption_of blob text /\ same_store w w').
Proof.
  eapply returns_mono; [apply encrypt_returns|].
  intros blob w' [Hb ->]. split; [assumption | split; reflexivity].
Qed.

Lemma encrypt_field_returns (field : CustomField.t) (w : World) :
  returns (encrypt_field field) w
    (fun field' w' => field_encrypts field field' /\ same_store w w').
Proof.
  unfold encrypt_field.
  apply returns_bind. eapply returns_mono; [apply encrypt_keeps_users|].
  intros label w1 [Hl Hu1].
  apply returns_bind. eapply returns_mono; [apply encrypt_keeps_users|].
  intros value w2 [Hv Hu2].
  apply returns_ret. split; [split; assumption | same_store].
Qed.

Lemma mapM_encrypt_field_returns (fields : list CustomField.t) (w : World) :
  returns (mapM encrypt_field fields) w
    (fun fields' w' => Forall2 field_encrypts fields fields'
                       /\ same_store w w').
Proof.
  revert w; induction fields as [|f fields IH]; intros w; cbn [mapM].
  - apply returns_ret. split; [constructor | same_store].
  - apply returns_bind. eapply returns_mono; [apply encrypt_field_returns|].
    intros f' w1 [Hf Hu1].
    apply returns_bind. eapply returns_mono; [apply IH|].
    intros fields' w2 [Hfs Hu2].
    apply returns_ret. split; [now constructor | same_store].
Qed.

Lemma assign_if_provided_returns (incoming : option string)
    (set : option string -> Bank.t -> Bank.t) (b : Bank.t) (w : World) :
  returns (assign_if_provided incoming set b) w
    (fun b' w' =>
       ((exists s c, incoming = Some s /\ trim s <> ""
                     /\ is_encryption_of c s /\ b' = set (Some c) b)
        \/ (~ nonempty_after_trim incoming /\ b' = b))
       /\ same_store w w').
Proof.
  unfold assign_if_provided. destruct incoming as [s|].
  - rewrite provided_Some.
    destruct (String.eqb (trim s) "") eqn:E; cbn [negb].
    + apply returns_ret. split; [|same_store]. right. split; [|reflexivity].
      intros (s' & [= <-] & Hne). now apply String.eqb_eq in E.
    + apply returns_bind. eapply returns_mono; [apply encrypt_keeps_users|].
      intros c w1 [Hc Hu1]. apply returns_ret. split; [|assumption].
      left. exists s, c. apply String.eqb_neq in E. auto.
  - apply returns_ret. split; [|same_store]. right. split; [|reflexivity].
    intros (s' & [=] & _).
Qed.

Lemma optional_policy_replaced (s c : string) (old : option string) :
  trim s <> "" -> is_encryption_of c s ->
  optional_policy (Some s) old (Some c).
Proof.
  intros Hne Hc. split.
  - intros s' [= <-] _. eauto.
  - intros Hno. exfalso. apply Hno. exists s. auto.
Qed.

Lemma optional_policy_kept (incoming old : option string) :
  ~ nonempty_after_trim incoming -> optional_policy incoming old old.
Proof.
  intros Hno. split; [|reflexivity].
  intros s -> Hne. exfalso. apply Hno. exists s. auto.
Qed.

(** A valid update of an existing record succeeds, and writes the user's
    list with the record replaced at its index. *)
Lemma updateBank_returns (userId bankId : string) (values : BankFormValues.t)
    (w : World) (user : User.t) (i : nat) (existing : Bank.t) :
  bankForm_ok values = true ->
  connects w = true ->
  find (by_id userId) (users w) = Some user ->
  findIndex (has_id bankId) (User.banks user) = Some (i, existing) ->
  returns (updateBank userId bankId values) w
    (fun result w' =>
       result = Success "Bank updated successfully." tt
       /\ exists updated,
            updated_from values existing updated
            /\ users w'
               = update_first (by_id userId)
                   (set_banks (<[i := updated]> (User.banks user)))
                   (users w)
            /\ connects w' = true).
Proof.
  intros Hok Hc Hu Hi. unfold updateBank, bankFormSchema. rewrite Hok.
  apply returns_bind. exists tt, (set_client_db true w).
  split; [now apply getUsersCollection_run|].
  apply returns_bind. eexists _, _. split; [apply findOne_run|].
  cbn [users set_client_db]. rewrite Hu, Hi.
  apply returns_bind. eapply returns_mono; [apply encrypt_keeps_users|].
  intros bankName w1 [H1 Hu1].
  apply returns_bind. eapply returns_mono; [apply encrypt_keeps_users|].
  intros phoneForOtp w2 [H2 Hu2].
  apply returns_bind. eapply returns_mono; [apply encrypt_keeps_users|].
  intros accountNumber w3 [H3 Hu3].
  apply returns_bind. eapply returns_mono; [apply encrypt_keeps_users|].
  intros netBankingUsername w4 [H4 Hu4].
  apply returns_bind. eapply returns_mono; [apply encrypt_keeps_users|].
  intros mobileBankingUsername w5 [H5 Hu5].
  cbv zeta.
  apply returns_bind. eapply returns_mono; [apply assign_if_provided_returns|].
  intros b6 w6 [H6 Hu6].
  apply returns_bind. eapply returns_mono; [apply assign_if_provided_returns|].
  intros b7 w7 [H7 Hu7].
  apply returns_bind. eapply returns_mono; [apply assign_if_provided_returns|].
  intros b8 w8 [H8 Hu8].
  assert (Hcf : returns
            match BankFormValues.customFields values with
            | Some fields =>
                let! fields' := mapM encrypt_field fields in
                ret (Bank.set_customFields (Some fields') b8)
            | None => ret b8
            end w8
            (fun b9 w9 =>
               same_store w8 w9
               /\ match BankFormValues.customFields values with
                  | Some fields =>
                      exists fields',
                        b9 = Bank.set_customFields (Some fields') b8
                        /\ Forall2 field_encrypts fields fields'
                  | None => b9 = b8
                  end)).
  { destruct (BankFormValues.customFields values) as [fields|].
    - apply returns_bind.
      eapply returns_mono; [apply mapM_encrypt_field_returns|].
      intros fields' w9 [Hf Hu9]. apply returns_ret. eauto.
    - apply returns_ret. split; [same_store | reflexivity]. }
  apply returns_bind. eapply returns_mono; [apply Hcf|].
  intros b9 w9 [Hu9 H9].
  apply returns_bind. eexists tt, _. split; [reflexivity|].
  apply returns_bind. eexists tt, _. split; [reflexivity|].
  apply returns_ret. split; [reflexivity|].
  exists b9. split.
  2:{ assert (Hs : same_store (set_client_db true w) w9) by same_store.
      destruct Hs as [Hs1 Hs2]. cbn [users set_users]. rewrite Hs1.
      split; [reflexivity|].
      etransitivity; [exact Hs2 | now apply connects_cached]. }
  assert (E6 : Bank.id b6 = Bank.id existing
               /\ Bank.bankName b6 = bankName
               /\ Bank.phoneForOtp b6 = phoneForOtp
               /\ Bank.accountNumber b6 = accountNumber
               /\ Bank.netBankingUsername b6 = netBankingUsername
               /\ Bank.mobileBankingUsername b6 = mobileBankingUsername
               /\ Bank.mobileBankingPassword b6
                  = Bank.mobileBankingPassword existing
               /\ Bank.atmPin b6 = Bank.atmPin existing
               /\ Bank.customFields b6 = Bank.customFields existing
               /\ optional_policy (BankFormValues.netBankingPassword values)
                    (Bank.netBankingPassword existing)
                    (Bank.netBankingPassword b6)).
  { destruct H6 as [(s & c & Hs & Hne & Hc6 & ->)|[Hno ->]];
      do 9 (split; [reflexivity|]).
    - rewrite Hs. now apply optional_policy_replaced.
    - now apply optional_policy_kept. }
  destruct E6 as (I6 & N6 & P6 & A6 & U6 & M6 & MP6 & AP6 & CF6 & O6).
  assert (E7 : Bank.id b7 = Bank.id b6
               /\ Bank.bankName b7 = Bank.bankName b6
               /\ Bank.phoneForOtp b7 = Bank.phoneForOtp b6
               /\ Bank.accountNumber b7 = Bank.accountNumber b6
               /\ Bank.netBankingUsername b7 = Bank.netBankingUsername b6
               /\ Bank.mobileBankingUsername b7 = Bank.mobileBankingUsername b6
               /\ Bank.netBankingPassword b7 = Bank.netBankingPassword b6
               /\ Bank.atmPin b7 = Bank.atmPin b6
               /\ Bank.customFields b7 = Bank.customFields b6
               /\ optional_policy (BankFormValues.mobileBankingPassword values)
                    (Bank.mobileBankingPassword b6)
                    (Bank.mobileBankingPassword b7)).
  { destruct H7 as [(s & c & Hs & Hne & Hc7 & ->)|[Hno ->]];
      do 9 (split; [reflexivity|]).
    - rewrite Hs. now apply optional_policy_replaced.
    - now apply optional_policy_kept. }
  destruct E7 as (I7 & N7 & P7 & A7 & U7 & M7 & NP7 & AP7 & CF7 & O7).
  assert (E8 : Bank.id b8 = Bank.id b7
               /\ Bank.bankName b8 = Bank.bankName b7
               /\ Bank.phoneForOtp b8 = Bank.phoneForOtp b7
               /\ Bank.accountNumber b8 = Bank.accountNumber b7
               /\ Bank.netBankingUsername b8 = Bank.netBankingUsername b7
               /\ Bank.mobileBankingUsername b8 = Bank.mobileBankingUsername b7
               /\ Bank.netBankingPassword b8 = Bank.netBankingPassword b7
               /\ Bank.mobileBankingPassword b8 = Bank.mobileBankingPassword b7
               /\ Bank.customFields b8 = Bank.customFields b7
               /\ optional_policy (BankFormValues.atmPin values)
                    (Bank.atmPin b7) (Bank.atmPin b8)).
  { destruct H8 as [(s & c & Hs & Hne & Hc8 & ->)|[Hno ->]];
      do 9 (split; [reflexivity|]).
    - rewrite Hs. now apply optional_policy_replaced.
    - now apply optional_policy_kept. }
  destruct E8 as (I8 & N8 & P8 & A8 & U8 & M8 & NP8 & MP8 & CF8 & O8).
  assert (E9 : Bank.id b9 = Bank.id b8
               /\ Bank.bankName b9 = Bank.bankName b8
               /\ Bank.phoneForOtp b9 = Bank.phoneForOtp b8
               /\ Bank.accountNumber b9 = Bank.accountNumber b8
               /\ Bank.netBankingUsername b9 = Bank.netBankingUsername b8
               /\ Bank.mobileBankingUsername b9 = Bank.mobileBankingUsername b8
               /\ Bank.netBankingPassword b9 = Bank.netBankingPassword b8
               /\ Bank.mobileBankingPassword b9 = Bank.mobileBankingPassword b8
               /\ Bank.atmPin b9 = Bank.atmPin b8).
  { destruct (BankFormValues.customFields values);
      [destruct H9 as (fields' & -> & _) | subst b9]; cbn;
      repeat split; reflexivity. }
  destruct E9 as (I9 & N9 & P9 & A9 & U9 & M9 & NP9 & MP9 & AP9).
  constructor.
  - congruence.
  - now rewrite N9, N8, N7, N6.
  - now rewrite P9, P8, P7, P6.
  - now rewrite A9, A8, A7, A6.
  - now rewrite U9, U8, U7, U6.
  - now rewrite M9, M8, M7, M6.
  - now rewrite NP9, NP8, NP7.
  - rewrite MP9, MP8. now rewrite <- MP6.
  - rewrite AP9. now rewrite <- AP6, <- AP7.
  - destruct (BankFormValues.customFields values).
    + destruct H9 as (fields' & -> & HF). exists fields'. auto.
    + subst b9. congruence.
Qed.

(** updateBank succeeds only on valid values, with the store reachable,
    for an existing user and an existing record. *)
Lemma updateBank_success_inv (userId bankId : string)
    (values : BankFormValues.t) (w : World) (success : string) (data : unit) :
  outcome (updateBank userId bankId values) w
  = Returned (Success success data) ->
  bankForm_ok values = true
  /\ connects w = true
  /\ exists user i existing,
       find (by_id userId) (users w) = Some user
       /\ findIndex (has_id bankId) (User.banks user) = Some (i, existing).
Proof.
  unfold updateBank, bankFormSchema.
  destruct (bankForm_ok values); [|discriminate].
  destruct (connects w) eqn:Hc.
  2:{ destruct (getUsersCollection_fails w Hc) as (e & _ & He).
      unfold outcome. rewrite (bind_thrown _ _ _ _ _ He). discriminate. }
  unfold outcome.
  rewrite (bind_returned _ _ _ _ _ (getUsersCollection_run w Hc)).
  rewrite (bind_returned _ _ _ _ _ (findOne_run _ _)).
  cbn [users set_client_db].
  destruct (find (by_id userId) (users w)) as [user|]; [|discriminate].
  destruct (findIndex (has_id bankId) (User.banks user))
    as [[i existing]|] eqn:Hi; [|discriminate].
  intros _. split; [reflexivity|]. split; [reflexivity|].
  exists user, i, existing. auto.
Qed.

Lemma updateBank_effect (userId bankId : string) (values : BankFormValues.t)
    (w : World) (user : User.t) (i : nat) (existing : Bank.t) :
  bankForm_ok values = true ->
  connects w = true ->
  find (by_id userId) (users w) = Some user ->
  findIndex (has_id bankId) (User.banks user) = Some (i, existing) ->
  exists updated,
    outcome (updateBank userId bankId values) w
    = Returned (Success "Bank updated successfully." tt)
    /\ find (by_id userId)
         (users (world_after (updateBank userId bankId values) w))
       = Some (User.set_banks (<[i := updated]> (User.banks user)) user)
    /\ updated_from values existing updated
    /\ connects (world_after (updateBank userId bankId values) w) = true.
Proof.
  intros Hok Hc Hu Hi.
  destruct (returns_outcome _ _ _
              (updateBank_returns _ _ _ _ _ _ _ Hok Hc Hu Hi))
    as (result & Hout & -> & updated & Hfrom & Husers & Hcon).
  exists updated. split; [assumption|].
  split; [|split; assumption].
  rewrite Husers, find_update_first by reflexivity. now rewrite Hu.
Qed.

(** C2.  Every successful updateBank is one on an existing record, and
    in the record it stores in its place bankName, phoneForOtp,
    accountNumber, netBankingUsername and mobileBankingUsername are
    encryptions of the incoming values, while each of netBankingPassword,
    mobileBankingPassword and atmPin is an encryption of the incoming
    value when that is non-empty after trimming, and is the previously
    stored ciphertext otherwise. *)
Theorem updateBank_field_policy (userId bankId : string)
    (values : BankFormValues.t) (w : World) (success : string) (data : unit) :
  outcome (updateBank userId bankId values) w
  = Returned (Success success data) ->
  exists user i existing user' updated,
    find (by_id userId) (users w) = Some user
    /\ findIndex (has_id bankId) (User.banks user) = Some (i, existing)
    /\ find (by_id userId)
         (users (world_after (updateBank userId bankId values) w))
       = Some user'
    /\ User.banks user' !! i = Some updated
    /\ is_encryption_of (Bank.bankName updated)
         (BankFormValues.bankName values)
    /\ is_encryption_of (Bank.phoneForOtp updated)
         (BankFormValues.phoneForOtp values)
    /\ is_encryption_of (Bank.accountNumber updated)
         (BankFormValues.accountNumber values)
    /\ is_encryption_of (Bank.netBankingUsername updated)
         (BankFormValues.netBankingUsername values)
    /\ is_encryption_of (Bank.mobileBankingUsername updated)
         (BankFormValues.mobileBankingUsername values)
    /\ optional_policy (BankFormValues.netBankingPassword values)
         (Bank.netBankingPassword existing) (Bank.netBankingPassword updated)
    /\ optional_policy (BankFormValues.mobileBankingPassword values)
         (Bank.mobileBankingPassword existing)
         (Bank.mobileBankingPassword updated)
    /\ optional_policy (BankFormValues.atmPin values)
         (Bank.atmPin existing) (Bank.atmPin updated).
Proof.
  intros Hsuccess.
  destruct (updateBank_success_inv _ _ _ _ _ _ Hsuccess)
    as (Hok & Hc & user & i & existing & Hu & Hi).
  destruct (updateBank_effect _ _ _ _ _ _ _ Hok Hc Hu Hi)
    as (updated & _ & Hfind & Hfrom & _).
  destruct (findIndex_Some _ _ _ _ Hi) as (Hl & _ & _).
  exists user, i, existing,
    (User.set_banks (<[i := updated]> (User.banks user)) user), updated.
  split; [assumption|]. split; [assumption|]. split; [assumption|].
  split.
  { cbn. apply list_lookup_insert_eq. now apply lookup_lt_Some in Hl. }
  destruct Hfrom. repeat (split; [assumption|]). assumption.
Qed.

(** C10.  Every successful updateBank keeps the shape of the user's bank
    list: the list is as long as before, the record written stands at the
    index of the one it replaces and has its id, every other record is
    unchanged, and when the input has no customFields the stored
    customFields stay. *)
Theorem updateBank_preserves_structure (userId bankId : string)
    (values : BankFormValues.t) (w : World) (success : string) (data : unit) :
  outcome (updateBank userId bankId values) w
  = Returned (Success success data) ->
  exists user i existing user' updated,
    find (by_id userId) (users w) = Some user
    /\ find (by_id userId)
         (users (world_after (updateBank userId bankId values) w))
       = Some user'
    /\ length (User.banks user') = length (User.banks user)
    /\ User.banks user !! i = Some existing
    /\ User.banks user' !! i = Some updated
    /\ Bank.id existing = bankId
    /\ Bank.id updated = Bank.id existing
    /\ findIndex (has_id bankId) (User.banks user) = Some (i, existing)
    /\ findIndex (has_id bankId) (User.banks user') = Some (i, updated)
    /\ (forall j, j <> i -> User.banks user' !! j = User.banks user !! j)
    /\ (BankFormValues.customFields values = None ->
        Bank.customFields updated = Bank.customFields existing).
Proof.
  intros Hsuccess.
  destruct (updateBank_success_inv _ _ _ _ _ _ Hsuccess)
    as (Hok & Hc & user & i & existing & Hu & Hi).
  destruct (updateBank_effect _ _ _ _ _ _ _ Hok Hc Hu Hi)
    as (updated & _ & Hfind & Hfrom & _).
  destruct (findIndex_Some _ _ _ _ Hi) as (Hl & Hid & Hfirst).
  apply has_id_true in Hid.
  exists user, i, existing,
    (User.set_banks (<[i := updated]> (User.banks user)) user), updated.
  cbn [User.banks User.set_banks].
  split; [assumption|]. split; [assumption|].
  split; [apply length_insert|]. split; [assumption|].
  split; [apply list_lookup_insert_eq; now apply lookup_lt_Some in Hl|].
  split; [assumption|]. split; [apply Hfrom|]. split; [assumption|].
  split.
  - apply (findIndex_insert _ _ _ existing); [assumption|].
    apply has_id_true. rewrite (upd_id _ _ _ Hfrom). assumption.
  - split; [intros j Hj; now apply list_lookup_insert_ne|].
    intros Hnone. pose proof (upd_customFields _ _ _ Hfrom) as Hcf.
    now rewrite Hnone in Hcf.
Qed.

End UpdateBank.

(** ** Which operations return *)







Section Totality.
Context `{RegExpEngine} `{NodeCrypto}.






















End Totality.

(** ** addBank *)

Section AddBank.
Context `{RegExpEngine} `{NodeCrypto}.

Lemma randomUUID_returns (w : World) :
  returns randomUUID w (fun _ w' => same_store w w').
Proof.
  eexists _, _. split; [reflexivity|]. split; reflexivity.
Qed.

Lemma encrypt_if_truthy_returns (incoming : option string) (w : World) :
  returns (encrypt_if_truthy incoming) w
    (fun new w' => optional_added incoming new /\ same_store w w').
Proof.
  unfold encrypt_if_truthy, optional_added. destruct incoming as [s|].
  - destruct (truthy s).
    + apply returns_bind. eapply returns_mono; [apply encrypt_keeps_users|].
      intros c w1 [Hc Hs]. apply returns_ret. eauto.
    + apply returns_ret. split; [reflexivity | same_store].
  - apply returns_ret. split; [reflexivity | same_store].
Qed.

(** A valid addBank for an existing user succeeds, and pushes one record
    on the user's list. *)
Lemma addBank_returns (userId : string) (values : BankFormValues.t)
    (w : World) (user : User.t) :
  bankForm_ok values = true ->
  connects w = true ->
  find (by_id userId) (users w) = Some user ->
  returns (addBank userId values) w
    (fun result w' =>
       result = Success "Bank added successfully." tt
       /\ exists added,
            added_from values added
            /\ users w'
               = update_first (by_id userId) (push_bank added) (users w)
            /\ connects w' = true).
Proof.
  intros Hok Hc Hu. unfold addBank, bankFormSchema. rewrite Hok.
  apply returns_bind. exists tt, (set_client_db true w).
  split; [now apply getUsersCollection_run|].
  apply returns_bind. eexists _, _. split; [apply findOne_run|].
  cbn [users set_client_db]. rewrite Hu.
  apply returns_bind. eapply returns_mono; [apply randomUUID_returns|].
  intros id w0 Hs0. cbv beta in Hs0.
  apply returns_bind. eapply returns_mono; [apply encrypt_keeps_users|].
  intros bankName w1 [H1 Hs1].
  apply returns_bind. eapply returns_mono; [apply encrypt_keeps_users|].
  intros phoneForOtp w2 [H2 Hs2].
  apply returns_bind. eapply returns_mono; [apply encrypt_keeps_users|].
  intros accountNumber w3 [H3 Hs3].
  apply returns_bind. eapply returns_mono; [apply encrypt_keeps_users|].
  intros netBankingUsername w4 [H4 Hs4].
  apply returns_bind. eapply returns_mono; [apply encrypt_if_truthy_returns|].
  intros netBankingPassword w5 [H5 Hs5].
  apply returns_bind. eapply returns_mono; [apply encrypt_keeps_users|].
  intros mobileBankingUsername w6 [H6 Hs6].
  apply returns_bind. eapply returns_mono; [apply encrypt_if_truthy_returns|].
  intros mobileBankingPassword w7 [H7 Hs7].
  apply returns_bind. eapply returns_mono; [apply encrypt_if_truthy_returns|].
  intros atmPin w8 [H8 Hs8].
  assert (Hcf : returns
            (map_optional encrypt_field (BankFormValues.customFields values))
            w8
            (fun customFields w9 =>
               same_store w8 w9
               /\ match BankFormValues.customFields values with
                  | Some fields =>
                      exists fields',
                        customFields = Some fields'
                        /\ Forall2 field_encrypts fields fields'
                  | None => customFields = None
                  end)).
  { unfold map_optional.
    destruct (BankFormValues.customFields values) as [fields|].
    - apply returns_bind.
      eapply returns_mono; [apply mapM_encrypt_field_returns|].
      intros fields' w9 [Hf Hs9]. apply returns_ret. eauto.
    - apply returns_ret. split; [same_store | reflexivity]. }
  apply returns_bind. eapply returns_mono; [apply Hcf|].
  intros customFields w9 [Hs9 H9]. cbv zeta.
  apply returns_bind. eexists tt, _. split; [reflexivity|].
  apply returns_bind. eexists tt, _. split; [reflexivity|].
  apply returns_ret. split; [reflexivity|].
  exists (Bank.mk id bankName phoneForOtp accountNumber netBankingUsername
            netBankingPassword mobileBankingUsername mobileBankingPassword
            atmPin customFields).
  split; [|split].
  - constructor; cbn; assumption.
  - assert (Hs : same_store (set_client_db true w) w9) by same_store.
    destruct Hs as [Hs _]. cbn [users set_users]. now rewrite Hs.
  - assert (Hs : same_store (set_client_db true w) w9) by same_store.
    destruct Hs as [_ Hs]. cbn. etransitivity; [exact Hs|].
    now apply connects_cached.
Qed.

(** addBank for an existing user and valid values: the user's list grows
    by one record at its end, whose fields are encryptions of the values
    submitted, an optional value that is absent or empty being left
    out. *)
Theorem addBank_appends (userId : string) (values : BankFormValues.t)
    (w : World) (user : User.t) :
  bankForm_ok values = true ->
  connects w = true ->
  find (by_id userId) (users w) = Some user ->
  exists added,
    outcome (addBank userId values) w
    = Returned (Success "Bank added successfully." tt)
    /\ find (by_id userId) (users (world_after (addBank userId values) w))
       = Some (User.set_banks (User.banks user ++ [added])%list user)
    /\ added_from values added.
Proof.
  intros Hok Hc Hu.
  destruct (returns_outcome _ _ _ (addBank_returns _ _ _ _ Hok Hc Hu))
    as (result & Hout & -> & added & Hfrom & Husers & _).
  exists added. split; [assumption|]. split; [|assumption].
  rewrite Husers, find_update_first by reflexivity. now rewrite Hu.
Qed.

Hypothesis cipher_law : cipher_inverts.

(** addBank followed by getBanksForUser: the list shown is the list that
    was shown before with one item more at its end, which carries the
    bankName and the accountNumber as they were submitted. *)
Theorem addBank_then_getBanksForUser (userId : string)
    (values : BankFormValues.t) (w : World) (user : User.t)
    (items : list BankListItem.t) :
  bankForm_ok values = true ->
  connects w = true ->
  find (by_id userId) (users w) = Some user ->
  outcome (getBanksForUser userId) w = Returned items ->
  exists id,
    outcome (getBanksForUser userId) (world_after (addBank userId values) w)
    = Returned
        (items ++ [BankListItem.mk id (BankFormValues.bankName values)
                     (BankFormValues.accountNumber values)])%list.
Proof.
  intros Hok Hc Hu Hitems.
  apply (getBanksForUser_listed _ _ _ _ Hc Hu) in Hitems.
  destruct (returns_outcome _ _ _ (addBank_returns _ _ _ _ Hok Hc Hu))
    as (result & _ & _ & added & Hfrom & Husers & Hc').
  assert (Hu' : find (by_id userId)
                  (users (world_after (addBank userId values) w))
                = Some (User.set_banks (User.banks user ++ [added]) user)).
  { rewrite Husers, find_update_first by reflexivity. now rewrite Hu. }
  exists (Bank.id added).
  apply (getBanksForUser_listed _ _ _ _ Hc' Hu'). cbn.
  apply Forall2_app; [assumption|].
  constructor; [|constructor].
  repeat split; cbn.
  - apply (open_blob_encryption cipher_law), (add_bankName _ _ Hfrom).
  - apply (open_blob_encryption cipher_law), (add_accountNumber _ _ Hfrom).
Qed.

End AddBank.

(** ** decryptBank *)

Section Reveal.
Context `{RegExpEngine} `{NodeCrypto}.

Lemma decrypt_or_NA_run (v : option string) (w : World) :
  decrypt_or_NA v w
  = (match reveal_optional v with
     | Some shown => Returned shown
     | None => Thrown DecryptionError
     end, w).
Proof.
  unfold decrypt_or_NA, reveal_optional. destruct v as [c|]; [|reflexivity].
  destruct (truthy c); [|reflexivity].
  unfold bind. rewrite decrypt_run. now destruct (open_blob c).
Qed.

Lemma decrypt_field_run (f : CustomField.t) (w : World) :
  decrypt_field f w
  = (match reveal_field f with
     | Some f' => Returned f'
     | None => Thrown DecryptionError
     end, w).
Proof.
  unfold decrypt_field, reveal_field, bind. rewrite decrypt_run.
  destruct (open_blob (CustomField.label f)); [|reflexivity].
  destruct (truthy (CustomField.value f)); [|reflexivity].
  rewrite decrypt_run. now destruct (open_blob (CustomField.value f)).
Qed.

Lemma mapM_decrypt_field_run (fields : list CustomField.t) (w : World) :
  mapM decrypt_field fields w
  = (match reveal_fields fields with
     | Some fields' => Returned fields'
     | None => Thrown DecryptionError
     end, w).
Proof.
  induction fields as [|f fields IH]; [reflexivity|].
  cbn [mapM reveal_fields]. unfold bind at 1. rewrite decrypt_field_run.
  destruct (reveal_field f); [|reflexivity].
  unfold bind. rewrite IH. now destruct (reveal_fields fields).
Qed.

Lemma map_optional_decrypt_run (fields : option (list CustomField.t))
    (w : World) :
  map_optional decrypt_field fields w
  = (match match fields with
           | Some fields => option_map Some (reveal_fields fields)
           | None => Some None
           end with
     | Some shown => Returned shown
     | None => Thrown DecryptionError
     end, w).
Proof.
  unfold map_optional. destruct fields as [fields|]; [|reflexivity].
  unfold bind. rewrite mapM_decrypt_field_run.
  now destruct (reveal_fields fields).
Qed.

Lemma decryptBank_run (userId bankId : string) (w : World) (user : User.t)
    (bank : Bank.t) :
  connects w = true ->
  find (by_id userId) (users w) = Some user ->
  find (has_id bankId) (User.banks user) = Some bank ->
  decryptBank userId bankId w
  = (match revealed bank with
     | Some shown => Returned (Success "Bank decrypted." shown)
     | None => Thrown DecryptionError
     end, set_client_db true w).
Proof.
  intros Hc Hu Hb. unfold decryptBank.
  rewrite (bind_returned _ _ _ _ _ (getUsersCollection_run w Hc)).
  rewrite (bind_returned _ _ _ _ _ (findOne_run _ _)).
  cbn [users set_client_db]. rewrite Hu, Hb. unfold revealed.
  unfold bind at 1. rewrite decrypt_run.
  destruct (open_blob (Bank.bankName bank)); [|reflexivity].
  unfold bind at 1. rewrite decrypt_run.
  destruct (open_blob (Bank.phoneForOtp bank)); [|reflexivity].
  unfold bind at 1. rewrite decrypt_run.
  destruct (open_blob (Bank.accountNumber bank)); [|reflexivity].
  unfold bind at 1. rewrite decrypt_run.
  destruct (open_blob (Bank.netBankingUsername bank)); [|reflexivity].
  unfold bind at 1. rewrite decrypt_or_NA_run.
  destruct (reveal_optional (Bank.netBankingPassword bank)); [|reflexivity].
  unfold bind at 1. rewrite decrypt_run.
  destruct (open_blob (Bank.mobileBankingUsername bank)); [|reflexivity].
  unfold bind at 1. rewrite decrypt_or_NA_run.
  destruct (reveal_optional (Bank.mobileBankingPassword bank)); [|reflexivity].
  unfold bind at 1. rewrite decrypt_or_NA_run.
  destruct (reveal_optional (Bank.atmPin bank)); [|reflexivity].
  unfold bind at 1. rewrite map_optional_decrypt_run.
  destruct (match Bank.customFields bank with
            | Some fields => option_map Some (reveal_fields fields)
            | None => Some None
            end); reflexivity.
Qed.

(** decryptBank on a stored record: it returns the record with every
    field decrypted, an optional field that is absent (or empty) shown
    as 'N/A', and throws the DecryptionError when a field it reads does
    not decrypt; the store is left as it was. *)
Theorem decryptBank_reveals (userId bankId : string) (w : World)
    (user : User.t) (bank : Bank.t) :
  connects w = true ->
  find (by_id userId) (users w) = Some user ->
  find (has_id bankId) (User.banks user) = Some bank ->
  outcome (decryptBank userId bankId) w
  = match revealed bank with
    | Some shown => Returned (Success "Bank decrypted." shown)
    | None => Thrown DecryptionError
    end
  /\ users (world_after (decryptBank userId bankId) w) = users w
  /\ forall shown,
       revealed bank = Some shown ->
       Bank.id shown = Bank.id bank
       /\ open_blob (Bank.bankName bank) = Some (Bank.bankName shown)
       /\ open_blob (Bank.phoneForOtp bank) = Some (Bank.phoneForOtp shown)
       /\ open_blob (Bank.accountNumber bank) = Some (Bank.accountNumber shown)
       /\ open_blob (Bank.netBankingUsername bank)
          = Some (Bank.netBankingUsername shown)
       /\ open_blob (Bank.mobileBankingUsername bank)
          = Some (Bank.mobileBankingUsername shown)
       /\ reveal_optional (Bank.netBankingPassword bank)
          = Some (Bank.netBankingPassword shown)
       /\ reveal_optional (Bank.mobileBankingPassword bank)
          = Some (Bank.mobileBankingPassword shown)
       /\ reveal_optional (Bank.atmPin bank) = Some (Bank.atmPin shown)
       /\ (otruthy (Bank.atmPin bank) = false ->
           Bank.atmPin shown = Some "N/A").
Proof.
  intros Hc Hu Hb. unfold outcome, world_after.
  rewrite (decryptBank_run _ _ _ _ _ Hc Hu Hb). cbn [fst snd].
  split; [reflexivity|]. split; [reflexivity|].
  intros shown. unfold revealed.
  destruct (open_blob (Bank.bankName bank)); [|discriminate].
  destruct (open_blob (Bank.phoneForOtp bank)); [|discriminate].
  destruct (open_blob (Bank.accountNumber bank)); [|discriminate].
  destruct (open_blob (Bank.netBankingUsername bank)); [|discriminate].
  destruct (reveal_optional (Bank.netBankingPassword bank)); [|discriminate].
  destruct (open_blob (Bank.mobileBankingUsername bank)); [|discriminate].
  destruct (reveal_optional (Bank.mobileBankingPassword bank));
    [|discriminate].
  destruct (reveal_optional (Bank.atmPin bank)) as [pin|] eqn:Epin;
    [|discriminate].
  destruct (match Bank.customFields bank with
            | Some fields => option_map Some (reveal_fields fields)
            | None => Some None
            end); [|discriminate].
  intros [= <-]. cbn. repeat (split; [reflexivity|]).
  intros Hfalsy. unfold reveal_optional, otruthy in *.
  destruct (Bank.atmPin bank) as [c|]; [rewrite Hfalsy in Epin|];
    congruence.
Qed.

End Reveal.

(** ** updateBank, then decryptBank *)

Section UpdateThenReveal.
Context `{RegExpEngine} `{NodeCrypto}.
Hypothesis cipher_law : cipher_inverts.

Lemma is_encryption_truthy (blob text : string) :
  is_encryption_of blob text -> truthy blob = true.
Proof.
  intros (iv & Hlen & ->). destruct iv; [discriminate | reflexivity].
Qed.

Lemma reveal_optional_encryption (blob text : string) :
  is_encryption_of blob text ->
  reveal_optional (Some blob) = Some (Some text).
Proof.
  intros Hb. unfold reveal_optional.
  rewrite (is_encryption_truthy _ _ Hb).
  now rewrite (open_blob_encryption cipher_law _ _ Hb).
Qed.

Lemma reveal_optional_opens (stored : option string) :
  optional_opens stored = true ->
  exists shown, reveal_optional stored = Some shown.
Proof.
  unfold optional_opens, reveal_optional, opens.
  destruct stored as [c|]; [|eauto].
  destruct (truthy c); [|eauto].
  destruct (open_blob c); [cbn; eauto | discriminate].
Qed.

Lemma reveal_after_policy (incoming old new : option string) :
  optional_policy incoming old new ->
  optional_opens old = true ->
  exists shown,
    reveal_optional new = Some shown /\ shown_after_update incoming old shown.
Proof.
  intros [Hreplaced Hkept] Hold.
  assert (Hkeep : ~ nonempty_after_trim incoming ->
                  exists shown,
                    reveal_optional new = Some shown
                    /\ shown_after_update incoming old shown).
  { intros Hno. rewrite (Hkept Hno).
    destruct (reveal_optional_opens old Hold) as (shown & Hshown).
    exists shown. split; [assumption|]. split; [|auto].
    intros s Hs Hne. exfalso. apply Hno. exists s. auto. }
  destruct incoming as [s|].
  2:{ apply Hkeep. intros (s & [=] & _). }
  destruct (String.eqb (trim s) "") eqn:E.
  - apply Hkeep. intros (s' & [= <-] & Hne). now apply String.eqb_eq in E.
  - apply String.eqb_neq in E.
    destruct (Hreplaced s eq_refl E) as (c & -> & Hc).
    exists (Some s). split; [now apply reveal_optional_encryption|].
    split.
    + now intros s' [= <-] _.
    + intros Hno. exfalso. apply Hno. exists s. auto.
Qed.

Lemma reveal_fields_encrypted (fields fields' : list CustomField.t) :
  Forall2 field_encrypts fields fields' -> reveal_fields fields' = Some fields.
Proof.
  induction 1 as [|f f' fields fields' [Hl Hv] _ IH]; [reflexivity|].
  cbn [reveal_fields]. rewrite IH. unfold reveal_field.
  rewrite (open_blob_encryption cipher_law _ _ Hl).
  rewrite (is_encryption_truthy _ _ Hv).
  rewrite (open_blob_encryption cipher_law _ _ Hv).
  now destruct f.
Qed.

Lemma reveal_fields_opens (fields : list CustomField.t) :
  forallb field_opens fields = true ->
  exists fields', reveal_fields fields = Some fields'.
Proof.
  induction fields as [|f fields IH]; [eauto|].
  cbn [forallb reveal_fields]. intros [Hf Hfs]%andb_true_iff.
  destruct (IH Hfs) as (fields' & ->).
  unfold field_opens, opens in Hf. apply andb_true_iff in Hf as [Hl Hv].
  unfold reveal_field.
  destruct (open_blob (CustomField.label f)); [|discriminate].
  destruct (truthy (CustomField.value f)); [|eauto].
  destruct (open_blob (CustomField.value f)); [eauto | discriminate].
Qed.

(** updateBank followed by decryptBank of the same record, the record
    replaced being one whose fields decrypt: decryptBank shows the
    incoming values of the five fields always overwritten; of each
    optional secret it shows the incoming value when that was non-empty
    after trimming and what it showed before otherwise; and it shows the
    incoming customFields when there were any. *)
Theorem updateBank_then_decryptBank (userId bankId : string)
    (values : BankFormValues.t) (w : World) (user : User.t) (i : nat)
    (existing : Bank.t) :
  bankForm_ok values = true ->
  connects w = true ->
  find (by_id userId) (users w) = Some user ->
  findIndex (has_id bankId) (User.banks user) = Some (i, existing) ->
  bank_opens existing = true ->
  exists shown,
    outcome (decryptBank userId bankId)
      (world_after (updateBank userId bankId values) w)
    = Returned (Success "Bank decrypted." shown)
    /\ Bank.bankName shown = BankFormValues.bankName values
    /\ Bank.phoneForOtp shown = BankFormValues.phoneForOtp values
    /\ Bank.accountNumber shown = BankFormValues.accountNumber values
    /\ Bank.netBankingUsername shown = BankFormValues.netBankingUsername values
    /\ Bank.mobileBankingUsername shown
       = BankFormValues.mobileBankingUsername values
    /\ shown_after_update (BankFormValues.netBankingPassword values)
         (Bank.netBankingPassword existing) (Bank.netBankingPassword shown)
    /\ shown_after_update (BankFormValues.mobileBankingPassword values)
         (Bank.mobileBankingPassword existing)
         (Bank.mobileBankingPassword shown)
    /\ shown_after_update (BankFormValues.atmPin values)
         (Bank.atmPin existing) (Bank.atmPin shown)
    /\ (forall fields,
           BankFormValues.customFields values = Some fields ->
           Bank.customFields shown = Some fields).
Proof.
  intros Hok Hc Hu Hi Hopens.
  destruct (updateBank_effect _ _ _ _ _ _ _ Hok Hc Hu Hi)
    as (updated & _ & Hfind & Hfrom & Hc').
  assert (Hbank : find (has_id bankId)
                    (User.banks
                       (User.set_banks (<[i := updated]> (User.banks user)) user))
                  = Some updated).
  { cbn. apply (findIndex_find _ _ i).
    apply (findIndex_insert _ _ _ existing); [assumption|].
    apply has_id_true. rewrite (upd_id _ _ _ Hfrom).
    now apply has_id_true, (findIndex_Some _ _ _ _ Hi). }
  unfold outcome. rewrite (decryptBank_run _ _ _ _ _ Hc' Hfind Hbank).
  cbn [fst]. clear Hfind Hbank Hc'.
  unfold bank_opens in Hopens.
  repeat match type of Hopens with
         | _ && _ = true => apply andb_true_iff in Hopens as [Hopens ?]
         end.
  destruct Hfrom as [Hid Hn Hp Ha Hnu Hmu Hnp Hmp Hpin Hcf].
  destruct (reveal_after_policy _ _ _ Hnp) as (np & Enp & Snp); [assumption|].
  destruct (reveal_after_policy _ _ _ Hmp) as (mp & Emp & Smp); [assumption|].
  destruct (reveal_after_policy _ _ _ Hpin) as (pin & Epin & Spin);
    [assumption|].
  assert (Ecf : exists cf,
             match Bank.customFields updated with
             | Some fields => option_map Some (reveal_fields fields)
             | None => Some None
             end = Some cf
             /\ forall fields,
                  BankFormValues.customFields values = Some fields ->
                  cf = Some fields).
  { destruct (BankFormValues.customFields values) as [fields|].
    - destruct Hcf as (fields' & -> & HF).
      rewrite (reveal_fields_encrypted _ _ HF). cbn.
      exists (Some fields). split; [reflexivity | now intros ? [= <-]].
    - rewrite Hcf. destruct (Bank.customFields existing) as [fields|].
      + match goal with
        | Hall : forallb field_opens fields = true |- _ =>
            destruct (reveal_fields_opens _ Hall) as (fields' & ->)
        end.
        cbn. eexists. split; [reflexivity | discriminate].
      + eexists. split; [reflexivity | discriminate]. }
  destruct Ecf as (cf & Ecf & Scf).
  unfold revealed.
  rewrite (open_blob_encryption cipher_law _ _ Hn),
    (open_blob_encryption cipher_law _ _ Hp),
    (open_blob_encryption cipher_law _ _ Ha),
    (open_blob_encryption cipher_law _ _ Hnu),
    (open_blob_encryption cipher_law _ _ Hmu), Enp, Emp, Epin, Ecf.
  eexists. split; [reflexivity|]. cbn.
  repeat (split; [reflexivity || assumption|]). assumption.
Qed.

End UpdateThenReveal.

(** ** createUser *)

Section CreateUser.
Context `{RegExpEngine} `{NodeCrypto}.

(** What createUser does with valid values, once the gateway answered and
    the pattern made of the username compiled: it reports a conflict
    exactly when the pattern matches a stored username, and otherwise
    stores a user with no bank and an encrypted master password, and
    returns that user without the master password. *)
Theorem createUser_effect (values : CreateUserValues.t)
    (username password : string) (w : World) (re : RegExp) :
  createUserSchema values = Some (username, password) ->
  connects w = true ->
  new_RegExp ("^" +:+ username +:+ "$") "i" = Some re ->
  (forall existing,
      find (by_username re) (users w) = Some existing ->
      outcome (createUser values) w = Returned (Error "Username already taken.")
      /\ users (world_after (createUser values) w) = users w)
  /\ (find (by_username re) (users w) = None ->
      exists id masterPassword,
        outcome (createUser values) w
        = Returned
            (Success ("User '" +:+ username
                      +:+ "' created successfully! You can now log in.")
                     (UserPublic.mk id username []))
        /\ is_encryption_of masterPassword password
        /\ users (world_after (createUser values) w)
           = (users w ++ [User.mk id username masterPassword []])%list).
Proof.
  intros Hv Hc Hre.
  assert (Hrun : createUser values w
                 = (let! existingUser := findOne (by_username re) in
                    match existingUser with
                    | Some existing => ret (Error "Username already taken.")
                    | None =>
                        let! id := randomUUID in
                        let! masterPassword := encrypt password in
                        let newUser := User.mk id username masterPassword [] in
                        let! inserted := insertOne newUser in
                        ret (Success
                               ("User '" +:+ username
                                +:+ "' created successfully! You can now log in.")
                               (userToReturn newUser))
                    end) (set_client_db true w)).
  { unfold createUser. rewrite Hv.
    rewrite (bind_returned _ _ _ _ _ (getUsersCollection_run w Hc)).
    unfold username_RegExp. rewrite Hre. reflexivity. }
  unfold outcome, world_after. rewrite Hrun.
  rewrite (bind_returned _ _ _ _ _ (findOne_run _ _)).
  cbn [users set_client_db]. split.
  - intros existing ->. split; reflexivity.
  - intros ->. cbv zeta. unfold randomUUID.
    match goal with
    | |- context [bind (bind (randomBytes 16) ?k1) ?k2 ?w0] =>
        destruct (randomBytes 16 w0) as [c w1] eqn:Hbytes
    end.
    unfold bind at 1 2. rewrite Hbytes.
    unfold randomBytes in Hbytes. injection Hbytes as <- <-.
    cbn [ret]. rewrite (bind_returned _ _ _ _ _ (encrypt_run _ _)).
    eexists _, _. split; [reflexivity|]. split; [|reflexivity].
    eexists; split; [apply drawn_iv_length | reflexivity].
Qed.

End CreateUser.

(** ** What the operations write *)

Lemma keeps_users_ret {A} (a : A) : keeps_users (ret a).
Proof. intros w; reflexivity. Qed.

Lemma keeps_users_throw {A} (e : Exception) : keeps_users (@throw A e).
Proof. intros w; reflexivity. Qed.

Lemma keeps_users_bind {A B} (m : Async A) (k : A -> Async B) :
  keeps_users m -> (forall a, keeps_users (k a)) -> keeps_users (bind m k).
Proof.
  intros Hm Hk w. specialize (Hm w). unfold world_after, bind in *.
  destruct (m w) as [[a|e] w1]; cbn [snd] in *; [|assumption].
  rewrite <- Hm. apply Hk.
Qed.

Lemma keeps_users_try_catch {A} (m : Async A) (h : Exception -> Async A) :
  keeps_users m -> (forall e, keeps_users (h e)) ->
  keeps_users (try_catch m h).
Proof.
  intros Hm Hh w. specialize (Hm w). unfold world_after, try_catch in *.
  destruct (m w) as [[a|e] w1]; cbn [snd] in *; [assumption|].
  rewrite <- Hm. apply Hh.
Qed.

Lemma keeps_users_mapM {A B} (f : A -> Async B) (l : list A) :
  (forall x, keeps_users (f x)) -> keeps_users (mapM f l).
Proof.
  intros Hf. induction l as [|x l IH]; cbn [mapM].
  - apply keeps_users_ret.
  - apply keeps_users_bind; [apply Hf|]. intros y.
    apply keeps_users_bind; [apply IH|]. intros ys. apply keeps_users_ret.
Qed.

Lemma keeps_users_getUsersCollection : keeps_users getUsersCollection.
Proof.
  intros w. unfold world_after. destruct (connects w) eqn:Hc.
  - now rewrite (getUsersCollection_run w Hc).
  - now destruct (getUsersCollection_fails w Hc) as (e & _ & ->).
Qed.

Lemma keeps_users_findOne (filter : User.t -> bool) :
  keeps_users (findOne filter).
Proof. intros w; reflexivity. Qed.

Lemma Forall2_same {A} (R : A -> A -> Prop) (l : list A) :
  (forall x, R x x) -> Forall2 R l l.
Proof. intros HR. induction l; constructor; auto. Qed.

Lemma Forall2_update_first (R : User.t -> User.t -> Prop)
    (filter : User.t -> bool) (f : User.t -> User.t) (us : list User.t) :
  (forall u, R u u) ->
  (forall u, filter u = true -> R u (f u)) ->
  Forall2 R us (update_first filter f us).
Proof.
  intros Hsame Hf. induction us as [|u us IH]; cbn; [constructor|].
  destruct (filter u) eqn:E; constructor; auto.
  now apply Forall2_same.
Qed.

Lemma by_id_true (userId : string) (u : User.t) :
  by_id userId u = true <-> User.id u = userId.
Proof. apply String.eqb_eq. Qed.

Lemma banks_written_same (userId : string) (u : User.t) :
  banks_written userId u u.
Proof. repeat split. Qed.

Lemma banks_written_set_banks (userId : string) (bs : list Bank.t)
    (u : User.t) :
  by_id userId u = true -> banks_written userId u (User.set_banks bs u).
Proof.
  intros Hid%by_id_true. repeat split. intros Hne. contradiction.
Qed.

Lemma password_written_same (userId : string) (u : User.t) :
  password_written userId u u.
Proof. repeat split. Qed.

Section Writes.
Context `{RegExpEngine} `{NodeCrypto}.

Lemma keeps_users_decrypt (blob : string) : keeps_users (decrypt blob).
Proof. intros w. unfold world_after. now rewrite decrypt_run. Qed.

Lemma keeps_users_encrypt (text : string) : keeps_users (encrypt text).
Proof. intros w; reflexivity. Qed.

Ltac keeps_step :=
  first
    [ apply keeps_users_ret
    | apply keeps_users_throw
    | apply keeps_users_getUsersCollection
    | apply keeps_users_findOne
    | apply keeps_users_decrypt
    | apply keeps_users_mapM; intros ?
    | apply keeps_users_bind; [|intros ?]
    | apply keeps_users_try_catch; [|intros ?]
    | match goal with
      | |- keeps_users (match ?x with _ => _ end) => destruct x
      | |- keeps_users (if ?x then _ else _) => destruct x
      end ].

Lemma keeps_users_getBanksForUser (userId : string) :
  keeps_users (getBanksForUser userId).
Proof. unfold getBanksForUser, list_item. repeat keeps_step. Qed.

Lemma keeps_users_decryptBank (userId bankId : string) :
  keeps_users (decryptBank userId bankId).
Proof.
  unfold decryptBank, decrypt_or_NA, map_optional, decrypt_field.
  repeat keeps_step.
Qed.

Lemma keeps_users_verifyMasterPassword (username password : string) :
  keeps_users (verifyMasterPassword username password).
Proof.
  unfold verifyMasterPassword, username_RegExp, verify_attempt.
  repeat keeps_step.
Qed.

(** The operations that read, getBanksForUser, decryptBank and
    verifyMasterPassword, leave every document of the collection as it
    was, whether they return a result, an error, or throw; a login
    with a password stored in the clear does not rewrite it. *)
Theorem reading_operations_write_nothing (w : World) :
  (forall userId,
      users (world_after (getBanksForUser userId) w) = users w)
  /\ (forall userId bankId,
         users (world_after (decryptBank userId bankId) w) = users w)
  /\ (forall username password,
         users (world_after (verifyMasterPassword username password) w)
         = users w).
Proof.
  split; [|split].
  - intros userId. apply keeps_users_getBanksForUser.
  - intros userId bankId. apply keeps_users_decryptBank.
  - intros username password. apply keeps_users_verifyMasterPassword.
Qed.

Lemma addBank_outcomes (userId : string) (values : BankFormValues.t)
    (w : World) :
  (exists user added,
      find (by_id userId) (users w) = Some user
      /\ outcome (addBank userId values) w
         = Returned (Success "Bank added successfully." tt)
      /\ added_from values added
      /\ users (world_after (addBank userId values) w)
         = update_first (by_id userId) (push_bank added) (users w)
      /\ connects (world_after (addBank userId values) w) = true)
  \/ (is_success (outcome (addBank userId values) w) = false
      /\ users (world_after (addBank userId values) w) = users w).
Proof.
  destruct (bankForm_ok values) eqn:Hok.
  2:{ right. unfold outcome, world_after, addBank, bankFormSchema.
      rewrite Hok. split; reflexivity. }
  destruct (connects w) eqn:Hc.
  2:{ right. destruct (getUsersCollection_fails w Hc) as (e & _ & He).
      unfold outcome, world_after, addBank, bankFormSchema.
      rewrite Hok, (bind_thrown _ _ _ _ _ He). split; reflexivity. }
  destruct (find (by_id userId) (users w)) as [user|] eqn:Hu.
  2:{ right. unfold outcome, world_after, addBank, bankFormSchema.
      rewrite Hok.
      rewrite (bind_returned _ _ _ _ _ (getUsersCollection_run w Hc)).
      rewrite (bind_returned _ _ _ _ _ (findOne_run _ _)).
      cbn [users set_client_db]. rewrite Hu. split; reflexivity. }
  left.
  destruct (returns_outcome _ _ _ (addBank_returns _ _ _ _ Hok Hc Hu))
    as (result & Hout & -> & added & Hfrom & Husers & Hc').
  exists user, added. auto.
Qed.

Lemma updateBank_outcomes (userId bankId : string)
    (values : BankFormValues.t) (w : World) :
  (exists user i existing updated,
      find (by_id userId) (users w) = Some user
      /\ findIndex (has_id bankId) (User.banks user) = Some (i, existing)
      /\ outcome (updateBank userId bankId values) w
         = Returned (Success "Bank updated successfully." tt)
      /\ updated_from values existing updated
      /\ users (world_after (updateBank userId bankId values) w)
         = update_first (by_id userId)
             (set_banks (<[i := updated]> (User.banks user))) (users w)
      /\ connects (world_after (updateBank userId bankId values) w) = true)
  \/ (is_success (outcome (updateBank userId bankId values) w) = false
      /\ users (world_after (updateBank userId bankId values) w) = users w).
Proof.
  destruct (bankForm_ok values) eqn:Hok.
  2:{ right. unfold outcome, world_after, updateBank, bankFormSchema.
      rewrite Hok. split; reflexivity. }
  destruct (connects w) eqn:Hc.
  2:{ right. destruct (getUsersCollection_fails w Hc) as (e & _ & He).
      unfold outcome, world_after, updateBank, bankFormSchema.
      rewrite Hok, (bind_thrown _ _ _ _ _ He). split; reflexivity. }
  destruct (find (by_id userId) (users w)) as [user|] eqn:Hu.
  2:{ right. unfold outcome, world_after, updateBank, bankFormSchema.
      rewrite Hok.
      rewrite (bind_returned _ _ _ _ _ (getUsersCollection_run w Hc)).
      rewrite (bind_returned _ _ _ _ _ (findOne_run _ _)).
      cbn [users set_client_db]. rewrite Hu. split; reflexivity. }
  destruct (findIndex (has_id bankId) (User.banks user))
    as [[i existing]|] eqn:Hi.
  2:{ right. unfold outcome, world_after, updateBank, bankFormSchema.
      rewrite Hok.
      rewrite (bind_returned _ _ _ _ _ (getUsersCollection_run w Hc)).
      rewrite (bind_returned _ _ _ _ _ (findOne_run _ _)).
      cbn [users set_client_db]. rewrite Hu, Hi. split; reflexivity. }
  left.
  destruct (returns_outcome _ _ _
              (updateBank_returns _ _ _ _ _ _ _ Hok Hc Hu Hi))
    as (result & Hout & -> & updated & Hfrom & Husers & Hc').
  exists user, i, existing, updated. auto 7.
Qed.

Lemma deleteBank_outcomes (userId bankId : string) (w : World) :
  (exists user,
      find (by_id userId) (users w) = Some user
      /\ outcome (deleteBank userId bankId) w
         = Returned (Success "Bank deleted successfully." tt)
      /\ users (world_after (deleteBank userId bankId) w)
         = update_first (by_id userId)
             (set_banks
                (List.filter (fun b => negb (has_id bankId b))
                   (User.banks user)))
             (users w)
      /\ connects (world_after (deleteBank userId bankId) w) = true)
  \/ (is_success (outcome (deleteBank userId bankId) w) = false
      /\ users (world_after (deleteBank userId bankId) w) = users w).
Proof.
  destruct (connects w) eqn:Hc.
  2:{ right. destruct (getUsersCollection_fails w Hc) as (e & _ & He).
      unfold outcome, world_after, deleteBank.
      rewrite (bind_thrown _ _ _ _ _ He). split; reflexivity. }
  destruct (find (by_id userId) (users w)) as [user|] eqn:Hu.
  2:{ right. unfold outcome, world_after, deleteBank.
      rewrite (bind_returned _ _ _ _ _ (getUsersCollection_run w Hc)).
      rewrite (bind_returned _ _ _ _ _ (findOne_run _ _)).
      cbn [users set_client_db]. rewrite Hu. split; reflexivity. }
  unfold outcome, world_after.
  rewrite (deleteBank_run _ _ _ _ Hc Hu). cbv zeta.
  destruct (_ =? _)%nat.
  - right. split; reflexivity.
  - left. exists user. cbn [fst snd users set_users].
    repeat split. now apply connects_cached.
Qed.

Lemma changeMasterPassword_outcomes (userId : string)
    (values : ChangePasswordFormValues.t) (w : World) :
  (exists user stored,
      changePasswordSchema values = inl values
      /\ find (by_id userId) (users w) = Some user
      /\ password_matches (User.masterPassword user)
           (ChangePasswordFormValues.currentPassword values) = true
      /\ outcome (changeMasterPassword userId values) w
         = Returned (Success "Master password updated successfully." tt)
      /\ is_encryption_of stored (ChangePasswordFormValues.newPassword values)
      /\ users (world_after (changeMasterPassword userId values) w)
         = update_first (by_id userId) (set_masterPassword stored) (users w)
      /\ connects (world_after (changeMasterPassword userId values) w) = true)
  \/ (is_success (outcome (changeMasterPassword userId values) w) = false
      /\ users (world_after (changeMasterPassword userId values) w) = users w).
Proof.
  destruct (changePasswordSchema values) as [data|[path message]] eqn:Hv.
  2:{ right. unfold outcome, world_after, changeMasterPassword.
      rewrite Hv. split; reflexivity. }
  assert (Hdata : data = values).
  { unfold changePasswordSchema in Hv.
    repeat match type of Hv with
           | (if ?c then _ else _) = _ => destruct c; [discriminate|]
           end.
    now injection Hv. }
  subst data.
  destruct (connects w) eqn:Hc.
  2:{ right. destruct (getUsersCollection_fails w Hc) as (e & _ & He).
      unfold outcome, world_after, changeMasterPassword. rewrite Hv.
      cbv zeta. rewrite (bind_thrown _ _ _ _ _ He). split; reflexivity. }
  destruct (find (by_id userId) (users w)) as [user|] eqn:Hu.
  2:{ right. unfold outcome, world_after, changeMasterPassword. rewrite Hv.
      cbv zeta.
      rewrite (bind_returned _ _ _ _ _ (getUsersCollection_run w Hc)).
      rewrite (bind_returned _ _ _ _ _ (findOne_run _ _)).
      cbn [users set_client_db]. rewrite Hu. split; reflexivity. }
  unfold outcome, world_after.
  rewrite (changeMasterPassword_run _ _ _ _ _ Hv Hc Hu).
  destruct (password_matches _ _) eqn:Hp.
  - left. eexists user, _. cbv zeta. cbn [fst snd users set_users].
    split; [reflexivity|].
    split; [reflexivity|]. split; [assumption|]. split; [reflexivity|].
    split; [|split; [reflexivity | now apply connects_cached]].
    eexists; split; [apply drawn_iv_length | reflexivity].
  - right. split; reflexivity.
Qed.

Lemma createUser_run (values : CreateUserValues.t)
    (username password : string) (w : World) (re : RegExp) :
  createUserSchema values = Some (username, password) ->
  connects w = true ->
  new_RegExp ("^" +:+ username +:+ "$") "i" = Some re ->
  createUser values w
  = match find (by_username re) (users w) with
    | Some existing =>
        (Returned (Error "Username already taken."), set_client_db true w)
    | None =>
        let w1 := set_client_db true w in
        let id :=
          uuid_of_bytes
            (string_of_list_ascii (map (entropy w1) (seq (entropy_pos w1) 16))) in
        let w2 := set_entropy_pos (entropy_pos w1 + 16) w1 in
        let masterPassword := drawn_iv w2 +:+ cipher (drawn_iv w2) password in
        (Returned
           (Success ("User '" +:+ username
                     +:+ "' created successfully! You can now log in.")
                    (UserPublic.mk id username [])),
         set_users (users w ++ [User.mk id username masterPassword []])%list
           (set_entropy_pos (entropy_pos w2 + IV_LENGTH) w2))
    end.
Proof.
  intros Hv Hc Hre. unfold createUser. rewrite Hv.
  rewrite (bind_returned _ _ _ _ _ (getUsersCollection_run w Hc)).
  unfold username_RegExp. rewrite Hre.
  unfold bind at 1. unfold ret at 1.
  rewrite (bind_returned _ _ _ _ _ (findOne_run _ _)).
  cbn [users set_client_db].
  destruct (find (by_username re) (users w)); reflexivity.
Qed.

Lemma createUser_outcomes (values : CreateUserValues.t) (w : World) :
  (exists username password re id stored,
      createUserSchema values = Some (username, password)
      /\ new_RegExp ("^" +:+ username +:+ "$") "i" = Some re
      /\ find (by_username re) (users w) = None
      /\ outcome (createUser values) w
         = Returned
             (Success ("User '" +:+ username
                       +:+ "' created successfully! You can now log in.")
                      (UserPublic.mk id username []))
      /\ is_encryption_of stored password
      /\ users (world_after (createUser values) w)
         = (users w ++ [User.mk id username stored []])%list
      /\ connects (world_after (createUser values) w) = true)
  \/ (is_success (outcome (createUser values) w) = false
      /\ users (world_after (createUser values) w) = users w).
Proof.
  destruct (createUserSchema values) as [[username password]|] eqn:Hv.
  2:{ right. unfold outcome, world_after, createUser. rewrite Hv.
      split; reflexivity. }
  destruct (connects w) eqn:Hc.
  2:{ right. destruct (getUsersCollection_fails w Hc) as (e & _ & He).
      unfold outcome, world_after, createUser. rewrite Hv.
      rewrite (bind_thrown _ _ _ _ _ He). split; reflexivity. }
  destruct (new_RegExp ("^" +:+ username +:+ "$") "i") as [re|] eqn:Hre.
  2:{ right. unfold outcome, world_after, createUser. rewrite Hv.
      rewrite (bind_returned _ _ _ _ _ (getUsersCollection_run w Hc)).
      unfold username_RegExp. rewrite Hre. split; reflexivity. }
  unfold outcome, world_after.
  rewrite (createUser_run _ _ _ _ _ Hv Hc Hre).
  destruct (find (by_username re) (users w)) as [existing|] eqn:Hfind.
  - right. split; reflexivity.
  - left. eexists username, password, re, _, _. cbv zeta.
    cbn [fst snd users set_users].
    split; [reflexivity|]. split; [assumption|]. split; [assumption|].
    split; [reflexivity|].
    split; [|split; [reflexivity | now apply connects_cached]].
    eexists; split; [apply drawn_iv_length | reflexivity].
Qed.

(** An operation that does not succeed writes nothing: when addBank,
    updateBank, deleteBank, changeMasterPassword or createUser returns an
    error or throws, the collection holds the documents it held
    before. *)
Theorem failed_operations_write_nothing (w : World) :
  (forall userId values,
      is_success (outcome (addBank userId values) w) = false ->
      users (world_after (addBank userId values) w) = users w)
  /\ (forall userId bankId values,
         is_success (outcome (updateBank userId bankId values) w) = false ->
         users (world_after (updateBank userId bankId values) w) = users w)
  /\ (forall userId bankId,
         is_success (outcome (deleteBank userId bankId) w) = false ->
         users (world_after (deleteBank userId bankId) w) = users w)
  /\ (forall userId values,
         is_success (outcome (changeMasterPassword userId values) w) = false ->
         users (world_after (changeMasterPassword userId values) w) = users w)
  /\ (forall values,
         is_success (outcome (createUser values) w) = false ->
         users (world_after (createUser values) w) = users w).
Proof.
  split; [|split; [|split; [|split]]].
  - intros userId values Hfail.
    destruct (addBank_outcomes userId values w)
      as [(user & added & _ & Hout & _)|[_ Hsame]]; [|assumption].
    rewrite Hout in Hfail. discriminate.
  - intros userId bankId values Hfail.
    destruct (updateBank_outcomes userId bankId values w)
      as [(user & i & existing & updated & _ & _ & Hout & _)|[_ Hsame]];
      [|assumption].
    rewrite Hout in Hfail. discriminate.
  - intros userId bankId Hfail.
    destruct (deleteBank_outcomes userId bankId w)
      as [(user & _ & Hout & _)|[_ Hsame]]; [|assumption].
    rewrite Hout in Hfail. discriminate.
  - intros userId values Hfail.
    destruct (changeMasterPassword_outcomes userId values w)
      as [(user & stored & _ & _ & _ & Hout & _)|[_ Hsame]]; [|assumption].
    rewrite Hout in Hfail. discriminate.
  - intros values Hfail.
    destruct (createUser_outcomes values w)
      as [(username & password & re & id & stored & _ & _ & _ & Hout & _)
         |[_ Hsame]]; [|assumption].
    rewrite Hout in Hfail. discriminate.
Qed.

(** Every write stays within one document.  addBank, updateBank and
    deleteBank leave the collection with the same documents in the same
    order, each with its id, username and master password, and a
    document whose id is not [userId] is untouched; changeMasterPassword
    does the same, keeping the banks instead of the master password;
    createUser changes no document, it adds at most one at the end, with
    no bank. *)
Theorem operations_write_one_document (w : World) (userId : string) :
  (forall values,
      Forall2 (banks_written userId) (users w)
        (users (world_after (addBank userId values) w)))
  /\ (forall bankId values,
         Forall2 (banks_written userId) (users w)
           (users (world_after (updateBank userId bankId values) w)))
  /\ (forall bankId,
         Forall2 (banks_written userId) (users w)
           (users (world_after (deleteBank userId bankId) w)))
  /\ (forall values,
         Forall2 (password_written userId) (users w)
           (users (world_after (changeMasterPassword userId values) w)))
  /\ (forall values,
         users (world_after (createUser values) w) = users w
         \/ exists u,
              users (world_after (createUser values) w)
              = (users w ++ [u])%list
              /\ User.banks u = []).
Proof.
  assert (Hkept : forall us, Forall2 (banks_written userId) us us)
    by (intros us; apply Forall2_same, banks_written_same).
  split; [|split; [|split; [|split]]].
  - intros values.
    destruct (addBank_outcomes userId values w)
      as [(user & added & _ & _ & _ & -> & _)|[_ ->]]; [|apply Hkept].
    apply Forall2_update_first; [apply banks_written_same|].
    intros u Hu. now apply banks_written_set_banks.
  - intros bankId values.
    destruct (updateBank_outcomes userId bankId values w)
      as [(user & i & existing & updated & _ & _ & _ & _ & -> & _)|[_ ->]];
      [|apply Hkept].
    apply Forall2_update_first; [apply banks_written_same|].
    intros u Hu. now apply banks_written_set_banks.
  - intros bankId.
    destruct (deleteBank_outcomes userId bankId w)
      as [(user & _ & _ & -> & _)|[_ ->]]; [|apply Hkept].
    apply Forall2_update_first; [apply banks_written_same|].
    intros u Hu. now apply banks_written_set_banks.
  - intros values.
    destruct (changeMasterPassword_outcomes userId values w)
      as [(user & stored & _ & _ & _ & _ & _ & -> & _)|[_ ->]];
      [|apply Forall2_same, password_written_same].
    apply Forall2_update_first; [apply password_written_same|].
    intros u Hu%by_id_true. repeat split. intros Hne. contradiction.
  - intros values.
    destruct (createUser_outcomes values w)
      as [(username & password & re & id & stored & _ & _ & _ & _ & _ & ->
           & _)|[_ ->]]; [right | now left].
    eexists. split; reflexivity.
Qed.

End Writes.

(** ** One operation after another *)

Lemma find_update_first_same (f g : User.t -> bool) (h : User.t -> User.t)
    (us : list User.t) (u : User.t) :
  find f us = Some u -> find g us = Some u ->
  (forall x, g (h x) = g x) ->
  find g (update_first f h us) = Some (h u).
Proof.
  intros Hf Hg Hh. induction us as [|a us IH]; [discriminate|].
  cbn in Hf, Hg. cbn [update_first]. destruct (f a) eqn:Ef.
  - injection Hf as <-. cbn [find]. rewrite Hh.
    destruct (g a) eqn:Eg; [reflexivity|].
    apply find_some in Hg as [_ Hg]. congruence.
  - cbn [find]. destruct (g a) eqn:Eg.
    + injection Hg as <-. apply find_some in Hf as [_ Hf]. congruence.
    + now apply IH.
Qed.

Lemma find_app_None {A} (p : A -> bool) (l : list A) (x : A) :
  find p l = None ->
  find p (l ++ [x]) = if p x then Some x else None.
Proof.
  induction l as [|a l IH]; cbn; [reflexivity|].
  destruct (p a); [discriminate | exact IH].
Qed.

Lemma find_filter_negb {A} (p : A -> bool) (l : list A) :
  find p (List.filter (fun x => negb (p x)) l) = None.
Proof.
  induction l as [|a l IH]; cbn; [reflexivity|].
  destruct (p a) eqn:E; cbn; [assumption|]. now rewrite E.
Qed.

Lemma findIndex_None {A} (p : A -> bool) (l : list A) :
  find p l = None -> findIndex p l = None.
Proof.
  induction l as [|a l IH]; cbn; [reflexivity|].
  destruct (p a); [discriminate|]. intros Hl. now rewrite (IH Hl).
Qed.

Lemma filter_filter_same {A} (p : A -> bool) (l : list A) :
  List.filter p (List.filter p l) = List.filter p l.
Proof.
  induction l as [|a l IH]; cbn; [reflexivity|].
  destruct (p a) eqn:E; cbn; [rewrite E|]; congruence.
Qed.

Lemma changePasswordSchema_inl (values data : ChangePasswordFormValues.t) :
  changePasswordSchema values = inl data ->
  data = values
  /\ truthy (ChangePasswordFormValues.currentPassword values) = true
  /\ truthy (ChangePasswordFormValues.newPassword values) = true.
Proof.
  unfold changePasswordSchema.
  destruct (negb (1 <=? _)%nat) eqn:E1; [discriminate|].
  destruct (negb (8 <=? _)%nat) eqn:E2; [discriminate|].
  destruct (negb (String.eqb _ _)); [discriminate|].
  intros [= <-]. apply negb_false_iff, Nat.leb_le in E1, E2.
  unfold truthy. split; [reflexivity|].
  destruct (ChangePasswordFormValues.currentPassword values),
    (ChangePasswordFormValues.newPassword values); cbn in *;
    (split; [reflexivity || lia | reflexivity || lia]).
Qed.

Lemma createUserSchema_Some (values : CreateUserValues.t)
    (username password : string) :
  createUserSchema values = Some (username, password) ->
  truthy username = true /\ truthy password = true.
Proof.
  unfold createUserSchema.
  destruct (CreateUserValues.username values) as [u|]; [|discriminate].
  destruct (CreateUserValues.password values) as [p|]; [|discriminate].
  destruct (_ && _) eqn:E; [|discriminate]. intros [= <- <-].
  apply andb_true_iff in E as [Eu%Nat.leb_le Ep%Nat.leb_le].
  unfold truthy. destruct u, p; cbn in *; (split; [reflexivity || lia..]).
Qed.

Section Sequences.
Context `{RegExpEngine} `{NodeCrypto}.
Hypothesis cipher_law : cipher_inverts.

Lemma password_matches_encryption (stored text supplied : string) :
  is_encryption_of stored text ->
  password_matches stored supplied = String.eqb text supplied.
Proof.
  intros Hs. unfold password_matches.
  now rewrite (open_blob_encryption cipher_law _ _ Hs).
Qed.

(** changeMasterPassword, then verifyMasterPassword.  After a change
    that succeeded for the user a login name finds, the stored master
    password is an encryption of the new one (also when the old one was
    stored in the clear), the banks are the same, the new password logs
    in, and no other password does, the old one included. *)
Theorem changeMasterPassword_then_verifyMasterPassword
    (userId username : string) (values : ChangePasswordFormValues.t)
    (w : World) (user : User.t) (re : RegExp) (success : string)
    (data : unit) :
  outcome (changeMasterPassword userId values) w
  = Returned (Success success data) ->
  find (by_id userId) (users w) = Some user ->
  truthy username = true ->
  new_RegExp ("^" +:+ username +:+ "$") "i" = Some re ->
  find (by_username re) (users w) = Some user ->
  (exists stored,
      find (by_id userId)
        (users (world_after (changeMasterPassword userId values) w))
      = Some (User.set_masterPassword stored user)
      /\ is_encryption_of stored (ChangePasswordFormValues.newPassword values))
  /\ outcome
       (verifyMasterPassword username
          (ChangePasswordFormValues.newPassword values))
       (world_after (changeMasterPassword userId values) w)
     = Returned (Success "Login successful." (userToReturn user))
  /\ forall password,
       password <> ChangePasswordFormValues.newPassword values ->
       is_success
         (outcome (verifyMasterPassword username password)
            (world_after (changeMasterPassword userId values) w))
       = false.
Proof.
  intros Hsuccess Hu Hname Hre Hfind.
  destruct (changeMasterPassword_outcomes userId values w)
    as [(user0 & stored & Hv & Hu0 & _ & _ & Henc & Husers & Hc')|[Hfail _]].
  2:{ rewrite Hsuccess in Hfail. discriminate. }
  rewrite Hu in Hu0. injection Hu0 as <-.
  destruct (changePasswordSchema_inl _ _ Hv) as (_ & _ & Hnew).
  assert (Hfind' :
            find (by_username re)
              (users (world_after (changeMasterPassword userId values) w))
            = Some (User.set_masterPassword stored user)).
  { rewrite Husers. now apply find_update_first_same. }
  split; [|split].
  - exists stored. split; [|assumption].
    rewrite Husers, find_update_first by reflexivity. now rewrite Hu.
  - rewrite verifyMasterPassword_outcome, Hname, Hnew. cbn [negb orb].
    rewrite (getUsersCollection_run _ Hc'), Hre, Hfind'. cbn [fst].
    cbn [User.masterPassword User.set_masterPassword].
    rewrite (password_matches_encryption _ _ _ Henc), String.eqb_refl.
    reflexivity.
  - intros password Hother.
    rewrite verifyMasterPassword_outcome, Hname. cbn [negb orb].
    destruct (truthy password); [|reflexivity]. cbn [negb].
    rewrite (getUsersCollection_run _ Hc'), Hre, Hfind'. cbn [fst].
    cbn [User.masterPassword User.set_masterPassword].
    rewrite (password_matches_encryption _ _ _ Henc).
    destruct (String.eqb_spec (ChangePasswordFormValues.newPassword values)
                password) as [E|E]; [now subst | reflexivity].
Qed.

(** createUser, then verifyMasterPassword.  After a createUser that
    succeeded, a login with the same username and password finds the new
    user exactly when the pattern made of the username matches the
    username itself: it then returns the user createUser returned, and
    otherwise the generic error, the account being out of reach of its
    own credentials. *)
Theorem createUser_then_verifyMasterPassword (values : CreateUserValues.t)
    (w : World) (success : string) (data : UserPublic.t) :
  outcome (createUser values) w = Returned (Success success data) ->
  exists username password re,
    createUserSchema values = Some (username, password)
    /\ new_RegExp ("^" +:+ username +:+ "$") "i" = Some re
    /\ outcome (verifyMasterPassword username password)
         (world_after (createUser values) w)
       = Returned
           (if regex_test re username
            then Success "Login successful." data
            else Error "Invalid username or password.").
Proof.
  intros Hsuccess.
  destruct (createUser_outcomes values w)
    as [(username & password & re & id & stored & Hv & Hre & Hnone & Hout
         & Henc & Husers & Hc')|[Hfail _]].
  2:{ rewrite Hsuccess in Hfail. discriminate. }
  rewrite Hsuccess in Hout. injection Hout as -> ->.
  exists username, password, re. split; [assumption|]. split; [assumption|].
  destruct (createUserSchema_Some _ _ _ Hv) as [Hname Hpass].
  rewrite verifyMasterPassword_outcome, Hname, Hpass. cbn [negb orb].
  rewrite (getUsersCollection_run _ Hc'), Hre, Husers. cbn [fst].
  rewrite (find_app_None _ _ _ Hnone). unfold by_username at 1.
  cbn [User.username].
  destruct (regex_test re username); [|reflexivity].
  cbn [User.masterPassword].
  rewrite (password_matches_encryption _ _ _ Henc), String.eqb_refl.
  reflexivity.
Qed.

(** deleteBank, then the other operations.  After a deleteBank that
    succeeded no record with that id is left: decryptBank, a second
    deleteBank and updateBank (with valid values) answer 'Bank not
    found.' for it, and no item of the list getBanksForUser returns has
    that id. *)
Theorem deleteBank_then_not_found (userId bankId : string) (w : World)
    (success : string) (data : unit) :
  outcome (deleteBank userId bankId) w = Returned (Success success data) ->
  outcome (decryptBank userId bankId)
    (world_after (deleteBank userId bankId) w)
  = Returned (Error "Bank not found.")
  /\ outcome (deleteBank userId bankId)
       (world_after (deleteBank userId bankId) w)
     = Returned (Error "Bank not found.")
  /\ (forall values,
         bankForm_ok values = true ->
         outcome (updateBank userId bankId values)
           (world_after (deleteBank userId bankId) w)
         = Returned (Error "Bank not found."))
  /\ (forall items,
         outcome (getBanksForUser userId)
           (world_after (deleteBank userId bankId) w)
         = Returned items ->
         Forall (fun item => BankListItem.id item <> bankId) items).
Proof.
  intros Hsuccess.
  destruct (deleteBank_outcomes userId bankId w)
    as [(user & Hu & _ & Husers & Hc')|[Hfail _]].
  2:{ rewrite Hsuccess in Hfail. discriminate. }
  set (w' := world_after (deleteBank userId bankId) w) in *.
  set (kept := List.filter (fun b => negb (has_id bankId b)) (User.banks user))
    in *.
  assert (Hu' : find (by_id userId) (users w') = Some (User.set_banks kept user)).
  { rewrite Husers, find_update_first by reflexivity. now rewrite Hu. }
  assert (Hgone : find (has_id bankId) kept = None)
    by apply find_filter_negb.
  split; [|split; [|split]].
  - unfold outcome, decryptBank.
    rewrite (bind_returned _ _ _ _ _ (getUsersCollection_run _ Hc')).
    rewrite (bind_returned _ _ _ _ _ (findOne_run _ _)).
    cbn [users set_client_db]. rewrite Hu'.
    cbn [User.banks User.set_banks]. now rewrite Hgone.
  - unfold outcome. rewrite (deleteBank_run _ _ _ _ Hc' Hu').
    cbv zeta. cbn [User.banks User.set_banks]. unfold kept.
    now rewrite filter_filter_same, Nat.eqb_refl.
  - intros values Hok. unfold outcome, updateBank, bankFormSchema.
    rewrite Hok.
    rewrite (bind_returned _ _ _ _ _ (getUsersCollection_run _ Hc')).
    rewrite (bind_returned _ _ _ _ _ (findOne_run _ _)).
    cbn [users set_client_db]. rewrite Hu'.
    cbn [User.banks User.set_banks].
    now rewrite (findIndex_None _ _ Hgone).
  - intros items Hitems.
    apply (getBanksForUser_listed _ _ _ _ Hc' Hu') in Hitems.
    cbn [User.banks User.set_banks] in Hitems.
    assert (Hkept : Forall (fun b => Bank.id b <> bankId) kept).
    { apply Forall_forall. intros b Hb. apply list_elem_of_In in Hb.
      apply filter_In in Hb as [_ Hb].
      now apply negb_true_iff, has_id_false in Hb. }
    clear -Hitems Hkept.
    induction Hitems as [|b item bs items (Hid & _) _ IH]; constructor.
    + inversion Hkept; subst. congruence.
    + apply IH. now inversion Hkept.
Qed.

End Sequences.

(** ** The invariant of the stored fields *)

Lemma forallb_insert {A} (p : A -> bool) (l : list A) (i : nat) (x : A) :
  forallb p l = true -> p x = true -> forallb p (<[i := x]> l) = true.
Proof.
  intros Hl Hx. revert i. induction l as [|a l IH]; intros i; [reflexivity|].
  cbn in Hl. apply andb_true_iff in Hl as [Ha Hl].
  destruct i as [|i].
  - cbn. now rewrite Hx.
  - change (<[S i := x]> (a :: l)) with (a :: <[i := x]> l).
    cbn. now rewrite Ha, IH.
Qed.

Lemma forallb_filter_keeps {A} (p q : A -> bool) (l : list A) :
  forallb p l = true -> forallb p (List.filter q l) = true.
Proof.
  induction l as [|a l IH]; cbn; [reflexivity|].
  intros [Ha Hl]%andb_true_iff.
  destruct (q a); cbn; [rewrite Ha|]; auto.
Qed.

Lemma forallb_update_first (p filter : User.t -> bool) (f : User.t -> User.t)
    (us : list User.t) :
  forallb p us = true ->
  (forall u, In u us -> filter u = true -> p (f u) = true) ->
  forallb p (update_first filter f us) = true.
Proof.
  induction us as [|u us IH]; cbn [update_first forallb]; [reflexivity|].
  intros [Hu Hus]%andb_true_iff Hf.
  destruct (filter u) eqn:E; cbn [forallb].
  - rewrite (Hf u); [assumption | now left | assumption].
  - rewrite Hu. apply IH; [assumption|].
    intros u' Hin. apply Hf. now right.
Qed.

Section Invariant.
Context `{RegExpEngine} `{NodeCrypto}.
Hypothesis cipher_law : cipher_inverts.

Lemma opens_encryption (blob text : string) :
  is_encryption_of blob text -> opens blob = true.
Proof.
  intros Hb. unfold opens.
  now rewrite (open_blob_encryption cipher_law _ _ Hb).
Qed.

Lemma optional_opens_encryption (blob text : string) :
  is_encryption_of blob text -> optional_opens (Some blob) = true.
Proof.
  intros Hb. unfold optional_opens.
  rewrite (opens_encryption _ _ Hb). now destruct (truthy blob).
Qed.

Lemma field_opens_encrypted (fields fields' : list CustomField.t) :
  Forall2 field_encrypts fields fields' ->
  forallb field_opens fields' = true.
Proof.
  induction 1 as [|f f' fields fields' [Hl Hv] _ IH]; [reflexivity|].
  cbn [forallb]. rewrite IH. unfold field_opens.
  rewrite (opens_encryption _ _ Hl), (opens_encryption _ _ Hv).
  now destruct (truthy (CustomField.value f')).
Qed.

Lemma optional_opens_added (incoming new : option string) :
  optional_added incoming new -> optional_opens new = true.
Proof.
  unfold optional_added. destruct incoming as [s|]; [|now intros ->].
  destruct (truthy s); [|now intros ->].
  intros (c & -> & Hc). now apply (optional_opens_encryption _ s).
Qed.

Lemma optional_opens_policy (incoming old new : option string) :
  optional_policy incoming old new ->
  optional_opens old = true -> optional_opens new = true.
Proof.
  intros [Hreplaced Hkept] Hold.
  assert (Hkeep : ~ nonempty_after_trim incoming -> optional_opens new = true)
    by (intros Hno; now rewrite (Hkept Hno)).
  destruct incoming as [s|].
  2:{ apply Hkeep. intros (s & [=] & _). }
  destruct (String.eqb (trim s) "") eqn:E.
  - apply Hkeep. intros (s' & [= <-] & Hne). now apply String.eqb_eq in E.
  - apply String.eqb_neq in E.
    destruct (Hreplaced s eq_refl E) as (c & -> & Hc).
    now apply (optional_opens_encryption _ s).
Qed.

Lemma bank_opens_added (values : BankFormValues.t) (added : Bank.t) :
  added_from values added -> bank_opens added = true.
Proof.
  intros [Hn Hp Ha Hnu Hmu Hnp Hmp Hpin Hcf]. unfold bank_opens.
  rewrite (opens_encryption _ _ Hn), (opens_encryption _ _ Hp),
    (opens_encryption _ _ Ha), (opens_encryption _ _ Hnu),
    (opens_encryption _ _ Hmu), (optional_opens_added _ _ Hnp),
    (optional_opens_added _ _ Hmp), (optional_opens_added _ _ Hpin).
  cbn [andb].
  destruct (BankFormValues.customFields values) as [fields|].
  - destruct Hcf as (fields' & -> & HF). now apply field_opens_encrypted in HF.
  - now rewrite Hcf.
Qed.

Lemma bank_opens_updated (values : BankFormValues.t)
    (existing updated : Bank.t) :
  updated_from values existing updated ->
  bank_opens existing = true -> bank_opens updated = true.
Proof.
  intros [Hid Hn Hp Ha Hnu Hmu Hnp Hmp Hpin Hcf] Hold.
  unfold bank_opens in Hold.
  repeat match type of Hold with
         | _ && _ = true => apply andb_true_iff in Hold as [Hold ?]
         end.
  unfold bank_opens.
  rewrite (opens_encryption _ _ Hn), (opens_encryption _ _ Hp),
    (opens_encryption _ _ Ha), (opens_encryption _ _ Hnu),
    (opens_encryption _ _ Hmu), (optional_opens_policy _ _ _ Hnp),
    (optional_opens_policy _ _ _ Hmp), (optional_opens_policy _ _ _ Hpin)
    by assumption.
  cbn [andb].
  destruct (BankFormValues.customFields values) as [fields|].
  - destruct Hcf as (fields' & -> & HF). now apply field_opens_encrypted in HF.
  - now rewrite Hcf.
Qed.

(** The invariant of the data model is kept by every operation that
    writes.  When every ciphertext of every stored bank decrypts, it
    still does after addBank, updateBank, deleteBank,
    changeMasterPassword and createUser, whatever their arguments and
    however they end: what they store are encryptions, or ciphertexts
    that were stored before. *)
Theorem writing_operations_keep_fields_decryptable (w : World) :
  store_opens w = true ->
  (forall userId values,
      store_opens (world_after (addBank userId values) w) = true)
  /\ (forall userId bankId values,
         store_opens (world_after (updateBank userId bankId values) w) = true)
  /\ (forall userId bankId,
         store_opens (world_after (deleteBank userId bankId) w) = true)
  /\ (forall userId values,
         store_opens (world_after (changeMasterPassword userId values) w)
         = true)
  /\ (forall values, store_opens (world_after (createUser values) w) = true).
Proof.
  unfold store_opens. intros Hs.
  split; [|split; [|split; [|split]]].
  - intros userId values.
    destruct (addBank_outcomes userId values w)
      as [(user & added & _ & _ & Hfrom & -> & _)|[_ ->]]; [|assumption].
    apply forallb_update_first; [assumption|]. intros u Hin _.
    cbn [push_bank User.banks User.set_banks].
    rewrite forallb_app. cbn [forallb].
    rewrite (bank_opens_added _ _ Hfrom).
    rewrite forallb_forall in Hs. now rewrite (Hs u Hin).
  - intros userId bankId values.
    destruct (updateBank_outcomes userId bankId values w)
      as [(user & i & existing & updated & Hu & Hi & _ & Hfrom & -> & _)
         |[_ ->]]; [|assumption].
    apply forallb_update_first; [assumption|]. intros u _ _.
    cbn [set_banks User.banks User.set_banks].
    apply find_some in Hu as [Hu _].
    rewrite forallb_forall in Hs. specialize (Hs user Hu).
    apply forallb_insert; [assumption|].
    apply (bank_opens_updated _ _ _ Hfrom).
    rewrite forallb_forall in Hs. apply Hs.
    apply findIndex_find, find_some in Hi. apply Hi.
  - intros userId bankId.
    destruct (deleteBank_outcomes userId bankId w)
      as [(user & Hu & _ & -> & _)|[_ ->]]; [|assumption].
    apply forallb_update_first; [assumption|]. intros u _ _.
    cbn [set_banks User.banks User.set_banks].
    apply forallb_filter_keeps.
    apply find_some in Hu as [Hu _].
    rewrite forallb_forall in Hs. now apply Hs.
  - intros userId values.
    destruct (changeMasterPassword_outcomes userId values w)
      as [(user & stored & _ & _ & _ & _ & _ & -> & _)|[_ ->]]; [|assumption].
    apply forallb_update_first; [assumption|]. intros u Hin _.
    cbn [set_masterPassword User.banks User.set_masterPassword].
    rewrite forallb_forall in Hs. now apply Hs.
  - intros values.
    destruct (createUser_outcomes values w)
      as [(username & password & re & id & stored & _ & _ & _ & _ & _ & ->
           & _)|[_ ->]]; [|assumption].
    rewrite forallb_app. cbn. now rewrite Hs.
Qed.

End Invariant.

(** ** addBank, then decryptBank *)

Section AddThenReveal.
Context `{RegExpEngine} `{NodeCrypto}.
Hypothesis cipher_law : cipher_inverts.

Lemma reveal_optional_added (incoming new : option string) :
  optional_added incoming new ->
  reveal_optional new = Some (Some (submitted_or_NA incoming)).
Proof.
  unfold optional_added, submitted_or_NA.
  destruct incoming as [s|]; [|now intros ->].
  destruct (truthy s); [|now intros ->].
  intros (c & -> & Hc). now apply (reveal_optional_encryption cipher_law).
Qed.

Lemma revealed_added (values : BankFormValues.t) (added : Bank.t) :
  added_from values added ->
  revealed added
  = Some (Bank.mk (Bank.id added) (BankFormValues.bankName values)
            (BankFormValues.phoneForOtp values)
            (BankFormValues.accountNumber values)
            (BankFormValues.netBankingUsername values)
            (Some (submitted_or_NA (BankFormValues.netBankingPassword values)))
            (BankFormValues.mobileBankingUsername values)
            (Some (submitted_or_NA
                     (BankFormValues.mobileBankingPassword values)))
            (Some (submitted_or_NA (BankFormValues.atmPin values)))
            (BankFormValues.customFields values)).
Proof.
  intros [Hn Hp Ha Hnu Hmu Hnp Hmp Hpin Hcf]. unfold revealed.
  rewrite (open_blob_encryption cipher_law _ _ Hn),
    (open_blob_encryption cipher_law _ _ Hp),
    (open_blob_encryption cipher_law _ _ Ha),
    (open_blob_encryption cipher_law _ _ Hnu),
    (open_blob_encryption cipher_law _ _ Hmu),
    (reveal_optional_added _ _ Hnp), (reveal_optional_added _ _ Hmp),
    (reveal_optional_added _ _ Hpin).
  destruct (BankFormValues.customFields values) as [fields|].
  - destruct Hcf as (fields' & -> & HF).
    now rewrite (reveal_fields_encrypted cipher_law _ _ HF).
  - now rewrite Hcf.
Qed.

(** addBank, then decryptBank of the record it added, the id drawn for
    it being the id of no bank the user had: decryptBank shows every
    value as it was submitted, 'N/A' for an optional value that was left
    out or empty, and the custom fields as submitted. *)
Theorem addBank_then_decryptBank (userId : string)
    (values : BankFormValues.t) (w : World) (user : User.t) :
  bankForm_ok values = true ->
  connects w = true ->
  find (by_id userId) (users w) = Some user ->
  exists added,
    find (by_id userId) (users (world_after (addBank userId values) w))
    = Some (User.set_banks (User.banks user ++ [added])%list user)
    /\ (Forall (fun b => Bank.id b <> Bank.id added) (User.banks user) ->
        outcome (decryptBank userId (Bank.id added))
          (world_after (addBank userId values) w)
        = Returned
            (Success "Bank decrypted."
               (Bank.mk (Bank.id added) (BankFormValues.bankName values)
                  (BankFormValues.phoneForOtp values)
                  (BankFormValues.accountNumber values)
                  (BankFormValues.netBankingUsername values)
                  (Some (submitted_or_NA
                           (BankFormValues.netBankingPassword values)))
                  (BankFormValues.mobileBankingUsername values)
                  (Some (submitted_or_NA
                           (BankFormValues.mobileBankingPassword values)))
                  (Some (submitted_or_NA (BankFormValues.atmPin values)))
                  (BankFormValues.customFields values)))).
Proof.
  intros Hok Hc Hu.
  destruct (returns_outcome _ _ _ (addBank_returns _ _ _ _ Hok Hc Hu))
    as (result & _ & _ & added & Hfrom & Husers & Hc').
  assert (Hu' : find (by_id userId)
                  (users (world_after (addBank userId values) w))
                = Some (User.set_banks (User.banks user ++ [added]) user)).
  { rewrite Husers, find_update_first by reflexivity. now rewrite Hu. }
  exists added. split; [assumption|]. intros Hfresh.
  assert (Hbank : find (has_id (Bank.id added))
                    (User.banks
                       (User.set_banks (User.banks user ++ [added]) user))
                  = Some added).
  { cbn [User.banks User.set_banks]. rewrite find_app_None.
    - unfold has_id. now rewrite String.eqb_refl.
    - clear -Hfresh. induction Hfresh as [|b bs Hb _ IH]; [reflexivity|].
      cbn [find]. apply has_id_false in Hb. now rewrite Hb. }
  unfold outcome. rewrite (decryptBank_run _ _ _ _ _ Hc' Hu' Hbank).
  now rewrite (revealed_added _ _ Hfrom).
Qed.

End AddThenReveal.

(** ** The list view after a write, and addBank undone *)

Lemma update_first_twice (filter : User.t -> bool) (f g : User.t -> User.t)
    (us : list User.t) :
  (forall u, filter (g u) = filter u) ->
  update_first filter f (update_first filter g us)
  = update_first filter (fun u => f (g u)) us.
Proof.
  intros Hg. induction us as [|u us IH]; cbn; [reflexivity|].
  destruct (filter u) eqn:E; cbn.
  - now rewrite Hg, E.
  - now rewrite E, IH.
Qed.

Lemma update_first_fixes (filter : User.t -> bool) (h : User.t -> User.t)
    (us : list User.t) (u : User.t) :
  find filter us = Some u -> h u = u -> update_first filter h us = us.
Proof.
  intros Hu Hh. induction us as [|a us IH]; cbn in *; [reflexivity|].
  destruct (filter a).
  - injection Hu as ->. now rewrite Hh.
  - now rewrite IH.
Qed.

Lemma Forall2_filter_related {A B} (R : A -> B -> Prop) (p : A -> bool)
    (q : B -> bool) (l : list A) (k : list B) :
  (forall a b, R a b -> p a = q b) ->
  Forall2 R l k -> Forall2 R (List.filter p l) (List.filter q k).
Proof.
  intros Hpq. induction 1 as [|a b l k Hab _ IH]; cbn; [constructor|].
  rewrite (Hpq a b Hab). destruct (q b); [now constructor | assumption].
Qed.

Section ListAfterWrite.
Context `{RegExpEngine} `{NodeCrypto}.
Hypothesis cipher_law : cipher_inverts.

(** updateBank, then getBanksForUser: the list is the list returned
    before with the item of the updated record, at its place, carrying
    the name and the account number as submitted; the other items are
    the same. *)
Theorem updateBank_then_getBanksForUser (userId bankId : string)
    (values : BankFormValues.t) (w : World) (user : User.t) (i : nat)
    (existing : Bank.t) (items : list BankListItem.t) :
  bankForm_ok values = true ->
  connects w = true ->
  find (by_id userId) (users w) = Some user ->
  findIndex (has_id bankId) (User.banks user) = Some (i, existing) ->
  outcome (getBanksForUser userId) w = Returned items ->
  outcome (getBanksForUser userId)
    (world_after (updateBank userId bankId values) w)
  = Returned
      (<[i := BankListItem.mk bankId (BankFormValues.bankName values)
               (BankFormValues.accountNumber values)]> items).
Proof.
  intros Hok Hc Hu Hi Hitems.
  apply (getBanksForUser_listed _ _ _ _ Hc Hu) in Hitems.
  destruct (updateBank_effect _ _ _ _ _ _ _ Hok Hc Hu Hi)
    as (updated & _ & Hu' & Hfrom & Hc').
  apply (getBanksForUser_listed _ _ _ _ Hc' Hu').
  cbn [User.banks User.set_banks].
  apply Forall2_insert; [assumption|].
  destruct (findIndex_Some _ _ _ _ Hi) as (_ & Hid%has_id_true & _).
  repeat split; cbn.
  - now rewrite (upd_id _ _ _ Hfrom).
  - apply (open_blob_encryption cipher_law), (upd_bankName _ _ _ Hfrom).
  - apply (open_blob_encryption cipher_law), (upd_accountNumber _ _ _ Hfrom).
Qed.

(** deleteBank, then getBanksForUser: the list is the list returned
    before without the items of that id, the others in their order. *)
Theorem deleteBank_then_getBanksForUser (userId bankId : string) (w : World)
    (items : list BankListItem.t) (success : string) (data : unit) :
  outcome (getBanksForUser userId) w = Returned items ->
  outcome (deleteBank userId bankId) w = Returned (Success success data) ->
  outcome (getBanksForUser userId) (world_after (deleteBank userId bankId) w)
  = Returned
      (List.filter
         (fun item => negb (String.eqb (BankListItem.id item) bankId)) items).
Proof.
  intros Hitems Hsuccess.
  destruct (deleteBank_outcomes userId bankId w)
    as [(user & Hu & _ & Husers & Hc')|[Hfail _]].
  2:{ rewrite Hsuccess in Hfail. discriminate. }
  assert (Hc : connects w = true).
  { destruct (connects w) eqn:Hc; [reflexivity|].
    destruct (getUsersCollection_fails w Hc) as (e & _ & He).
    unfold outcome, deleteBank in Hsuccess.
    rewrite (bind_thrown _ _ _ _ _ He) in Hsuccess. discriminate. }
  apply (getBanksForUser_listed _ _ _ _ Hc Hu) in Hitems.
  assert (Hu' : find (by_id userId)
                  (users (world_after (deleteBank userId bankId) w))
                = Some (User.set_banks
                          (List.filter (fun b => negb (has_id bankId b))
                             (User.banks user)) user)).
  { rewrite Husers, find_update_first by reflexivity. now rewrite Hu. }
  apply (getBanksForUser_listed _ _ _ _ Hc' Hu').
  cbn [User.banks User.set_banks].
  apply Forall2_filter_related; [|assumption].
  intros b item (Hid & _). unfold has_id. now rewrite Hid.
Qed.

(** addBank undone by deleteBank.  When the id drawn for the record
    that addBank added is the id of none of the user's earlier banks,
    deleteBank of that id succeeds and leaves the collection exactly as it
    was before addBank. *)
Theorem addBank_then_deleteBank (userId : string)
    (values : BankFormValues.t) (w : World) (user : User.t) :
  bankForm_ok values = true ->
  connects w = true ->
  find (by_id userId) (users w) = Some user ->
  exists added,
    find (by_id userId) (users (world_after (addBank userId values) w))
    = Some (User.set_banks (User.banks user ++ [added])%list user)
    /\ (Forall (fun b => Bank.id b <> Bank.id added) (User.banks user) ->
        outcome (deleteBank userId (Bank.id added))
          (world_after (addBank userId values) w)
        = Returned (Success "Bank deleted successfully." tt)
        /\ users
             (world_after (deleteBank userId (Bank.id added))
                (world_after (addBank userId values) w))
           = users w).
Proof.
  intros Hok Hc Hu.
  destruct (returns_outcome _ _ _ (addBank_returns _ _ _ _ Hok Hc Hu))
    as (result & _ & _ & added & Hfrom & Husers & Hc').
  assert (Hu' : find (by_id userId)
                  (users (world_after (addBank userId values) w))
                = Some (User.set_banks (User.banks user ++ [added]) user)).
  { rewrite Husers, find_update_first by reflexivity. now rewrite Hu. }
  exists added. split; [assumption|]. intros Hfresh.
  assert (Hkept : List.filter (fun b => negb (has_id (Bank.id added) b))
                    (User.banks user ++ [added])
                  = User.banks user).
  { rewrite List.filter_app. cbn [List.filter]. unfold has_id at 2.
    rewrite String.eqb_refl. cbn [negb]. rewrite app_nil_r.
    apply forallb_filter_id, forallb_forall. intros b Hb.
    rewrite Forall_forall in Hfresh.
    apply negb_true_iff, has_id_false, Hfresh. now apply list_elem_of_In. }
  set (w1 := world_after (addBank userId values) w) in *.
  unfold outcome, world_after.
  rewrite (deleteBank_run _ _ _ _ Hc' Hu'). cbv zeta.
  cbn [User.banks User.set_banks]. rewrite Hkept, last_length.
  replace (length (User.banks user) =? S (length (User.banks user)))%nat
    with false by (symmetry; apply Nat.eqb_neq; lia).
  cbn [fst snd users set_users set_client_db].
  split; [reflexivity|].
  rewrite Husers, update_first_twice by reflexivity.
  apply (update_first_fixes _ _ _ user); [assumption|].
  now destruct user.
Qed.

End ListAfterWrite.

(** ** What is stored went through the schema *)

Section Validated.
Context `{RegExpEngine} `{NodeCrypto}.

Lemma addBank_success_valid (userId : string) (values : BankFormValues.t)
    (w : World) (success : string) (data : unit) :
  outcome (addBank userId values) w = Returned (Success success data) ->
  bankForm_ok values = true.
Proof.
  unfold outcome, addBank, bankFormSchema.
  destruct (bankForm_ok values); [reflexivity | discriminate].
Qed.

Lemma updateBank_success_valid (userId bankId : string)
    (values : BankFormValues.t) (w : World) (success : string) (data : unit) :
  outcome (updateBank userId bankId values) w
  = Returned (Success success data) ->
  bankForm_ok values = true.
Proof.
  unfold outcome, updateBank, bankFormSchema.
  destruct (bankForm_ok values); [reflexivity | discriminate].
Qed.

Lemma bankForm_ok_phone (values : BankFormValues.t) :
  bankForm_ok values = true ->
  phone_ok (BankFormValues.phoneForOtp values) = true.
Proof.
  unfold bankForm_ok. intros Hok.
  repeat match type of Hok with
         | _ && _ = true => apply andb_true_iff in Hok as [Hok ?]
         end.
  assumption.
Qed.

Lemma bankForm_ok_pin (values : BankFormValues.t) (pin : string) :
  bankForm_ok values = true ->
  BankFormValues.atmPin values = Some pin ->
  truthy pin = true ->
  pin_ok pin = true.
Proof.
  unfold bankForm_ok. intros Hok Hpin Ht.
  repeat match type of Hok with
         | _ && _ = true => apply andb_true_iff in Hok as [Hok ?]
         end.
  assert (Hp : pin_ok pin || String.eqb pin "" = true).
  { match goal with
    | Hm : match BankFormValues.atmPin values with _ => _ end = true |- _ =>
        now rewrite Hpin in Hm
    end. }
  apply orb_true_iff in Hp as [Hp|Hp]; [assumption|].
  unfold truthy in Ht. now rewrite Hp in Ht.
Qed.

(** Only what the schema accepted is stored.  The phoneForOtp of the
    record a successful addBank or updateBank writes is an encryption of
    a phone number of the accepted format; an atmPin that addBank stores
    is an encryption of four digits, and the atmPin after an updateBank
    is an encryption of four digits or the ciphertext stored before. *)
Theorem stored_phone_and_pin_are_validated (userId bankId : string)
    (values : BankFormValues.t) (w : World) (success : string) (data : unit) :
  (outcome (addBank userId values) w = Returned (Success success data) ->
   exists user added,
     find (by_id userId) (users w) = Some user
     /\ find (by_id userId) (users (world_after (addBank userId values) w))
        = Some (User.set_banks (User.banks user ++ [added])%list user)
     /\ (exists phone,
            is_encryption_of (Bank.phoneForOtp added) phone
            /\ phone_ok phone = true)
     /\ (forall c,
            Bank.atmPin added = Some c ->
            exists pin, is_encryption_of c pin /\ pin_ok pin = true))
  /\ (outcome (updateBank userId bankId values) w
      = Returned (Success success data) ->
      exists user i existing updated,
        find (by_id userId) (users w) = Some user
        /\ findIndex (has_id bankId) (User.banks user) = Some (i, existing)
        /\ find (by_id userId)
             (users (world_after (updateBank userId bankId values) w))
           = Some (User.set_banks (<[i := updated]> (User.banks user)) user)
        /\ (exists phone,
               is_encryption_of (Bank.phoneForOtp updated) phone
               /\ phone_ok phone = true)
        /\ (Bank.atmPin updated = Bank.atmPin existing
            \/ exists c pin,
                 Bank.atmPin updated = Some c
                 /\ is_encryption_of c pin /\ pin_ok pin = true)).
Proof.
  split.
  - intros Hsuccess.
    pose proof (addBank_success_valid _ _ _ _ _ Hsuccess) as Hok.
    destruct (addBank_outcomes userId values w)
      as [(user & added & Hu & _ & Hfrom & Husers & _)|[Hfail _]].
    2:{ rewrite Hsuccess in Hfail. discriminate. }
    exists user, added. split; [assumption|]. split.
    { rewrite Husers, find_update_first by reflexivity. now rewrite Hu. }
    split.
    + exists (BankFormValues.phoneForOtp values).
      split; [apply Hfrom | now apply bankForm_ok_phone].
    + intros c Hc. pose proof (add_atmPin _ _ Hfrom) as Hpin.
      unfold optional_added in Hpin.
      destruct (BankFormValues.atmPin values) as [pin|] eqn:Epin;
        [|congruence].
      destruct (truthy pin) eqn:Et; [|congruence].
      destruct Hpin as (c' & Hc' & Henc).
      rewrite Hc in Hc'. injection Hc' as <-.
      exists pin. split; [assumption|].
      now apply (bankForm_ok_pin values).
  - intros Hsuccess.
    pose proof (updateBank_success_valid _ _ _ _ _ _ Hsuccess) as Hok.
    destruct (updateBank_outcomes userId bankId values w)
      as [(user & i & existing & updated & Hu & Hi & _ & Hfrom & Husers & _)
         |[Hfail _]].
    2:{ rewrite Hsuccess in Hfail. discriminate. }
    exists user, i, existing, updated.
    split; [assumption|]. split; [assumption|]. split.
    { rewrite Husers, find_update_first by reflexivity. now rewrite Hu. }
    split.
    + exists (BankFormValues.phoneForOtp values).
      split; [apply Hfrom | now apply bankForm_ok_phone].
    + destruct (upd_atmPin _ _ _ Hfrom) as [Hreplaced Hkept].
      destruct (BankFormValues.atmPin values) as [pin|] eqn:Epin.
      2:{ left. apply Hkept. intros (s & [=] & _). }
      destruct (String.eqb (trim pin) "") eqn:E.
      * left. apply Hkept. intros (s & [= <-] & Hne).
        now apply String.eqb_eq in E.
      * apply String.eqb_neq in E.
        destruct (Hreplaced pin eq_refl E) as (c & Hc & Henc).
        right. exists c, pin. split; [assumption|]. split; [assumption|].
        apply (bankForm_ok_pin values); [assumption | assumption|].
        destruct pin; [now contradiction E | reflexivity].
Qed.

End Validated.

(** ** The cached handle of the gateway *)

(** The gateway connects once.  After a call of getUsersCollection that
    answered, the handle is cached: a further call answers whether or
    not the server still does, and changes nothing; without a
    MONGODB_URI a call throws the configuration error even then, the
    variable being checked first; and after closeDatabaseConnection a
    call has to reach the server again. *)
Theorem getUsersCollection_connects_once (w : World) :
  connects w = true ->
  (forall up,
      outcome getUsersCollection
        (set_mongo_up up (world_after getUsersCollection w))
      = Returned tt)
  /\ world_after getUsersCollection (world_after getUsersCollection w)
     = world_after getUsersCollection w
  /\ (forall uri,
         otruthy uri = false ->
         outcome getUsersCollection
           (set_MONGODB_URI uri (world_after getUsersCollection w))
         = Thrown ConfigError)
  /\ (forall up,
         outcome getUsersCollection
           (world_after closeDatabaseConnection
              (set_mongo_up up (world_after getUsersCollection w)))
         = if up then Returned tt else Thrown MongoError)
  /\ users (world_after closeDatabaseConnection w) = users w.
Proof.
  intros Hc.
  assert (Hw : world_after getUsersCollection w = set_client_db true w)
    by (unfold world_after; now rewrite (getUsersCollection_run w Hc)).
  rewrite !Hw. clear Hw. unfold connects in Hc.
  destruct w as [uri up0 cached us e n]; cbn in Hc |- *.
  destruct uri as [uri|]; [|discriminate].
  destruct (truthy uri) eqn:Et; [|discriminate].
  unfold outcome, world_after, getUsersCollection, bind, connectToDatabase,
    closeDatabaseConnection.
  cbn. rewrite Et. cbn.
  split; [reflexivity|]. split; [reflexivity|].
  split; [|split; [intros []; reflexivity | reflexivity]].
  intros [uri'|]; cbn; [|reflexivity].
  now intros ->.
Qed.

(** ** The search box and the export of the list view *)

Lemma string_app_cons (x : ascii) (a b : string) :
  String x a +:+ b = String x (a +:+ b).
Proof. reflexivity. Qed.

Lemma string_app_assoc (a b c : string) : (a +:+ b) +:+ c = a +:+ (b +:+ c).
Proof.
  induction a as [|x a IH]; [reflexivity|].
  rewrite !string_app_cons. congruence.
Qed.

Lemma string_app_empty (a : string) : a +:+ "" = a.
Proof.
  induction a as [|x a IH]; [reflexivity|].
  rewrite string_app_cons. congruence.
Qed.



Lemma includes_unfold (s sub : string) :
  includes s sub
  = starts_with sub s
    || match s with String _ s' => includes s' sub | EmptyString => false end.
Proof. destruct s; reflexivity. Qed.
















Lemma includes_unit (c a : ascii) (s : string) :
  includes (String a s) (String c "")
  = Ascii.eqb c a || includes s (String c "").
Proof.
  rewrite includes_unfold. cbn [starts_with]. now rewrite andb_true_r.
Qed.

Lemma string_app_inv_head (a x y : string) : a +:+ x = a +:+ y -> x = y.
Proof.
  induction a as [|c a IH]; [auto|].
  rewrite !string_app_cons. intros [= Heq]. auto.
Qed.

Lemma read_quoted_doubled (v : string) (t : option (ascii * string)) :
  delimited t ->
  read_quoted (double_the_quotes v +:+ String double_quote (after_field t))
  = (v, t).
Proof.
  intros Ht. induction v as [|c v IH].
  - change (read_quoted (String double_quote (after_field t)) = ("", t)).
    cbn [read_quoted]. rewrite Ascii.eqb_refl.
    destruct t as [[d rest]|]; [|reflexivity].
    destruct Ht as [-> | ->]; reflexivity.
  - cbn [double_the_quotes]. destruct (Ascii.eqb c double_quote) eqn:E.
    + apply Ascii.eqb_eq in E. subst c. rewrite !string_app_cons.
      cbn [read_quoted]. rewrite !Ascii.eqb_refl, IH. reflexivity.
    + rewrite string_app_cons. cbn [read_quoted]. rewrite E, IH.
      reflexivity.
Qed.

Lemma read_plain_plain (v : string) (t : option (ascii * string)) :
  includes v "," = false ->
  includes v (String line_feed "") = false ->
  delimited t ->
  read_plain (v +:+ after_field t) = (v, t).
Proof.
  intros Hc Hl Ht. induction v as [|c v IH].
  - change (read_plain (after_field t) = ("", t)).
    destruct t as [[d rest]|]; [|reflexivity].
    destruct Ht as [-> | ->]; reflexivity.
  - rewrite includes_unit in Hc, Hl.
    apply orb_false_iff in Hc as [Hc Hc'], Hl as [Hl Hl'].
    rewrite string_app_cons. cbn [read_plain].
    rewrite (Ascii.eqb_sym c ","%char), Hc, (Ascii.eqb_sym c line_feed), Hl.
    cbn [orb]. now rewrite IH.
Qed.

Lemma read_field_escapeCSV (v : string) (t : option (ascii * string)) :
  delimited t -> read_field (escapeCSV v +:+ after_field t) = (v, t).
Proof.
  intros Ht. unfold escapeCSV.
  destruct (includes v "," || includes v (String double_quote "")
            || includes v (String line_feed "")) eqn:E.
  - rewrite string_app_cons, string_app_assoc.
    change (String double_quote "" +:+ after_field t)
      with (String double_quote (after_field t)).
    cbn [read_field]. rewrite Ascii.eqb_refl.
    now apply read_quoted_doubled.
  - apply orb_false_iff in E as [E El].
    apply orb_false_iff in E as [Ec Eq].
    destruct v as [|c v].
    + change (read_field (after_field t) = ("", t)).
      destruct t as [[d rest]|]; [|reflexivity].
      destruct Ht as [-> | ->]; reflexivity.
    + pose proof Eq as Eq'. rewrite includes_unit in Eq'.
      apply orb_false_iff in Eq' as [Eq' _].
      rewrite string_app_cons. cbn [read_field].
      rewrite (Ascii.eqb_sym c double_quote), Eq'.
      rewrite <- string_app_cons. now apply read_plain_plain.
Qed.

Lemma csv_lines_cons (b : BankListItem.t) (l : list BankListItem.t) :
  String.concat (String line_feed "")
    (map (fun row => String.concat "," (map escapeCSV row)) (rows (b :: l)))
  = escapeCSV (BankListItem.bankName b)
    +:+ after_field
          (Some (","%char,
                 escapeCSV (BankListItem.accountNumber b)
                 +:+ after_field
                       match l with
                       | [] => None
                       | _ :: _ =>
                           Some (line_feed,
                                 String.concat (String line_feed "")
                                   (map (fun row =>
                                           String.concat "," (map escapeCSV row))
                                        (rows l)))
                       end)).
Proof.
  destruct l as [|b' l].
  - cbn [after_field]. rewrite string_app_empty. reflexivity.
  - cbn [after_field].
    change (String.concat (String line_feed "")
              (map (fun row => String.concat "," (map escapeCSV row))
                 (rows (b :: b' :: l))))
      with ((escapeCSV (BankListItem.bankName b)
             +:+ String ","%char (escapeCSV (BankListItem.accountNumber b)))
            +:+ String line_feed
                  (String.concat (String line_feed "")
                     (map (fun row => String.concat "," (map escapeCSV row))
                        (rows (b' :: l))))).
    rewrite string_app_assoc. reflexivity.
Qed.

Lemma csv_lines_inj (l l' : list BankListItem.t) :
  String.concat (String line_feed "")
    (map (fun row => String.concat "," (map escapeCSV row)) (rows l))
  = String.concat (String line_feed "")
      (map (fun row => String.concat "," (map escapeCSV row)) (rows l')) ->
  rows l = rows l'.
Proof.
  revert l'. induction l as [|b l IH]; intros [|b' l'] Heq.
  - reflexivity.
  - rewrite csv_lines_cons in Heq. apply (f_equal read_field) in Heq.
    rewrite read_field_escapeCSV in Heq by now left. discriminate.
  - rewrite csv_lines_cons in Heq. apply (f_equal read_field) in Heq.
    rewrite read_field_escapeCSV in Heq by now left. discriminate.
  - rewrite !csv_lines_cons in Heq. apply (f_equal read_field) in Heq.
    rewrite !read_field_escapeCSV in Heq by now left.
    injection Heq as Hname Hrest.
    apply (f_equal read_field) in Hrest.
    rewrite !read_field_escapeCSV in Hrest
      by (match goal with |- delimited (match ?x with _ => _ end) =>
            destruct x end; cbn; auto).
    injection Hrest as Haccount Hafter.
    change (rows (b :: l))
      with ([BankListItem.bankName b; BankListItem.accountNumber b] :: rows l).
    change (rows (b' :: l'))
      with ([BankListItem.bankName b'; BankListItem.accountNumber b']
              :: rows l').
    rewrite Hname, Haccount. f_equal.
    destruct l as [|b0 l], l' as [|b0' l']; try discriminate;
      [reflexivity|].
    injection Hafter as Hafter. now apply IH.
Qed.

(** The export of the list view loses nothing.  escapeCSV maps
    different values to different fields, and exportToCSV maps lists that
    differ in a name or an account number, or in their length, to
    different files: the commas, quotes and line feeds inside a value
    cannot be taken for those that separate fields and rows. *)
Theorem exportToCSV_loses_nothing :
  (forall value value', escapeCSV value = escapeCSV value' -> value = value')
  /\ (forall banks banks',
         exportToCSV banks = exportToCSV banks' -> rows banks = rows banks').
Proof.
  split.
  - intros value value' Heq.
    pose proof (read_field_escapeCSV value None I) as Hv.
    pose proof (read_field_escapeCSV value' None I) as Hv'.
    cbn [after_field] in Hv, Hv'. rewrite string_app_empty in Hv, Hv'.
    congruence.
  - intros [|b l] [|b' l']; cbn [exportToCSV]; try discriminate;
      [reflexivity|].
    intros Hsome.
    assert (Heq : csvContent (b :: l) = csvContent (b' :: l'))
      by congruence.
    clear Hsome. apply csv_lines_inj. unfold csvContent in Heq.
    change (String.concat (String line_feed "")
              (String.concat "," (map escapeCSV headers)
               :: map (fun row => String.concat "," (map escapeCSV row))
                    (rows (b :: l))))
      with (String.concat "," (map escapeCSV headers)
            +:+ String line_feed
                  (String.concat (String line_feed "")
                     (map (fun row => String.concat "," (map escapeCSV row))
                        (rows (b :: l))))) in Heq.
    change (String.concat (String line_feed "")
              (String.concat "," (map escapeCSV headers)
               :: map (fun row => String.concat "," (map escapeCSV row))
                    (rows (b' :: l'))))
      with (String.concat "," (map escapeCSV headers)
            +:+ String line_feed
                  (String.concat (String line_feed "")
                     (map (fun row => String.concat "," (map escapeCSV row))
                        (rows (b' :: l'))))) in Heq.
    apply (string_app_inv_head (String.concat "," (map escapeCSV headers)))
      in Heq.
    now injection Heq.
Qed.

(** ** The initials of the header *)

Lemma split_spaces_cons (name : string) :
  exists n ns, split_spaces name = n :: ns.
Proof.
  induction name as [|c s (n & ns & IH)]; cbn [split_spaces]; [eauto|].
  destruct (Ascii.eqb c " "); [eauto|]. rewrite IH. eauto.
Qed.

Lemma split_spaces_parts (name : string) :
  Forall (fun n =>
            forall c, In c (list_ascii_of_string n) ->
                      c <> " "%char /\ In c (list_ascii_of_string name))
         (split_spaces name).
Proof.
  induction name as [|c s IH]; cbn [split_spaces].
  - constructor; [|constructor]. intros c [].
  - assert (IH' : Forall
                    (fun n =>
                       forall c0, In c0 (list_ascii_of_string n) ->
                                  c0 <> " "%char
                                  /\ In c0 (list_ascii_of_string (String c s)))
                    (split_spaces s)).
    { clear -IH. induction IH as [|n ns Hn _ IHns]; constructor; auto.
      intros c0 Hc0. destruct (Hn c0 Hc0). split; [assumption | now right]. }
    destruct (Ascii.eqb c " ") eqn:E.
    + constructor; [intros c0 [] | exact IH'].
    + apply Ascii.eqb_neq in E.
      destruct (split_spaces s) as [|n ns].
      * constructor; [|constructor].
        intros c0 [<-|[]]. split; [assumption | now left].
      * inversion IH' as [|? ? Hn Hns]; subst. constructor; [|assumption].
        intros c0 [<-|Hc0]; [split; [assumption | now left]|].
        now apply Hn.
Qed.

Lemma split_spaces_word (name : string) :
  ~ In " "%char (list_ascii_of_string name) -> split_spaces name = [name].
Proof.
  induction name as [|c s IH]; cbn [split_spaces list_ascii_of_string];
    [reflexivity|].
  intros Hno. destruct (Ascii.eqb_spec c " ") as [->|_].
  - exfalso. apply Hno. now left.
  - rewrite IH; [reflexivity|]. intros Hin. apply Hno. now right.
Qed.

Lemma getInitials_parts (name : string) :
  getInitials name
  = match split_spaces name with
    | [] => ""
    | [n] => first_unit n
    | n :: m :: _ => first_unit n +:+ first_unit m
    end.
Proof.
  unfold getInitials.
  destruct (split_spaces name) as [|n [|m rest]]; reflexivity.
Qed.

(** The initials of the avatar.  getInitials gives at most two
    characters, each of them a character of the name that is no space;
    the first is the first character of a name that does not start with a
    space, and a name without a space, as usernames mostly are, gives
    that character alone. *)
Theorem getInitials_of_name (name : string) :
  (String.length (getInitials name) <= 2)%nat
  /\ (forall c,
         In c (list_ascii_of_string (getInitials name)) ->
         c <> " "%char /\ In c (list_ascii_of_string name))
  /\ (forall c s,
         name = String c s -> c <> " "%char ->
         exists t, getInitials name = String c t)
  /\ (forall c s,
         name = String c s ->
         ~ In " "%char (list_ascii_of_string name) ->
         getInitials name = String c "").
Proof.
  rewrite getInitials_parts.
  pose proof (split_spaces_parts name) as Hparts.
  split; [|split; [|split]].
  - destruct (split_spaces name) as [|[|c1 n] [|[|c2 m] rest]]; cbv; lia.
  - intros c.
    destruct (split_spaces name) as [|n [|m rest]]; [intros []| |].
    + inversion Hparts as [|? ? Hn _]; subst.
      destruct n as [|c1 n]; [intros []|].
      intros [<-|[]]. apply Hn. now left.
    + inversion Hparts as [|? ? Hn Hrest]; subst.
      inversion Hrest as [|? ? Hm _]; subst.
      destruct n as [|c1 n], m as [|c2 m]; cbn.
      * intros [].
      * intros [<-|[]]. apply Hm. now left.
      * intros [<-|[]]. apply Hn. now left.
      * intros [<-|[<-|[]]]; [apply Hn | apply Hm]; now left.
  - intros c s -> Hc. cbn [split_spaces].
    destruct (Ascii.eqb_spec c " ") as [E|_]; [contradiction|].
    destruct (split_spaces_cons s) as (n & ns & ->).
    destruct ns as [|m rest]; cbn [first_unit]; eauto.
  - intros c s -> Hno. now rewrite (split_spaces_word _ Hno).
Qed.

(** * The theorems on the vault *)



(** C2 on the vault: blank secrets keep the stored ciphertexts. *)
Lemma updateBank_field_policy_witness :
  exists user' updated,
    find (by_id "u1")
      (users (world_after (updateBank "u1" "b1" rename_form) vault_world))
    = Some user'
    /\ User.banks user' !! 0%nat = Some updated
    /\ is_encryption_of (Bank.bankName updated) "HDFC"
    /\ Bank.atmPin updated = Some (sealed "1234")
    /\ Bank.netBankingPassword updated = Some (sealed "n3t-secret").
Proof.
  destruct (updateBank_field_policy "u1" "b1" rename_form vault_world
              "Bank updated successfully." tt)
    as (user & i & existing & user' & updated & Hu & Hi & Hfind & Hat
        & Hname & _ & _ & _ & _ & Hnet & _ & Hpin);
    [vm_compute; reflexivity|].
  injection Hu as <-. injection Hi as <- <-.
  exists user', updated. repeat (split; [assumption|]). split.
  - apply Hpin. intros (s & [= <-] & Hne). now apply Hne.
  - apply Hnet. intros (s & [= <-] & Hne). now apply Hne.
Defined.

(** C10 on the vault. *)
Lemma updateBank_preserves_structure_witness :
  exists user' updated,
    find (by_id "u1")
      (users (world_after (updateBank "u1" "b2" new_pin_form) vault_world))
    = Some user'
    /\ length (User.banks user') = 2%nat
    /\ User.banks user' !! 1%nat = Some updated
    /\ Bank.id updated = "b2"
    /\ User.banks user' !! 0%nat = Some hdfc
    /\ Bank.customFields updated = None.
Proof.
  destruct (updateBank_preserves_structure "u1" "b2" new_pin_form vault_world
              "Bank updated successfully." tt)
    as (user & i & existing & user' & updated & Hu & Hfind & Hlen & _ & Hat
        & _ & Hid & Hi & _ & Hrest & Hcf);
    [vm_compute; reflexivity|].
  injection Hu as <-. injection Hi as <- <-.
  exists user', updated. split; [assumption|]. split; [assumption|].
  split; [assumption|]. split; [assumption|].
  split; [now rewrite Hrest | now apply Hcf].
Defined.


(** C6 on the vault. *)
Lemma deleteBank_removes_by_id_witness :
  (outcome (deleteBank "u1" "b7") vault_world
   = Returned (Error "Bank not found.")
   /\ users (world_after (deleteBank "u1" "b7") vault_world)
      = users vault_world)
  /\ exists kept,
       outcome (deleteBank "u1" "b1") vault_world
       = Returned (Success "Bank deleted successfully." tt)
       /\ find (by_id "u1")
            (users (world_after (deleteBank "u1" "b1") vault_world))
          = Some (User.set_banks kept alice)
       /\ sublist kept [hdfc; sbi].
Proof.
  split.
  - destruct (deleteBank_removes_by_id "u1" "b7" vault_world alice
                eq_refl eq_refl) as [Hnone _].
    apply Hnone. repeat constructor; discriminate.
  - destruct (deleteBank_removes_by_id "u1" "b1" vault_world alice
                eq_refl eq_refl) as [_ Hsome].
    destruct Hsome as (kept & Hout & _ & Hfind & _ & _ & Hsub & _).
    + now left.
    + exists kept. auto.
Defined.

(** C9 on the vault. *)
Lemma getBanksForUser_lists_or_empty_witness :
  outcome (getBanksForUser "nobody") vault_world = Returned []
  /\ outcome (getBanksForUser "u1") vault_world
     = Returned [BankListItem.mk "b1" "HDFC Bank" "1234567890";
                 BankListItem.mk "b2" "State Bank" "0987654321"].
Proof.
  destruct (getBanksForUser_lists_or_empty "nobody" vault_world eq_refl)
    as [Hempty _].
  destruct (getBanksForUser_lists_or_empty "u1" vault_world eq_refl)
    as [_ Hlist].
  split; [now apply Hempty|].
  apply (Hlist alice); [reflexivity|].
  repeat constructor.
Defined.



(** C7, the code at the failing input.  The username is put into the
    pattern as it is, so its characters count as operators: after "a+bc"
    was created, "A+BC" is created as well (and so would "a+bc" be, a
    second time); "ALICE" conflicts with the stored "alice", but so does
    "a.ice"; and "(alice" makes the constructor of the pattern throw. *)
Example createUser_misses_case_variant :
  is_success (outcome (createUser (signup "a+bc")) demo_world) = true
  /\ is_success
       (outcome (createUser (signup "A+BC"))
          (world_after (createUser (signup "a+bc")) demo_world)) = true
  /\ map User.username
       (users (world_after (createUser (signup "A+BC"))
                 (world_after (createUser (signup "a+bc")) demo_world)))
     = ["a+bc"; "A+BC"]
  /\ is_success
       (outcome (createUser (signup "a+bc"))
          (world_after (createUser (signup "a+bc")) demo_world)) = true
  /\ outcome (createUser (signup "ALICE")) vault_world
     = Returned (Error "Username already taken.")
  /\ outcome (createUser (signup "a.ice")) vault_world
     = Returned (Error "Username already taken.")
  /\ outcome (createUser (signup "(alice")) vault_world = Thrown SyntaxError.
Proof. repeat split; vm_compute; reflexivity. Qed.

(** createUser on the vault: a new name, and a name that is taken. *)
Lemma createUser_effect_witness :
  (exists id masterPassword,
      outcome (createUser (signup "carol")) vault_world
      = Returned
          (Success "User 'carol' created successfully! You can now log in."
                   (UserPublic.mk id "carol" []))
      /\ is_encryption_of masterPassword "password123"
      /\ users (world_after (createUser (signup "carol")) vault_world)
         = [alice; bob; User.mk id "carol" masterPassword []])
  /\ outcome (createUser (signup "Bob")) vault_world
     = Returned (Error "Username already taken.").
Proof.
  split.
  - edestruct (createUser_effect (signup "carol") "carol" "password123"
                 vault_world) as [_ Hnew];
      [reflexivity | reflexivity | vm_compute; reflexivity |].
    apply Hnew. reflexivity.
  - edestruct (createUser_effect (signup "Bob") "Bob" "password123"
                 vault_world) as [Htaken _];
      [reflexivity | reflexivity | vm_compute; reflexivity |].
    apply (Htaken bob). reflexivity.
Defined.

(** C4 with the chained cipher. *)
Lemma decrypt_encrypt_roundtrip_witness :
  exists blob,
    outcome (encrypt "password123") vault_world = Returned blob
    /\ outcome (decrypt blob) demo_world = Returned "password123".
Proof.
  apply (decrypt_encrypt_roundtrip xor_chain_inverts "password123"
           vault_world demo_world).
Defined.

(** decryptBank on the vault: the second bank has no net-banking password
    and no PIN. *)
Lemma decryptBank_reveals_witness :
  outcome (decryptBank "u1" "b2") vault_world
  = Returned
      (Success "Bank decrypted."
         (Bank.mk "b2" "State Bank" "+919812345678" "0987654321" "alice.sbi"
            (Some "N/A") "alice.yono" (Some "m0b-secret") (Some "N/A") None)).
Proof.
  exact (proj1 (decryptBank_reveals "u1" "b2" vault_world alice sbi
                  eq_refl eq_refl eq_refl)).
Defined.

(** The scenario of the specification: the stored PIN is 1234; an update
    with an empty atmPin leaves decryptBank showing 1234, an update with
    9876 makes it show 9876. *)
Lemma updateBank_then_decryptBank_witness :
  (exists shown,
      outcome (decryptBank "u1" "b1")
        (world_after (updateBank "u1" "b1" rename_form) vault_world)
      = Returned (Success "Bank decrypted." shown)
      /\ Bank.bankName shown = "HDFC"
      /\ Bank.atmPin shown = Some "1234")
  /\ (exists shown,
         outcome (decryptBank "u1" "b1")
           (world_after (updateBank "u1" "b1" new_pin_form) vault_world)
         = Returned (Success "Bank decrypted." shown)
         /\ Bank.atmPin shown = Some "9876").
Proof.
  split.
  - destruct (updateBank_then_decryptBank xor_chain_inverts "u1" "b1"
                rename_form vault_world alice 0 hdfc
                eq_refl eq_refl eq_refl eq_refl eq_refl)
      as (shown & Hout & Hname & _ & _ & _ & _ & _ & _ & [_ Hpin] & _).
    exists shown. split; [assumption|]. split; [assumption|].
    assert (Hkept : reveal_optional (Bank.atmPin hdfc) = Some (Bank.atmPin shown)).
    { apply Hpin. intros (s & [= <-] & Hne). now apply Hne. }
    now injection Hkept as <-.
  - destruct (updateBank_then_decryptBank xor_chain_inverts "u1" "b1"
                new_pin_form vault_world alice 0 hdfc
                eq_refl eq_refl eq_refl eq_refl eq_refl)
      as (shown & Hout & _ & _ & _ & _ & _ & _ & _ & [Hpin _] & _).
    exists shown. split; [assumption|].
    apply Hpin; [reflexivity | discriminate].
Defined.

(** addBank on the vault. *)
Lemma addBank_appends_witness :
  exists added,
    outcome (addBank "u1" new_pin_form) vault_world
    = Returned (Success "Bank added successfully." tt)
    /\ find (by_id "u1")
         (users (world_after (addBank "u1" new_pin_form) vault_world))
       = Some (User.set_banks [hdfc; sbi; added] alice)
    /\ is_encryption_of (Bank.bankName added) "HDFC"
    /\ Bank.netBankingPassword added <> None
    /\ Bank.mobileBankingPassword added = None.
Proof.
  destruct (addBank_appends "u1" new_pin_form vault_world alice
              eq_refl eq_refl eq_refl) as (added & Hout & Hfind & Hfrom).
  exists added. split; [assumption|]. split; [assumption|].
  split; [apply Hfrom|]. split.
  - destruct (add_netBankingPassword _ _ Hfrom) as (c & -> & _). discriminate.
  - apply (add_mobileBankingPassword _ _ Hfrom).
Defined.

(** addBank on the vault, then the list. *)
Lemma addBank_then_getBanksForUser_witness :
  exists id,
    outcome (getBanksForUser "u1")
      (world_after (addBank "u1" new_pin_form) vault_world)
    = Returned [BankListItem.mk "b1" "HDFC Bank" "1234567890";
                BankListItem.mk "b2" "State Bank" "0987654321";
                BankListItem.mk id "HDFC" "1234567890"].
Proof.
  apply (addBank_then_getBanksForUser xor_chain_inverts "u1" new_pin_form
           vault_world alice
           [BankListItem.mk "b1" "HDFC Bank" "1234567890";
            BankListItem.mk "b2" "State Bank" "0987654321"]);
    reflexivity.
Defined.

(** Two calls of [encrypt] in a row, the random source counting. *)
Lemma encrypt_fresh_iv_distinct_blobs_witness :
  exists blob1 blob2 data1 data2,
    outcome (encrypt "1234") demo_world = Returned blob1
    /\ outcome (encrypt "1234") (world_after (encrypt "1234") demo_world)
       = Returned blob2
    /\ split_at IV_LENGTH blob1 = Some (drawn_iv demo_world, data1)
    /\ split_at IV_LENGTH blob2
       = Some (drawn_iv (world_after (encrypt "1234") demo_world), data2)
    /\ blob1 <> blob2.
Proof.
  apply (encrypt_fresh_iv_distinct_blobs "1234" demo_world
           (world_after (encrypt "1234") demo_world)).
  vm_compute. discriminate.
Defined.

(** The writes that fail on the vault: an addBank for nobody, an
    updateBank and a deleteBank of no record, a change with a wrong
    password and a createUser with a name that is taken. *)
Lemma failed_operations_write_nothing_witness :
  users (world_after (addBank "nobody" new_pin_form) vault_world)
  = [alice; bob]
  /\ users (world_after (updateBank "u1" "b7" new_pin_form) vault_world)
     = [alice; bob]
  /\ users (world_after (deleteBank "u1" "b7") vault_world) = [alice; bob]
  /\ users
       (world_after
          (changeMasterPassword "u1"
             (ChangePasswordFormValues.mk "wrong" "correct horse"
                "correct horse")) vault_world)
     = [alice; bob]
  /\ users (world_after (createUser (signup "Bob")) vault_world)
     = [alice; bob].
Proof.
  destruct (failed_operations_write_nothing vault_world)
    as (Hadd & Hupdate & Hdelete & Hchange & Hcreate).
  split; [apply Hadd; reflexivity|].
  split; [apply Hupdate; reflexivity|].
  split; [apply Hdelete; reflexivity|].
  split; [apply Hchange; vm_compute; reflexivity|].
  apply Hcreate. vm_compute. reflexivity.
Defined.

(** bob's password is stored in the clear; after he changed it, the new
    one logs him in and the old one does not. *)
Lemma changeMasterPassword_then_verifyMasterPassword_witness :
  outcome (verifyMasterPassword "Bob" "correct horse")
    (world_after
       (changeMasterPassword "u2"
          (ChangePasswordFormValues.mk "hunter2-hunter2" "correct horse"
             "correct horse")) vault_world)
  = Returned (Success "Login successful." (userToReturn bob))
  /\ is_success
       (outcome (verifyMasterPassword "Bob" "hunter2-hunter2")
          (world_after
             (changeMasterPassword "u2"
                (ChangePasswordFormValues.mk "hunter2-hunter2" "correct horse"
                   "correct horse")) vault_world))
     = false.
Proof.
  edestruct (changeMasterPassword_then_verifyMasterPassword xor_chain_inverts
               "u2" "Bob"
               (ChangePasswordFormValues.mk "hunter2-hunter2" "correct horse"
                  "correct horse") vault_world bob)
    as (_ & Hnew & Hother);
    [vm_compute; reflexivity | reflexivity | reflexivity
    | vm_compute; reflexivity | vm_compute; reflexivity |].
  split; [exact Hnew|]. apply Hother. discriminate.
Defined.

(** carol signs up and logs in; the user who signs up as a+bc cannot log
    in, the pattern made of that name does not match it. *)
Lemma createUser_then_verifyMasterPassword_witness :
  is_success
    (outcome (verifyMasterPassword "carol" "password123")
       (world_after (createUser (signup "carol")) vault_world))
  = true
  /\ outcome (verifyMasterPassword "a+bc" "password123")
       (world_after (createUser (signup "a+bc")) demo_world)
     = Returned (Error "Invalid username or password.").
Proof.
  split.
  - edestruct (createUser_then_verifyMasterPassword xor_chain_inverts
                 (signup "carol") vault_world)
      as (username & password & re & Hv & Hre & Hout);
      [vm_compute; reflexivity|].
    injection Hv as <- <-. vm_compute in Hre. injection Hre as <-.
    rewrite Hout. reflexivity.
  - edestruct (createUser_then_verifyMasterPassword xor_chain_inverts
                 (signup "a+bc") demo_world)
      as (username & password & re & Hv & Hre & Hout);
      [vm_compute; reflexivity|].
    injection Hv as <- <-. vm_compute in Hre. injection Hre as <-.
    rewrite Hout. reflexivity.
Defined.

(** The first bank of alice is deleted: it cannot be revealed, deleted
    or updated any more. *)
Lemma deleteBank_then_not_found_witness :
  outcome (decryptBank "u1" "b1")
    (world_after (deleteBank "u1" "b1") vault_world)
  = Returned (Error "Bank not found.")
  /\ outcome (deleteBank "u1" "b1")
       (world_after (deleteBank "u1" "b1") vault_world)
     = Returned (Error "Bank not found.")
  /\ outcome (updateBank "u1" "b1" rename_form)
       (world_after (deleteBank "u1" "b1") vault_world)
     = Returned (Error "Bank not found.").
Proof.
  destruct (deleteBank_then_not_found "u1" "b1" vault_world
              "Bank deleted successfully." tt)
    as (Hreveal & Hdelete & Hupdate & _); [reflexivity|].
  split; [exact Hreveal|]. split; [exact Hdelete|].
  apply Hupdate. reflexivity.
Defined.

(** The fields of the vault decrypt, and still do after each of the
    writes. *)
Lemma writing_operations_keep_fields_decryptable_witness :
  store_opens (world_after (addBank "u1" new_pin_form) vault_world) = true
  /\ store_opens (world_after (updateBank "u1" "b1" new_pin_form) vault_world)
     = true
  /\ store_opens (world_after (deleteBank "u1" "b2") vault_world) = true
  /\ store_opens (world_after (createUser (signup "carol")) vault_world)
     = true.
Proof.
  destruct (writing_operations_keep_fields_decryptable xor_chain_inverts
              vault_world eq_refl)
    as (Hadd & Hupdate & Hdelete & _ & Hcreate).
  split; [apply Hadd|]. split; [apply Hupdate|]. split; [apply Hdelete|].
  apply Hcreate.
Defined.

(** addBank on the vault, then the reveal of the record added: the
    net-banking password of three spaces is shown as it was submitted,
    the mobile-banking password that was left out as 'N/A'. *)
Lemma addBank_then_decryptBank_witness :
  exists id,
    outcome (decryptBank "u1" id)
      (world_after (addBank "u1" new_pin_form) vault_world)
    = Returned
        (Success "Bank decrypted."
           (Bank.mk id "HDFC" "+919876543210" "1234567890" "alice.net"
              (Some "   ") "alice.mob" (Some "N/A") (Some "9876") None)).
Proof.
  destruct (addBank_then_decryptBank xor_chain_inverts "u1" new_pin_form
              vault_world alice eq_refl eq_refl eq_refl)
    as (added & Hfind & Hshown).
  exists (Bank.id added). apply Hshown.
  vm_compute in Hfind. injection Hfind as <-.
  repeat constructor; discriminate.
Defined.

(** The phone number and the PIN that addBank stores on the vault. *)
Lemma stored_phone_and_pin_are_validated_witness :
  exists added phone pin c,
    find (by_id "u1")
      (users (world_after (addBank "u1" new_pin_form) vault_world))
    = Some (User.set_banks [hdfc; sbi; added] alice)
    /\ is_encryption_of (Bank.phoneForOtp added) phone
    /\ phone_ok phone = true
    /\ Bank.atmPin added = Some c
    /\ is_encryption_of c pin
    /\ pin_ok pin = true.
Proof.
  destruct (proj1 (stored_phone_and_pin_are_validated "u1" "b1" new_pin_form
                     vault_world "Bank added successfully." tt))
    as (user & added & Hu & Hfind & (phone & Hphone & Hformat) & Hpin);
    [vm_compute; reflexivity|].
  injection Hu as <-.
  assert (Hstored : exists c, Bank.atmPin added = Some c).
  { pose proof Hfind as Hrun. vm_compute in Hrun. injection Hrun as <-.
    eexists. reflexivity. }
  destruct Hstored as (c & Hc). destruct (Hpin c Hc) as (pin & Henc & Hdigits).
  exists added, phone, pin, c. auto 7.
Defined.

(** The handle cached in the demo world outlives the server, until the
    connection is closed. *)
Lemma getUsersCollection_connects_once_witness :
  outcome getUsersCollection
    (set_mongo_up false (world_after getUsersCollection demo_world))
  = Returned tt
  /\ outcome getUsersCollection
       (world_after closeDatabaseConnection
          (set_mongo_up false (world_after getUsersCollection demo_world)))
     = Thrown MongoError
  /\ outcome getUsersCollection
       (set_MONGODB_URI None (world_after getUsersCollection demo_world))
     = Thrown ConfigError.
Proof.
  destruct (getUsersCollection_connects_once demo_world eq_refl)
    as (Hcached & _ & Huri & Hclosed & _).
  split; [apply Hcached|]. split; [apply (Hclosed false)|].
  apply Huri. reflexivity.
Defined.


(** Two lists with the same names and account numbers under other ids,
    one name with a comma and quotes in it: the files are the same, and
    so are the rows. *)
Lemma exportToCSV_loses_nothing_witness :
  rows [BankListItem.mk "b1" joint_account "12,34";
        BankListItem.mk "b2" "State Bank" "0987654321"]
  = rows [BankListItem.mk "x1" joint_account "12,34";
          BankListItem.mk "x2" "State Bank" "0987654321"].
Proof.
  apply (proj2 exportToCSV_loses_nothing). vm_compute. reflexivity.
Defined.

(** The initials of a username and of a name in two words. *)
Lemma getInitials_of_name_witness :
  getInitials "alice" = "a"
  /\ exists t, getInitials "mary ann" = String "m"%char t.
Proof.
  split.
  - apply (proj2 (proj2 (proj2 (getInitials_of_name "alice"))) "a"%char "lice");
      [reflexivity|].
    cbn. intros Hin.
    repeat (destruct Hin as [Hin|Hin]; [discriminate|]). exact Hin.
  - apply (proj1 (proj2 (proj2 (getInitials_of_name "mary ann"))) "m"%char
             "ary ann"); [reflexivity | discriminate].
Defined.

(** The list of alice after the second bank was updated. *)
Lemma updateBank_then_getBanksForUser_witness :
  outcome (getBanksForUser "u1")
    (world_after (updateBank "u1" "b2" new_pin_form) vault_world)
  = Returned [BankListItem.mk "b1" "HDFC Bank" "1234567890";
              BankListItem.mk "b2" "HDFC" "1234567890"].
Proof.
  apply (updateBank_then_getBanksForUser xor_chain_inverts "u1" "b2"
           new_pin_form vault_world alice 1 sbi
           [BankListItem.mk "b1" "HDFC Bank" "1234567890";
            BankListItem.mk "b2" "State Bank" "0987654321"]);
    reflexivity.
Defined.

(** The list of alice after the first bank was deleted. *)
Lemma deleteBank_then_getBanksForUser_witness :
  outcome (getBanksForUser "u1")
    (world_after (deleteBank "u1" "b1") vault_world)
  = Returned [BankListItem.mk "b2" "State Bank" "0987654321"].
Proof.
  apply (deleteBank_then_getBanksForUser "u1" "b1" vault_world
           [BankListItem.mk "b1" "HDFC Bank" "1234567890";
            BankListItem.mk "b2" "State Bank" "0987654321"]
           "Bank deleted successfully." tt);
    reflexivity.
Defined.

(** A bank is added to the vault and deleted again: the documents are
    those of the vault. *)
Lemma addBank_then_deleteBank_witness :
  exists id,
    outcome (deleteBank "u1" id)
      (world_after (addBank "u1" new_pin_form) vault_world)
    = Returned (Success "Bank deleted successfully." tt)
    /\ users
         (world_after (deleteBank "u1" id)
            (world_after (addBank "u1" new_pin_form) vault_world))
       = [alice; bob].
Proof.
  destruct (addBank_then_deleteBank "u1" new_pin_form vault_world alice
              eq_refl eq_refl eq_refl)
    as (added & Hfind & Hundone).
  exists (Bank.id added). apply Hundone.
  vm_compute in Hfind. injection Hfind as <-.
  repeat constructor; discriminate.
Defined.
